(** * Decentralized Voting DAO: governance, quadratic voting and treasury

    A shallow embedding of the Solidity contracts

    - [contracts/VotingMechanisms.sol] (pure library),
    - [contracts/GovernanceToken.sol] (the value ledger),
    - [contracts/DAOGovernance.sol] (proposals, votes, delegation),
    - [contracts/DAOTreasury.sol] (balances, executions, budgets),

    together with the properties of the natural-language specification that
    concern them, and of two helpers around the contracts: the proposal
    status of the frontend ([getProposalStatus]) and the attachment checks of
    [ipfs/metadata.js].

    Conventions of the embedding.

    - A [uint256] is a [Z]; every [+], [-], [*] of the source is the checked
      operation of Solidity 0.8 and reverts with [Panic 0x11] when the result
      leaves [0 .. 2^256 - 1].
    - An [address] is an [N]; [address(0)] is [0].
    - A [mapping(K => V)] is a total function [K -> V] (every key holds the
      zero value until written), updated with [<[ k := v ]>].
    - A transaction either commits or reverts: every external function returns
      a [result]; [Err] means the whole call reverted and storage is untouched.
    - [msg.sender] and [block.timestamp] are explicit arguments.  The outcome
      of a call into a foreign contract (an ether transfer, an ERC20 transfer)
      is an explicit argument too; callbacks into the calling contract during
      such a call are outside the model. *)

From Stdlib Require Import ZArith Lia List String Bool Sorted Permutation.
From stdpp Require Import base decidable numbers functions strings list.
Import ListNotations.

Local Open Scope string_scope.
Local Open Scope Z_scope.

(** ** Reverts and checked arithmetic *)

Inductive error : Type :=
| Revert (reason : string)      (* require(cond, reason) *)
| Custom (name : string)        (* a custom error of an inherited contract *)
| Panic (code : Z).             (* compiler-inserted check *)

Inductive result (A : Type) : Type :=
| Ok (a : A)
| Err (e : error).

Arguments Ok {A} a.
Arguments Err {A} e.

Definition bind {A B : Type} (c : result A) (k : A -> result B) : result B :=
  match c with
  | Ok a => k a
  | Err e => Err e
  end.

Notation "'do' x <- c ; k" := (bind c (fun x => k))
  (at level 10, x name, c at level 100, k at level 200).
Notation "'check' c ; k" := (bind c (fun _ => k))
  (at level 10, c at level 100, k at level 200).

Definition require (cond : bool) (reason : string) : result unit :=
  if cond then Ok tt else Err (Revert reason).

Definition ensure (cond : bool) (name : string) : result unit :=
  if cond then Ok tt else Err (Custom name).


Definition MAX_UINT256 : Z := 2 ^ 256 - 1.
Definition MAX_UINT128 : Z := 2 ^ 128 - 1.

(** Arithmetic overflow or underflow: [Panic(0x11)]. *)
Definition OVERFLOW : error := Panic 17.

Definition uint256 (x : Z) : Prop := 0 <= x <= MAX_UINT256.

Definition add (a b : Z) : result Z :=
  if a + b <=? MAX_UINT256 then Ok (a + b) else Err OVERFLOW.

Definition sub (a b : Z) : result Z :=
  if b <=? a then Ok (a - b) else Err OVERFLOW.

Definition mul (a b : Z) : result Z :=
  if a * b <=? MAX_UINT256 then Ok (a * b) else Err OVERFLOW.

(** Division by zero: [Panic(0x12)]; an array index out of bounds:
    [Panic(0x32)]. *)
Definition DIVISION_BY_ZERO : error := Panic 18.
Definition OUT_OF_BOUNDS : error := Panic 50.

Definition div (a b : Z) : result Z :=
  if b =? 0 then Err DIVISION_BY_ZERO else Ok (a / b).

(** [a[j]] on a memory array. *)
Definition at_index (a : list Z) (j : nat) : result Z :=
  match a !! j with
  | Some x => Ok x
  | None => Err OUT_OF_BOUNDS
  end.

(** A [for] loop over the indices [js], threading the loop state. *)
Fixpoint forEach {S : Type} (body : S -> nat -> result S) (js : list nat)
         (st : S) : result S :=
  match js with
  | [] => Ok st
  | j :: rest => do st' <- body st j; forEach body rest st'
  end.

Definition address : Type := N.
Definition zero_address : address := 0%N.

Definition is_zero (a : address) : bool := N.eqb a zero_address.

(** ** contracts/VotingMechanisms.sol *)

Module VotingMechanisms.

(** [calculateQuadraticCost(uint256 votes)] *)
Definition calculateQuadraticCost (votes : Z) : result Z :=
  check require (0 <? votes) "VotingMechanisms: votes must be greater than 0";
  check require (votes <=? MAX_UINT128) "VotingMechanisms: votes too large";
  mul votes votes.

(** [checkQuorum(totalVotes, quorumThreshold)] *)
Definition checkQuorum (totalVotes quorumThreshold : Z) : bool :=
  quorumThreshold <=? totalVotes.

(** [validateVote(votes, maxVotesPerWallet, tokenBalance)] returns
    [(valid, cost)]. *)
Definition validateVote (votes maxVotesPerWallet tokenBalance : Z)
  : result (bool * Z) :=
  if votes =? 0 then Ok (false, 0)
  else if maxVotesPerWallet <? votes then Ok (false, 0)
  else
    do cost <- calculateQuadraticCost votes;
    Ok (cost <=? tokenBalance, cost).

(** [Math.sqrt] of the OpenZeppelin library the contract imports: the square
    root rounded towards zero. *)
Definition sqrt (a : Z) : Z := Z.sqrt a.

(** [calculateMaxVotes(tokenBalance)] *)
Definition calculateMaxVotes (tokenBalance : Z) : Z :=
  if tokenBalance =? 0 then 0 else sqrt tokenBalance.

(** [calculateVoteWeight(tokensCost)] *)
Definition calculateVoteWeight (tokensCost : Z) : Z :=
  if tokensCost =? 0 then 0 else sqrt tokensCost.

(** [calculateSybilResistanceScore(totalVoters, totalTokensSpent,
    maxTokensPerVoter)] *)
Definition calculateSybilResistanceScore
           (totalVoters totalTokensSpent maxTokensPerVoter : Z) : result Z :=
  if (totalVoters =? 0) || (totalTokensSpent =? 0) then Ok 0
  else
    do avgTokensPerVoter <- div totalTokensSpent totalVoters;
    do scaled <- mul maxTokensPerVoter 100;
    do concentrationRatio <- div scaled avgTokensPerVoter;
    if concentrationRatio <=? 100 then Ok 100
    else if concentrationRatio <=? 200 then sub 200 concentrationRatio
    else Ok 0.

(** [calculateParticipationRate(voters, eligibleVoters)] *)
Definition calculateParticipationRate (voters eligibleVoters : Z)
  : result Z :=
  if eligibleVoters =? 0 then Ok 0
  else
    do scaled <- mul voters 100;
    div scaled eligibleVoters.

(** [calculateOptimalVotes(tokenBudget, maxVotesPerWallet)] returns
    [(optimalVotes, remainingTokens)]. *)
Definition calculateOptimalVotes (tokenBudget maxVotesPerWallet : Z)
  : result (Z * Z) :=
  if tokenBudget =? 0 then Ok (0, 0)
  else
    let optimalVotes := calculateMaxVotes tokenBudget in
    let optimalVotes :=
      if maxVotesPerWallet <? optimalVotes then maxVotesPerWallet
      else optimalVotes in
    do cost <- calculateQuadraticCost optimalVotes;
    do remainingTokens <- sub tokenBudget cost;
    Ok (optimalVotes, remainingTokens).

Record QuadraticVoteData : Type := mkQuadraticVoteData {
  votes : Z;
  cost : Z;
  voter : address
}.

Record VoteAnalysis : Type := mkVoteAnalysis {
  totalVotes : Z;
  totalVoters : Z;
  totalTokensSpent : Z;
  averageVotesPerVoter : Z;
  medianVotesPerVoter : Z;
  giniCoefficient : Z
}.

(** The first loop of [calculateGiniCoefficient]:
    [totalVotes += voteData[i].votes]. *)
Fixpoint sumVotes (voteData : list QuadraticVoteData) (totalVotes : Z)
  : result Z :=
  match voteData with
  | [] => Ok totalVotes
  | d :: rest => do t <- add totalVotes (votes d); sumVotes rest t
  end.

(** The inner loop over [j]:
    [if (votes_i > voteData[j].votes) sum += votes_i - voteData[j].votes]. *)
Fixpoint giniRow (votes_i : Z) (voteData : list QuadraticVoteData) (sum : Z)
  : result Z :=
  match voteData with
  | [] => Ok sum
  | d :: rest =>
      do sum' <- (if votes d <? votes_i
                  then do diff <- sub votes_i (votes d); add sum diff
                  else Ok sum);
      giniRow votes_i rest sum'
  end.

(** The outer loop over [i], [rows] being what is left of it. *)
Fixpoint giniRows (rows voteData : list QuadraticVoteData) (sum : Z)
  : result Z :=
  match rows with
  | [] => Ok sum
  | d :: rest =>
      do sum' <- giniRow (votes d) voteData sum;
      giniRows rest voteData sum'
  end.

(** [calculateGiniCoefficient(voteData)] *)
Definition calculateGiniCoefficient (voteData : list QuadraticVoteData)
  : result Z :=
  let length := Z.of_nat (List.length voteData) in
  if length <=? 1 then Ok 0
  else
    do totalVotes <- sumVotes voteData 0;
    if totalVotes =? 0 then Ok 0
    else
      do sum <- giniRows voteData voteData 0;
      do scaled <- mul sum 100;
      do weight <- mul length totalVotes;
      div scaled weight.

(** The first loop of [analyzeVoteDistribution]: both totals at once. *)
Fixpoint sumTotals (voteData : list QuadraticVoteData)
         (totalVotes totalTokensSpent : Z) : result (Z * Z) :=
  match voteData with
  | [] => Ok (totalVotes, totalTokensSpent)
  | d :: rest =>
      do v <- add totalVotes (votes d);
      do c <- add totalTokensSpent (cost d);
      sumTotals rest v c
  end.

(** The body of the bubble sort:
    [if (a[j] > a[j + 1]) swap them]. *)
Definition compareSwap (a : list Z) (j : nat) : result (list Z) :=
  do x <- at_index a j;
  do y <- at_index a (S j);
  if y <? x then Ok (<[S j := x]> (<[j := y]> a)) else Ok a.

(** The loop over [j < length - i - 1]. *)
Definition bubblePass (a : list Z) (i : nat) : result (list Z) :=
  forEach compareSwap (seq 0 (List.length a - i - 1)) a.

(** The loop over [i < length - 1]. *)
Definition bubbleSort (a : list Z) : result (list Z) :=
  forEach bubblePass (seq 0 (List.length a - 1)) a.

Definition median (sortedVotes : list Z) : result Z :=
  let length := List.length sortedVotes in
  if Nat.eqb (length mod 2) 0 then
    do lower <- at_index sortedVotes (length / 2 - 1);
    do upper <- at_index sortedVotes (length / 2);
    do both <- add lower upper;
    div both 2
  else at_index sortedVotes (length / 2).

(** [analyzeVoteDistribution(voteData)] *)
Definition analyzeVoteDistribution (voteData : list QuadraticVoteData)
  : result VoteAnalysis :=
  let length := Z.of_nat (List.length voteData) in
  if length =? 0 then Ok (mkVoteAnalysis 0 0 0 0 0 0)
  else
    do totals <- sumTotals voteData 0 0;
    do average <- (if 0 <? length then div (fst totals) length else Ok 0);
    do sortedVotes <- bubbleSort (map votes voteData);
    do middle <- median sortedVotes;
    do gini <- calculateGiniCoefficient voteData;
    Ok (mkVoteAnalysis (fst totals) length (snd totals) average middle gini).

End VotingMechanisms.

(** ** contracts/GovernanceToken.sol: the value ledger

    The contract adds [burnFrom] and [getVotingPower] (and minting, not needed
    here) to the ERC20 / ERC20Votes base contracts of the OpenZeppelin library
    it inherits.  The library is not part of the repository; its storage is
    kept as far as governance observes it: balances, allowances, the
    token-level delegate of every holder and the current votes of every
    delegate.  Supply bookkeeping and checkpoint history are left out. *)

Module GovernanceToken.

Record State : Type := mkState {
  balanceOf : address -> Z;
  allowance : address -> address -> Z;    (* owner, spender *)
  delegates : address -> address;
  getVotes : address -> Z;
  paused : bool
}.

(** [getVotingPower(account)]: [return getVotes(account)]. *)
Definition getVotingPower (t : State) (account : address) : Z :=
  getVotes t account.

(** [_approve(owner, spender, value)] of ERC20. *)
Definition _approve (owner spender : address) (value : Z) (t : State)
  : result State :=
  check ensure (negb (is_zero owner)) "ERC20InvalidApprover";
  check ensure (negb (is_zero spender)) "ERC20InvalidSpender";
  Ok (mkState (balanceOf t)
              (<[owner := <[spender := value]> (allowance t owner)]> (allowance t))
              (delegates t) (getVotes t) (paused t)).

(** [_burn(account, value)]: [_update(account, address(0), value)], which
    the contract overrides with [whenNotPaused]; the balance goes down and
    ERC20Votes takes the voting units from the holder's delegate, when the
    holder has one. *)
Definition _burn (account : address) (value : Z) (t : State) : result State :=
  check ensure (negb (is_zero account)) "ERC20InvalidSender";
  check ensure (negb (paused t)) "EnforcedPause";
  check ensure (value <=? balanceOf t account) "ERC20InsufficientBalance";
  let balances := <[account := balanceOf t account - value]> (balanceOf t) in
  let d := delegates t account in
  do votes <-
    (if is_zero d || (value =? 0) then Ok (getVotes t)
     else do v <- sub (getVotes t d) value; Ok (<[d := v]> (getVotes t)));
  Ok (mkState balances (allowance t) (delegates t) votes (paused t)).

(** [burnFrom(from, amount)], called by [sender]. *)
Definition burnFrom (sender from : address) (amount : Z) (t : State)
  : result State :=
  check require (0 <? amount)
        "GovernanceToken: burn amount must be greater than 0";
  check require (amount <=? balanceOf t from)
        "GovernanceToken: burn amount exceeds balance";
  let currentAllowance := allowance t from sender in
  check require (amount <=? currentAllowance)
        "GovernanceToken: burn amount exceeds allowance";
  do spent <- sub currentAllowance amount;
  do t1 <- _approve from sender spent t;
  _burn from amount t1.

End GovernanceToken.

(** ** contracts/DAOGovernance.sol *)

Module DAOGovernance.

Record Proposal : Type := mkProposal {
  id : Z;
  proposer : address;
  title : string;
  ipfsHash : string;
  startTime : Z;
  endTime : Z;
  totalVotes : Z;
  totalVoters : Z;
  executed : bool;
  cancelled : bool;
  votes : address -> Z;
  hasVoted : address -> bool
}.

Record VotingConfig : Type := mkVotingConfig {
  proposalThreshold : Z;
  votingDelay : Z;
  votingPeriod : Z;
  quorumThreshold : Z;
  maxVotesPerWallet : Z;
  proposalCooldown : Z
}.

(** Storage of the contract.  [governanceToken] holds the state of the
    token contract the immutable of that name points to; [this] is the
    contract's own address, [owner] and [paused] are the storage of the
    inherited Ownable and Pausable. *)
Record State : Type := mkState {
  governanceToken : GovernanceToken.State;
  this : address;
  owner : address;
  paused : bool;
  votingConfig : VotingConfig;
  proposalCount : Z;
  proposals : Z -> Proposal;
  lastProposalTime : address -> Z;
  delegatedTo : address -> address;
  delegatedVotes : address -> Z;
  treasuryBalance : Z;
  treasuryManagers : address -> bool
}.

Definition emptyProposal : Proposal :=
  mkProposal 0 zero_address EmptyString EmptyString 0 0 0 0 false false
             (fun _ => 0) (fun _ => false).

Definition days : Z := 86400.
Definition ether : Z := 10 ^ 18.

Definition defaultConfig : VotingConfig :=
  mkVotingConfig (1000 * ether) (1 * days) (7 * days)
                 (100000 * ether) 10000 (1 * days).

(** The state the constructor leaves behind. *)
Definition genesis (token : GovernanceToken.State)
           (self initialOwner : address) : State :=
  mkState token self initialOwner false defaultConfig 0
          (fun _ => emptyProposal) (fun _ => 0)
          (fun _ => zero_address) (fun _ => 0) 0 (fun _ => false).

Definition constructor (_governanceToken _initialOwner self : address)
           (token : GovernanceToken.State) : result State :=
  check ensure (negb (is_zero _initialOwner)) "OwnableInvalidOwner";
  check require (negb (is_zero _governanceToken))
        "DAOGovernance: governance token cannot be zero address";
  Ok (genesis token self _initialOwner).

(** *** Field updates *)

Definition set_governanceToken (t : GovernanceToken.State) (s : State) :=
  mkState t (this s) (owner s) (paused s) (votingConfig s) (proposalCount s)
          (proposals s) (lastProposalTime s) (delegatedTo s)
          (delegatedVotes s) (treasuryBalance s) (treasuryManagers s).

Definition set_owner (o : address) (s : State) :=
  mkState (governanceToken s) (this s) o (paused s) (votingConfig s)
          (proposalCount s) (proposals s) (lastProposalTime s)
          (delegatedTo s) (delegatedVotes s) (treasuryBalance s)
          (treasuryManagers s).

Definition set_paused (b : bool) (s : State) :=
  mkState (governanceToken s) (this s) (owner s) b (votingConfig s)
          (proposalCount s) (proposals s) (lastProposalTime s)
          (delegatedTo s) (delegatedVotes s) (treasuryBalance s)
          (treasuryManagers s).

Definition set_votingConfig (c : VotingConfig) (s : State) :=
  mkState (governanceToken s) (this s) (owner s) (paused s) c
          (proposalCount s) (proposals s) (lastProposalTime s)
          (delegatedTo s) (delegatedVotes s) (treasuryBalance s)
          (treasuryManagers s).

Definition set_proposalCount (n : Z) (s : State) :=
  mkState (governanceToken s) (this s) (owner s) (paused s) (votingConfig s)
          n (proposals s) (lastProposalTime s) (delegatedTo s)
          (delegatedVotes s) (treasuryBalance s) (treasuryManagers s).

Definition set_proposal (pid : Z) (p : Proposal) (s : State) :=
  mkState (governanceToken s) (this s) (owner s) (paused s) (votingConfig s)
          (proposalCount s) (<[pid := p]> (proposals s))
          (lastProposalTime s) (delegatedTo s) (delegatedVotes s)
          (treasuryBalance s) (treasuryManagers s).

Definition set_lastProposalTime (a : address) (t : Z) (s : State) :=
  mkState (governanceToken s) (this s) (owner s) (paused s) (votingConfig s)
          (proposalCount s) (proposals s) (<[a := t]> (lastProposalTime s))
          (delegatedTo s) (delegatedVotes s) (treasuryBalance s)
          (treasuryManagers s).

Definition set_delegatedTo (a d : address) (s : State) :=
  mkState (governanceToken s) (this s) (owner s) (paused s) (votingConfig s)
          (proposalCount s) (proposals s) (lastProposalTime s)
          (<[a := d]> (delegatedTo s)) (delegatedVotes s)
          (treasuryBalance s) (treasuryManagers s).

Definition set_delegatedVotes (a : address) (v : Z) (s : State) :=
  mkState (governanceToken s) (this s) (owner s) (paused s) (votingConfig s)
          (proposalCount s) (proposals s) (lastProposalTime s)
          (delegatedTo s) (<[a := v]> (delegatedVotes s))
          (treasuryBalance s) (treasuryManagers s).

Definition set_treasuryBalance (v : Z) (s : State) :=
  mkState (governanceToken s) (this s) (owner s) (paused s) (votingConfig s)
          (proposalCount s) (proposals s) (lastProposalTime s)
          (delegatedTo s) (delegatedVotes s) v (treasuryManagers s).

Definition set_treasuryManager (a : address) (b : bool) (s : State) :=
  mkState (governanceToken s) (this s) (owner s) (paused s) (votingConfig s)
          (proposalCount s) (proposals s) (lastProposalTime s)
          (delegatedTo s) (delegatedVotes s) (treasuryBalance s)
          (<[a := b]> (treasuryManagers s)).

(** *** Modifiers *)

Definition onlyOwner (sender : address) (s : State) : result unit :=
  ensure (N.eqb sender (owner s)) "OwnableUnauthorizedAccount".

Definition whenNotPaused (s : State) : result unit :=
  ensure (negb (paused s)) "EnforcedPause".

Definition whenPaused (s : State) : result unit :=
  ensure (paused s) "ExpectedPause".

Definition onlyTreasuryManager (sender : address) (s : State) : result unit :=
  require (treasuryManagers s sender || N.eqb sender (owner s))
          "DAOGovernance: not treasury manager".

Definition proposalExists (proposalId : Z) (s : State) : result unit :=
  require ((0 <? proposalId) && (proposalId <=? proposalCount s))
          "DAOGovernance: proposal does not exist".

Definition votingActive (now proposalId : Z) (s : State) : result unit :=
  let proposal := proposals s proposalId in
  check require (startTime proposal <=? now)
        "DAOGovernance: voting not started";
  check require (now <=? endTime proposal) "DAOGovernance: voting ended";
  require (negb (executed proposal) && negb (cancelled proposal))
          "DAOGovernance: proposal not active".

(** *** External functions *)

(** [propose(title, ipfsHash)] returns the new proposal id. *)
Definition propose (sender : address) (now : Z) (title_ ipfsHash_ : string)
           (s : State) : result (State * Z) :=
  check whenNotPaused s;
  check require (0 <? Z.of_nat (String.length title_))
        "DAOGovernance: title cannot be empty";
  check require (0 <? Z.of_nat (String.length ipfsHash_))
        "DAOGovernance: IPFS hash cannot be empty";
  let voterBalance :=
    GovernanceToken.getVotingPower (governanceToken s) sender in
  check require (proposalThreshold (votingConfig s) <=? voterBalance)
        "DAOGovernance: insufficient tokens to propose";
  do ready <- add (lastProposalTime s sender)
                  (proposalCooldown (votingConfig s));
  check require (ready <=? now) "DAOGovernance: proposal cooldown not met";
  do proposalId <- add (proposalCount s) 1;
  do start <- add now (votingDelay (votingConfig s));
  do stop <- add start (votingPeriod (votingConfig s));
  let old := proposals s proposalId in
  let newProposal :=
    mkProposal proposalId sender title_ ipfsHash_ start stop
               (totalVotes old) (totalVoters old) (executed old)
               (cancelled old) (votes old) (hasVoted old) in
  Ok (set_lastProposalTime sender now
        (set_proposal proposalId newProposal
           (set_proposalCount proposalId s)),
      proposalId).

(** The power [vote] compares with the cost:
    [governanceToken.getVotingPower(msg.sender) + delegatedVotes[msg.sender]]. *)
Definition availableVotes (s : State) (account : address) : result Z :=
  add (GovernanceToken.getVotingPower (governanceToken s) account)
      (delegatedVotes s account).

(** [vote(proposalId, votes)] *)
Definition vote (sender : address) (now : Z) (proposalId nvotes : Z)
           (s : State) : result State :=
  check proposalExists proposalId s;
  check votingActive now proposalId s;
  check whenNotPaused s;
  check require (0 <? nvotes) "DAOGovernance: votes must be greater than 0";
  check require (nvotes <=? maxVotesPerWallet (votingConfig s))
        "DAOGovernance: exceeds max votes per wallet";
  let proposal := proposals s proposalId in
  check require (negb (hasVoted proposal sender))
        "DAOGovernance: already voted";
  do voteCost <- mul nvotes nvotes;
  do tokensCost <- mul voteCost (10 ^ 18);
  do available <- availableVotes s sender;
  check require (tokensCost <=? available)
        "DAOGovernance: insufficient voting power";
  do newTotalVotes <- add (totalVotes proposal) nvotes;
  do newTotalVoters <- add (totalVoters proposal) 1;
  let recorded :=
    mkProposal (id proposal) (proposer proposal) (title proposal)
               (ipfsHash proposal) (startTime proposal) (endTime proposal)
               newTotalVotes newTotalVoters (executed proposal)
               (cancelled proposal)
               (<[sender := nvotes]> (votes proposal))
               (<[sender := true]> (hasVoted proposal)) in
  do token <- GovernanceToken.burnFrom (this s) sender tokensCost
                                       (governanceToken s);
  Ok (set_governanceToken token (set_proposal proposalId recorded s)).

(** [delegateVotes(delegatee)] *)
Definition delegateVotes (sender delegatee : address) (s : State)
  : result State :=
  check whenNotPaused s;
  check require (negb (is_zero delegatee))
        "DAOGovernance: cannot delegate to zero address";
  check require (negb (N.eqb delegatee sender))
        "DAOGovernance: cannot delegate to self";
  let currentDelegate := delegatedTo s sender in
  let voterBalance :=
    GovernanceToken.getVotingPower (governanceToken s) sender in
  do s1 <-
    (if negb (is_zero currentDelegate) then
       do v <- sub (delegatedVotes s currentDelegate) voterBalance;
       Ok (set_delegatedVotes currentDelegate v s)
     else Ok s);
  let s2 := set_delegatedTo sender delegatee s1 in
  do v <- add (delegatedVotes s2 delegatee) voterBalance;
  Ok (set_delegatedVotes delegatee v s2).

(** [revokeDelegation()] *)
Definition revokeDelegation (sender : address) (s : State) : result State :=
  check whenNotPaused s;
  let currentDelegate := delegatedTo s sender in
  check require (negb (is_zero currentDelegate))
        "DAOGovernance: no active delegation";
  let voterBalance :=
    GovernanceToken.getVotingPower (governanceToken s) sender in
  do v <- sub (delegatedVotes s currentDelegate) voterBalance;
  Ok (set_delegatedTo sender zero_address
        (set_delegatedVotes currentDelegate v s)).

Definition set_executed (p : Proposal) : Proposal :=
  mkProposal (id p) (proposer p) (title p) (ipfsHash p) (startTime p)
             (endTime p) (totalVotes p) (totalVoters p) true (cancelled p)
             (votes p) (hasVoted p).

Definition set_cancelled (p : Proposal) : Proposal :=
  mkProposal (id p) (proposer p) (title p) (ipfsHash p) (startTime p)
             (endTime p) (totalVotes p) (totalVoters p) (executed p) true
             (votes p) (hasVoted p).

(** [executeProposal(proposalId)]: the finalisation of a proposal. *)
Definition executeProposal (sender : address) (now : Z) (proposalId : Z)
           (s : State) : result State :=
  check proposalExists proposalId s;
  check onlyOwner sender s;
  let proposal := proposals s proposalId in
  check require (endTime proposal <? now)
        "DAOGovernance: voting still active";
  check require (negb (executed proposal))
        "DAOGovernance: proposal already executed";
  check require (negb (cancelled proposal))
        "DAOGovernance: proposal cancelled";
  check require (quorumThreshold (votingConfig s) <=? totalVotes proposal)
        "DAOGovernance: quorum not met";
  Ok (set_proposal proposalId (set_executed proposal) s).

(** [cancelProposal(proposalId)] *)
Definition cancelProposal (sender : address) (proposalId : Z) (s : State)
  : result State :=
  check proposalExists proposalId s;
  let proposal := proposals s proposalId in
  check require (N.eqb sender (proposer proposal) || N.eqb sender (owner s))
        "DAOGovernance: only proposer or owner can cancel";
  check require (negb (executed proposal))
        "DAOGovernance: cannot cancel executed proposal";
  check require (negb (cancelled proposal))
        "DAOGovernance: proposal already cancelled";
  Ok (set_proposal proposalId (set_cancelled proposal) s).

Definition addTreasuryManager (sender manager : address) (s : State)
  : result State :=
  check onlyOwner sender s;
  check require (negb (is_zero manager))
        "DAOGovernance: manager cannot be zero address";
  Ok (set_treasuryManager manager true s).

Definition removeTreasuryManager (sender manager : address) (s : State)
  : result State :=
  check onlyOwner sender s;
  Ok (set_treasuryManager manager false s).

(** [depositToTreasury()], payable with [msg.value = value]. *)
Definition depositToTreasury (value : Z) (s : State) : result State :=
  check require (0 <? value)
        "DAOGovernance: deposit amount must be greater than 0";
  do b <- add (treasuryBalance s) value;
  Ok (set_treasuryBalance b s).

(** [withdrawFromTreasury(to, amount)]; [sent] tells whether
    [to.transfer(amount)] went through. *)
Definition withdrawFromTreasury (sender to : address) (amount : Z)
           (sent : bool) (s : State) : result State :=
  check onlyTreasuryManager sender s;
  check require (negb (is_zero to))
        "DAOGovernance: cannot withdraw to zero address";
  check require (0 <? amount)
        "DAOGovernance: withdrawal amount must be greater than 0";
  check require (amount <=? treasuryBalance s)
        "DAOGovernance: insufficient treasury balance";
  do b <- sub (treasuryBalance s) amount;
  check ensure sent "TransferFailed";
  Ok (set_treasuryBalance b s).

(** [getProposal(proposalId)] (the two mappings are not returned by the
    source; no caller below reads them). *)
Definition getProposal (proposalId : Z) (s : State) : result Proposal :=
  check proposalExists proposalId s;
  Ok (proposals s proposalId).

Definition getVote (proposalId : Z) (voter : address) (s : State)
  : result Z :=
  check proposalExists proposalId s;
  Ok (votes (proposals s proposalId) voter).

Definition updateVotingConfig (sender : address) (c : VotingConfig)
           (s : State) : result State :=
  check onlyOwner sender s;
  Ok (set_votingConfig c s).

Definition pause (sender : address) (s : State) : result State :=
  check onlyOwner sender s;
  check whenNotPaused s;
  Ok (set_paused true s).

Definition unpause (sender : address) (s : State) : result State :=
  check onlyOwner sender s;
  check whenPaused s;
  Ok (set_paused false s).

(** [receive()], with [msg.value = value]. *)
Definition receive (value : Z) (s : State) : result State :=
  do b <- add (treasuryBalance s) value;
  Ok (set_treasuryBalance b s).

(** Inherited from Ownable. *)
Definition transferOwnership (sender newOwner : address) (s : State)
  : result State :=
  check onlyOwner sender s;
  check ensure (negb (is_zero newOwner)) "OwnableInvalidOwner";
  Ok (set_owner newOwner s).

Definition renounceOwnership (sender : address) (s : State) : result State :=
  check onlyOwner sender s;
  Ok (set_owner zero_address s).

(** *** Transactions and traces *)

Inductive Call : Type :=
| Propose (title_ ipfsHash_ : string)
| Vote (proposalId nvotes : Z)
| DelegateVotes (delegatee : address)
| RevokeDelegation
| ExecuteProposal (proposalId : Z)
| CancelProposal (proposalId : Z)
| AddTreasuryManager (manager : address)
| RemoveTreasuryManager (manager : address)
| DepositToTreasury (value : Z)
| WithdrawFromTreasury (to : address) (amount : Z) (sent : bool)
| UpdateVotingConfig (c : VotingConfig)
| Pause
| Unpause
| Receive (value : Z)
| TransferOwnership (newOwner : address)
| RenounceOwnership.

Definition call (sender : address) (now : Z) (c : Call) (s : State)
  : result State :=
  match c with
  | Propose t h => do r <- propose sender now t h s; Ok (fst r)
  | Vote p n => vote sender now p n s
  | DelegateVotes d => delegateVotes sender d s
  | RevokeDelegation => revokeDelegation sender s
  | ExecuteProposal p => executeProposal sender now p s
  | CancelProposal p => cancelProposal sender p s
  | AddTreasuryManager m => addTreasuryManager sender m s
  | RemoveTreasuryManager m => removeTreasuryManager sender m s
  | DepositToTreasury v => depositToTreasury v s
  | WithdrawFromTreasury to a sent => withdrawFromTreasury sender to a sent s
  | UpdateVotingConfig c => updateVotingConfig sender c s
  | Pause => pause sender s
  | Unpause => unpause sender s
  | Receive v => receive v s
  | TransferOwnership o => transferOwnership sender o s
  | RenounceOwnership => renounceOwnership sender s
  end.

(** A reverted transaction leaves the storage as it was. *)
Definition commit (r : result State) (s : State) : State :=
  match r with
  | Ok s' => s'
  | Err _ => s
  end.

(** One step of the world around the contract: a transaction sent to it, or
    any activity on the token contract that does not go through governance
    (transfers, mints, token-level delegation). *)
Inductive Step : Type :=
| Tx (sender : address) (now : Z) (c : Call)
| LedgerActivity (token : GovernanceToken.State).

Definition step (s : State) (st : Step) : State :=
  match st with
  | Tx sender now c => commit (call sender now c s) s
  | LedgerActivity token => set_governanceToken token s
  end.

Definition run (trace : list Step) (s : State) : State :=
  fold_left step trace s.

End DAOGovernance.

(** ** contracts/DAOTreasury.sol *)

Module DAOTreasury.

Record TokenBalance : Type := mkTokenBalance {
  token : address;            (* address(0) for ETH *)
  balance : Z;
  allocated : Z;
  available : Z
}.

Record ProposalExecution : Type := mkProposalExecution {
  proposalId : Z;
  recipient : address;
  execToken : address;        (* field [token] of the struct *)
  amount : Z;
  data : list Byte.byte;
  executed : bool;
  executionTime : Z
}.

Record BudgetAllocation : Type := mkBudgetAllocation {
  category : string;
  budgetToken : address;      (* field [token] of the struct *)
  totalBudget : Z;
  spentAmount : Z;
  remainingBudget : Z;
  active : bool
}.

Record State : Type := mkState {
  daoGovernance : address;
  owner : address;
  tokenBalances : address -> TokenBalance;
  supportedTokens : list address;
  proposalExecutions : Z -> ProposalExecution;
  budgetAllocations : string -> BudgetAllocation;
  budgetCategories : list string;
  treasuryManagers : address -> bool;
  emergencyManagers : address -> bool;
  totalProposalExecutions : Z;
  emergencyMode : bool
}.

(** What a transaction sees of the world: the caller, the block time, the
    governance contract as it stands, and the ether the treasury holds
    ([address(this).balance]). *)
Record Env : Type := mkEnv {
  sender : address;
  now : Z;
  governance : DAOGovernance.State;
  etherHeld : Z
}.

(** The behaviour of the callee of an outgoing transfer: the [success] flag
    of a low-level call, whether an ERC20 [safeTransfer] returned, and the
    balances the token reports before and after it. *)
Record Transfer : Type := mkTransfer {
  callSuccess : bool;
  safeTransferOk : bool;
  balanceBefore : Z;
  balanceAfter : Z
}.

Definition noBalance : TokenBalance := mkTokenBalance zero_address 0 0 0.
Definition noExecution : ProposalExecution :=
  mkProposalExecution 0 zero_address zero_address 0 [] false 0.
Definition noBudget : BudgetAllocation :=
  mkBudgetAllocation EmptyString zero_address 0 0 0 false.

(** The state the constructor leaves behind. *)
Definition genesis (_daoGovernance _initialOwner : address) : State :=
  mkState _daoGovernance _initialOwner
          (<[zero_address := mkTokenBalance zero_address 0 0 0]>
             (fun _ => noBalance))
          [zero_address] (fun _ => noExecution) (fun _ => noBudget) []
          (fun _ => false) (fun _ => false) 0 false.

Definition constructor (_daoGovernance _initialOwner : address)
  : result State :=
  check ensure (negb (is_zero _initialOwner)) "OwnableInvalidOwner";
  check require (negb (is_zero _daoGovernance))
        "DAOTreasury: DAO governance cannot be zero address";
  Ok (genesis _daoGovernance _initialOwner).

(** *** Field updates *)

Definition set_owner (o : address) (s : State) :=
  mkState (daoGovernance s) o (tokenBalances s) (supportedTokens s)
          (proposalExecutions s) (budgetAllocations s) (budgetCategories s)
          (treasuryManagers s) (emergencyManagers s)
          (totalProposalExecutions s) (emergencyMode s).

Definition set_tokenBalance (t : address) (b : TokenBalance) (s : State) :=
  mkState (daoGovernance s) (owner s) (<[t := b]> (tokenBalances s))
          (supportedTokens s) (proposalExecutions s) (budgetAllocations s)
          (budgetCategories s) (treasuryManagers s) (emergencyManagers s)
          (totalProposalExecutions s) (emergencyMode s).

Definition push_supportedToken (t : address) (s : State) :=
  mkState (daoGovernance s) (owner s) (tokenBalances s)
          (supportedTokens s ++ [t]) (proposalExecutions s)
          (budgetAllocations s) (budgetCategories s) (treasuryManagers s)
          (emergencyManagers s) (totalProposalExecutions s)
          (emergencyMode s).

Definition set_execution (i : Z) (x : ProposalExecution) (s : State) :=
  mkState (daoGovernance s) (owner s) (tokenBalances s) (supportedTokens s)
          (<[i := x]> (proposalExecutions s)) (budgetAllocations s)
          (budgetCategories s) (treasuryManagers s) (emergencyManagers s)
          (totalProposalExecutions s) (emergencyMode s).

Definition set_totalProposalExecutions (n : Z) (s : State) :=
  mkState (daoGovernance s) (owner s) (tokenBalances s) (supportedTokens s)
          (proposalExecutions s) (budgetAllocations s) (budgetCategories s)
          (treasuryManagers s) (emergencyManagers s) n (emergencyMode s).

Definition set_budget (c : string) (b : BudgetAllocation) (s : State) :=
  mkState (daoGovernance s) (owner s) (tokenBalances s) (supportedTokens s)
          (proposalExecutions s) (<[c := b]> (budgetAllocations s))
          (budgetCategories s) (treasuryManagers s) (emergencyManagers s)
          (totalProposalExecutions s) (emergencyMode s).

Definition push_budgetCategory (c : string) (s : State) :=
  mkState (daoGovernance s) (owner s) (tokenBalances s) (supportedTokens s)
          (proposalExecutions s) (budgetAllocations s)
          (budgetCategories s ++ [c]) (treasuryManagers s)
          (emergencyManagers s) (totalProposalExecutions s)
          (emergencyMode s).

Definition set_treasuryManager (a : address) (b : bool) (s : State) :=
  mkState (daoGovernance s) (owner s) (tokenBalances s) (supportedTokens s)
          (proposalExecutions s) (budgetAllocations s) (budgetCategories s)
          (<[a := b]> (treasuryManagers s)) (emergencyManagers s)
          (totalProposalExecutions s) (emergencyMode s).

Definition set_emergencyManager (a : address) (b : bool) (s : State) :=
  mkState (daoGovernance s) (owner s) (tokenBalances s) (supportedTokens s)
          (proposalExecutions s) (budgetAllocations s) (budgetCategories s)
          (treasuryManagers s) (<[a := b]> (emergencyManagers s))
          (totalProposalExecutions s) (emergencyMode s).

Definition set_emergencyMode (b : bool) (s : State) :=
  mkState (daoGovernance s) (owner s) (tokenBalances s) (supportedTokens s)
          (proposalExecutions s) (budgetAllocations s) (budgetCategories s)
          (treasuryManagers s) (emergencyManagers s)
          (totalProposalExecutions s) b.

(** *** Modifiers *)

Definition onlyOwner (e : Env) (s : State) : result unit :=
  ensure (N.eqb (sender e) (owner s)) "OwnableUnauthorizedAccount".

Definition onlyDAO (e : Env) (s : State) : result unit :=
  require (N.eqb (sender e) (daoGovernance s))
          "DAOTreasury: only DAO can call".

Definition onlyTreasuryManager (e : Env) (s : State) : result unit :=
  require (treasuryManagers s (sender e) || N.eqb (sender e) (owner s))
          "DAOTreasury: not treasury manager".

Definition onlyEmergencyManager (e : Env) (s : State) : result unit :=
  require (emergencyManagers s (sender e) || N.eqb (sender e) (owner s))
          "DAOTreasury: not emergency manager".

Definition notInEmergency (s : State) : result unit :=
  require (negb (emergencyMode s)) "DAOTreasury: emergency mode active".

Definition supported (t : address) (s : State) : bool :=
  negb (is_zero (token (tokenBalances s t))) || is_zero t.

(** *** External functions *)

Definition addSupportedToken (e : Env) (t : address) (s : State)
  : result State :=
  check onlyOwner e s;
  check require (negb (is_zero t))
        "DAOTreasury: token cannot be zero address";
  check require (is_zero (token (tokenBalances s t)))
        "DAOTreasury: token already supported";
  Ok (push_supportedToken t (set_tokenBalance t (mkTokenBalance t 0 0 0) s)).

(** The body shared by [depositETH], [depositToken] and [receive]:
    [balance += value; available += value]. *)
Definition credit (t : address) (value : Z) (s : State) : result State :=
  let tb := tokenBalances s t in
  do b <- add (balance tb) value;
  do a <- add (available tb) value;
  Ok (set_tokenBalance t (mkTokenBalance (token tb) b (allocated tb) a) s).

(** [depositETH()], payable with [msg.value = value]. *)
Definition depositETH (value : Z) (s : State) : result State :=
  check notInEmergency s;
  check require (0 <? value)
        "DAOTreasury: deposit amount must be greater than 0";
  credit zero_address value s.

(** [depositToken(token, amount)]; [pulled] tells whether
    [safeTransferFrom] returned. *)
Definition depositToken (t : address) (value : Z) (pulled : bool)
           (s : State) : result State :=
  check notInEmergency s;
  check require (negb (is_zero t))
        "DAOTreasury: token cannot be zero address";
  check require (0 <? value)
        "DAOTreasury: deposit amount must be greater than 0";
  check require (negb (is_zero (token (tokenBalances s t))))
        "DAOTreasury: token not supported";
  check ensure pulled "SafeERC20FailedOperation";
  credit t value s.

(** [receive()], with [msg.value = value]. *)
Definition receive (value : Z) (s : State) : result State :=
  check require (0 <? value)
        "DAOTreasury: deposit amount must be greater than 0";
  check require (negb (emergencyMode s))
        "DAOTreasury: emergency mode active";
  credit zero_address value s.

(** The allocation shared by [scheduleProposalExecution] and
    [createBudgetAllocation]: [allocated += amount; available -= amount]. *)
Definition allocate (t : address) (value : Z) (s : State) : result State :=
  let tb := tokenBalances s t in
  check require (value <=? available tb)
        "DAOTreasury: insufficient available funds";
  do al <- add (allocated tb) value;
  do av <- sub (available tb) value;
  Ok (set_tokenBalance t (mkTokenBalance (token tb) (balance tb) al av) s).

(** [scheduleProposalExecution(proposalId, recipient, token, amount, data)] *)
Definition scheduleProposalExecution (e : Env) (pid : Z) (to t : address)
           (value : Z) (payload : list Byte.byte) (s : State)
  : result State :=
  check onlyDAO e s;
  check notInEmergency s;
  check require (negb (is_zero to))
        "DAOTreasury: recipient cannot be zero address";
  check require (0 <? value) "DAOTreasury: amount must be greater than 0";
  check require (supported t s) "DAOTreasury: token not supported";
  do s1 <- allocate t value s;
  do n <- add (totalProposalExecutions s1) 1;
  Ok (set_execution n (mkProposalExecution pid to t value payload false 0)
        (set_totalProposalExecutions n s1)).

(** [executeProposal(executionId)] returns the [success] flag of its
    [ProposalExecuted] event. *)
Definition executeProposal (e : Env) (executionId : Z) (x : Transfer)
           (s : State) : result (State * bool) :=
  check onlyTreasuryManager e s;
  check notInEmergency s;
  check require ((0 <? executionId)
                 && (executionId <=? totalProposalExecutions s))
        "DAOTreasury: invalid execution ID";
  let execution := proposalExecutions s executionId in
  check require (negb (executed execution)) "DAOTreasury: already executed";
  do proposal <- DAOGovernance.getProposal (proposalId execution)
                                           (governance e);
  check require (DAOGovernance.executed proposal)
        "DAOTreasury: proposal not executed in governance";
  let done_ :=
    mkProposalExecution (proposalId execution) (recipient execution)
                        (execToken execution) (amount execution)
                        (data execution) true (now e) in
  let tb := tokenBalances s (execToken execution) in
  do b1 <- sub (balance tb) (amount execution);
  do a1 <- sub (allocated tb) (amount execution);
  do success <-
    (if is_zero (execToken execution) then Ok (callSuccess x)
     else
       check ensure (safeTransferOk x) "SafeERC20FailedOperation";
       do moved <- sub (balanceBefore x) (balanceAfter x);
       Ok (moved =? amount execution));
  if success then
    Ok (set_tokenBalance (execToken execution)
          (mkTokenBalance (token tb) b1 a1 (available tb))
          (set_execution executionId done_ s),
        true)
  else
    do b2 <- add b1 (amount execution);
    do a2 <- add a1 (amount execution);
    let undone :=
      mkProposalExecution (proposalId done_) (recipient done_)
                          (execToken done_) (amount done_) (data done_)
                          false 0 in
    Ok (set_tokenBalance (execToken execution)
          (mkTokenBalance (token tb) b2 a2 (available tb))
          (set_execution executionId undone s),
        false).

(** [createBudgetAllocation(category, token, amount)] *)
Definition createBudgetAllocation (e : Env) (c : string) (t : address)
           (value : Z) (s : State) : result State :=
  check onlyTreasuryManager e s;
  check notInEmergency s;
  check require (0 <? Z.of_nat (String.length c))
        "DAOTreasury: category cannot be empty";
  check require (0 <? value)
        "DAOTreasury: budget amount must be greater than 0";
  check require (supported t s) "DAOTreasury: token not supported";
  check require (negb (active (budgetAllocations s c)))
        "DAOTreasury: budget category already exists";
  do s1 <- allocate t value s;
  Ok (push_budgetCategory c
        (set_budget c (mkBudgetAllocation c t value 0 value true) s1)).

(** [spendFromBudget(category, recipient, amount)]; a failed transfer
    reverts the transaction. *)
Definition spendFromBudget (e : Env) (c : string) (to : address) (value : Z)
           (x : Transfer) (s : State) : result State :=
  check onlyTreasuryManager e s;
  check notInEmergency s;
  check require (negb (is_zero to))
        "DAOTreasury: recipient cannot be zero address";
  check require (0 <? value)
        "DAOTreasury: spend amount must be greater than 0";
  let budget := budgetAllocations s c in
  check require (active budget) "DAOTreasury: budget category not active";
  check require (value <=? remainingBudget budget)
        "DAOTreasury: insufficient budget remaining";
  do spent <- add (spentAmount budget) value;
  do remaining <- sub (remainingBudget budget) value;
  let tb := tokenBalances s (budgetToken budget) in
  do b <- sub (balance tb) value;
  do a <- sub (allocated tb) value;
  check (if is_zero (budgetToken budget)
         then require (callSuccess x) "DAOTreasury: ETH transfer failed"
         else ensure (safeTransferOk x) "SafeERC20FailedOperation");
  Ok (set_tokenBalance (budgetToken budget)
        (mkTokenBalance (token tb) b a (available tb))
        (set_budget c
           (mkBudgetAllocation (category budget) (budgetToken budget)
                               (totalBudget budget) spent remaining
                               (active budget)) s)).

Definition addTreasuryManager (e : Env) (m : address) (s : State)
  : result State :=
  check onlyOwner e s;
  check require (negb (is_zero m))
        "DAOTreasury: manager cannot be zero address";
  Ok (set_treasuryManager m true s).

Definition removeTreasuryManager (e : Env) (m : address) (s : State)
  : result State :=
  check onlyOwner e s;
  Ok (set_treasuryManager m false s).

Definition addEmergencyManager (e : Env) (m : address) (s : State)
  : result State :=
  check onlyOwner e s;
  check require (negb (is_zero m))
        "DAOTreasury: manager cannot be zero address";
  Ok (set_emergencyManager m true s).

Definition removeEmergencyManager (e : Env) (m : address) (s : State)
  : result State :=
  check onlyOwner e s;
  Ok (set_emergencyManager m false s).

Definition toggleEmergencyMode (e : Env) (s : State) : result State :=
  check onlyEmergencyManager e s;
  Ok (set_emergencyMode (negb (emergencyMode s)) s).

(** [emergencyWithdraw(token, to, amount)]: funds leave the contract, the
    [tokenBalances] records are not written. *)
Definition emergencyWithdraw (e : Env) (t to : address) (value : Z)
           (x : Transfer) (s : State) : result State :=
  check onlyEmergencyManager e s;
  check require (emergencyMode s) "DAOTreasury: not in emergency mode";
  check require (negb (is_zero to))
        "DAOTreasury: recipient cannot be zero address";
  check require (0 <? value) "DAOTreasury: amount must be greater than 0";
  check (if is_zero t then
           check require (value <=? etherHeld e)
                 "DAOTreasury: insufficient ETH balance";
           ensure (callSuccess x) "TransferFailed"
         else ensure (safeTransferOk x) "SafeERC20FailedOperation");
  Ok s.

(** Inherited from Ownable. *)
Definition transferOwnership (e : Env) (newOwner : address) (s : State)
  : result State :=
  check onlyOwner e s;
  check ensure (negb (is_zero newOwner)) "OwnableInvalidOwner";
  Ok (set_owner newOwner s).

Definition renounceOwnership (e : Env) (s : State) : result State :=
  check onlyOwner e s;
  Ok (set_owner zero_address s).

Definition getTokenBalance (t : address) (s : State) : TokenBalance :=
  tokenBalances s t.

(** *** Transactions and traces *)

Inductive Call : Type :=
| AddSupportedToken (t : address)
| DepositETH (value : Z)
| DepositToken (t : address) (value : Z) (pulled : bool)
| Receive (value : Z)
| ScheduleProposalExecution (pid : Z) (to t : address) (value : Z)
                            (payload : list Byte.byte)
| ExecuteProposal (executionId : Z) (x : Transfer)
| CreateBudgetAllocation (c : string) (t : address) (value : Z)
| SpendFromBudget (c : string) (to : address) (value : Z) (x : Transfer)
| AddTreasuryManager (m : address)
| RemoveTreasuryManager (m : address)
| AddEmergencyManager (m : address)
| RemoveEmergencyManager (m : address)
| ToggleEmergencyMode
| EmergencyWithdraw (t to : address) (value : Z) (x : Transfer)
| TransferOwnership (newOwner : address)
| RenounceOwnership.

Definition call (e : Env) (c : Call) (s : State) : result State :=
  match c with
  | AddSupportedToken t => addSupportedToken e t s
  | DepositETH v => depositETH v s
  | DepositToken t v pulled => depositToken t v pulled s
  | Receive v => receive v s
  | ScheduleProposalExecution pid to t v payload =>
      scheduleProposalExecution e pid to t v payload s
  | ExecuteProposal i x => do r <- executeProposal e i x s; Ok (fst r)
  | CreateBudgetAllocation c t v => createBudgetAllocation e c t v s
  | SpendFromBudget c to v x => spendFromBudget e c to v x s
  | AddTreasuryManager m => addTreasuryManager e m s
  | RemoveTreasuryManager m => removeTreasuryManager e m s
  | AddEmergencyManager m => addEmergencyManager e m s
  | RemoveEmergencyManager m => removeEmergencyManager e m s
  | ToggleEmergencyMode => toggleEmergencyMode e s
  | EmergencyWithdraw t to v x => emergencyWithdraw e t to v x s
  | TransferOwnership o => transferOwnership e o s
  | RenounceOwnership => renounceOwnership e s
  end.

Definition commit (r : result State) (s : State) : State :=
  match r with
  | Ok s' => s'
  | Err _ => s
  end.

Definition step (s : State) (tx : Env * Call) : State :=
  commit (call (fst tx) (snd tx) s) s.

Definition run (trace : list (Env * Call)) (s : State) : State :=
  fold_left step trace s.

(** *** Observations on a treasury *)

(** The accounting identity of one asset. *)
Definition consistent (tb : TokenBalance) : Prop :=
  balance tb = allocated tb + available tb.




(** Only scheduled executions are marked executed. *)
Definition recorded (s : State) : Prop :=
  forall i, executed (proposalExecutions s i) = true ->
            0 < i <= totalProposalExecutions s.

End DAOTreasury.

(** ** The vocabulary of the specification

    The specification names error classes and quantities that the contracts
    do not name.  They are defined here, next to the code they are compared
    with. *)

Module Spec.

Import DAOGovernance.

(** The error taxonomy of the specification. *)
Inductive ErrorKind : Type :=
| ValidationError
| AuthorizationError
| StateError
| InsufficientPower
| NotFound
| QuorumNotMet
| NotApproved.

(** The revert reasons of the functions the properties speak about, each
    under the class whose description in the specification covers it. *)
Definition taxonomy : list (string * ErrorKind) :=
  [ ("VotingMechanisms: votes must be greater than 0", ValidationError);
    ("VotingMechanisms: votes too large", ValidationError);
    ("DAOGovernance: votes must be greater than 0", ValidationError);
    ("DAOGovernance: exceeds max votes per wallet", ValidationError);
    ("DAOGovernance: proposal does not exist", NotFound);
    ("DAOGovernance: voting not started", StateError);
    ("DAOGovernance: voting ended", StateError);
    ("DAOGovernance: proposal not active", StateError);
    ("DAOGovernance: already voted", StateError);
    ("DAOGovernance: insufficient voting power", InsufficientPower);
    ("DAOGovernance: voting still active", StateError);
    ("DAOGovernance: proposal already executed", StateError);
    ("DAOGovernance: proposal cancelled", StateError);
    ("DAOGovernance: quorum not met", QuorumNotMet);
    ("DAOGovernance: only proposer or owner can cancel", AuthorizationError);
    ("DAOGovernance: cannot cancel executed proposal", StateError);
    ("DAOGovernance: proposal already cancelled", StateError);
    ("DAOTreasury: not treasury manager", AuthorizationError);
    ("DAOTreasury: invalid execution ID", NotFound);
    ("DAOTreasury: already executed", StateError);
    ("DAOTreasury: proposal not executed in governance", NotApproved) ].

Fixpoint classify (reason : string) (table : list (string * ErrorKind))
  : option ErrorKind :=
  match table with
  | [] => None
  | (r, k) :: rest => if String.eqb reason r then Some k
                      else classify reason rest
  end.

Definition errorKind (e : error) : option ErrorKind :=
  match e with
  | Revert reason => classify reason taxonomy
  | Custom _ | Panic _ => None
  end.

Definition failsWith {A : Type} (r : result A) (k : ErrorKind) : Prop :=
  exists e, r = Err e /\ errorKind e = Some k.

(** Sums over a finite collection of accounts. *)
Fixpoint sumOver (accounts : list address) (f : address -> Z) : Z :=
  match accounts with
  | [] => 0
  | a :: rest => f a + sumOver rest f
  end.

Definition ledgerPower (s : State) (a : address) : Z :=
  GovernanceToken.getVotingPower (governanceToken s) a.

(** [d] has an outgoing delegation edge. *)
Definition delegating (s : State) (d : address) : bool :=
  negb (is_zero (delegatedTo s d)).

(** What [d] contributes to [a] through its delegation edge. *)
Definition incoming (s : State) (a d : address) : Z :=
  if delegating s d && N.eqb (delegatedTo s d) a then ledgerPower s d else 0.

(** "Sum of power delegated to it". *)
Definition delegatedPowerTo (accounts : list address) (s : State)
           (a : address) : Z :=
  sumOver accounts (incoming s a).

(** [effectivePower] as the specification words it: own ledger power, 0 if
    the account currently delegates away, plus the incoming delegated
    power. *)
Definition effectivePower (accounts : list address) (s : State)
           (a : address) : Z :=
  (if delegating s a then 0 else ledgerPower s a)
  + delegatedPowerTo accounts s a.

(** The power the contract grants a voter, as a number: own ledger power
    plus the tally [delegatedVotes]. *)
Definition availablePower (s : State) (a : address) : Z :=
  ledgerPower s a + delegatedVotes s a.

(** The power of the accounts that currently delegate away. *)
Definition delegatedAway (s : State) (d : address) : Z :=
  if delegating s d then ledgerPower s d else 0.

(** A step that leaves the ledger alone and stays among [accounts]: any
    transaction but a vote, sent by one of [accounts] and, for a delegation,
    naming one of them. *)
Definition member (a : address) (accounts : list address) : bool :=
  existsb (N.eqb a) accounts.

Definition quiet (accounts : list address) (st : Step) : bool :=
  match st with
  | Tx _ _ (Vote _ _) => false
  | Tx sender _ (DelegateVotes d) =>
      member sender accounts && member d accounts
  | Tx sender _ _ => member sender accounts
  | LedgerActivity _ => false
  end.

(** The tally of every account is the power of those delegating to it. *)
Definition tallied (accounts : list address) (s : State) : Prop :=
  forall a, delegatedVotes s a = delegatedPowerTo accounts s a.

(** Every delegatee is one of [accounts]. *)
Definition delegateesKnown (accounts : list address) (s : State) : Prop :=
  forall d, delegating s d = true -> In (delegatedTo s d) accounts.

(** The tallies add up to the power of the accounts that delegate away. *)
Definition tallyBalanced (accounts : list address) (s : State) : Prop :=
  sumOver accounts (delegatedVotes s) = sumOver accounts (delegatedAway s).

Definition accounted (accounts : list address) (s : State) : Prop :=
  tallied accounts s /\ delegateesKnown accounts s
  /\ tallyBalanced accounts s.

(** The specification on the power available in a vote, as stated: it is
    [effectivePower]. *)
Definition votesWithEffectivePower (accounts : list address) (s : State)
           (a : address) : Prop :=
  availableVotes s a = Ok (effectivePower accounts s a).




(** The specification on a second vote, as stated: every further vote call of
    an account that has voted fails with a StateError. *)
Definition revoteIsStateError (s : State) (sender : address) (pid : Z)
  : Prop :=
  forall now v, failsWith (vote sender now pid v s) StateError.

(** Governance has recorded the proposal an execution refers to as
    executed. *)
Definition approved (e : DAOTreasury.Env) (x : DAOTreasury.ProposalExecution)
  : bool :=
  match getProposal (DAOTreasury.proposalId x) (DAOTreasury.governance e) with
  | Ok p => executed p
  | Err _ => false
  end.


End Spec.

(** ** A concrete world: Alice, Bob and Carol

    The scenario of the repository's integration test: Alice holds 10,000
    tokens, Bob 5,000 and Carol 3,000, each self-delegated on the token, and
    Bob has approved governance for the cost of four votes.  Dave, who is not
    in the test, holds 1000 base units (10^-15 of a token). *)

Module Scenario.

Import DAOGovernance.

Definition alice : address := 1%N.
Definition bob : address := 2%N.
Definition carol : address := 3%N.
Definition dave : address := 4%N.
Definition admin : address := 9%N.
Definition gov : address := 100%N.
Definition tokenAddress : address := 101%N.

Definition holdings (a : address) : Z :=
  if N.eqb a alice then 10000 * ether
  else if N.eqb a bob then 5000 * ether
  else if N.eqb a carol then 3000 * ether
  else if N.eqb a dave then 1000
  else 0.

Definition token0 : GovernanceToken.State :=
  GovernanceToken.mkState
    holdings
    (fun o spender =>
       if N.eqb o bob && N.eqb spender gov then 16 * ether else 0)
    (fun a => a)
    holdings
    false.

Definition s0 : State := genesis token0 gov admin.

Definition t0 : Z := 1000000.
(* after the voting delay *)
Definition t1 : Z := t0 + 1 * days + 1.
(* after the voting period *)
Definition t2 : Z := t1 + 7 * days + 1.

(* Alice proposes. *)
Definition s1 : State :=
  step s0 (Tx alice t0 (Propose "Fund Open Source Library" "QmTest")).
(* Bob casts four votes. *)
Definition s2 : State := step s1 (Tx bob t1 (Vote 1 4)).
(* Carol delegates to Bob. *)
Definition s3 : State := step s2 (Tx carol t1 (DelegateVotes bob)).

(* The owner lowers the quorum to four votes and finalises the proposal. *)
Definition lowQuorum : VotingConfig :=
  mkVotingConfig (1000 * ether) (1 * days) (7 * days) 4 10000 (1 * days).
Definition s4 : State := step s3 (Tx admin t2 (UpdateVotingConfig lowQuorum)).
Definition s5 : State := step s4 (Tx admin t2 (ExecuteProposal 1)).

(* The treasury: ten ether come in; governance schedules one ether for Alice
   under proposal 1 and one under proposal 7, which does not exist. *)
Definition asAdmin : DAOTreasury.Env := DAOTreasury.mkEnv admin t2 s5 (10 * ether).
Definition asGovernance : DAOTreasury.Env :=
  DAOTreasury.mkEnv gov t2 s5 (10 * ether).

Definition vault0 : DAOTreasury.State := DAOTreasury.genesis gov admin.
Definition vault : DAOTreasury.State :=
  DAOTreasury.run
    [ (asAdmin, DAOTreasury.Receive (10 * ether));
      (asGovernance,
       DAOTreasury.ScheduleProposalExecution 1 alice zero_address
                                             (1 * ether) []);
      (asGovernance,
       DAOTreasury.ScheduleProposalExecution 7 alice zero_address
                                             (1 * ether) []) ]
    vault0.

Definition delivered : DAOTreasury.Transfer :=
  DAOTreasury.mkTransfer true true 0 0.

(* Carol delegates to Bob right after deployment. *)
Definition delegated : State := step s0 (Tx carol t0 (DelegateVotes bob)).

Definition everyone : list address := [alice; bob; carol; dave].

End Scenario.

(** ** How one step changes one proposal

    The ways in which a single step of the world can change the proposal
    stored under a given id: not at all, by [propose] filling the slot, by a
    vote, by finalisation or by cancellation. *)

Module Evolution.

Import DAOGovernance.

Inductive evolves (p : Proposal) : Proposal -> Prop :=
| ev_same : evolves p p
| ev_proposed (i : Z) (a : address) (t h : string) (start stop : Z) :
    evolves p (mkProposal i a t h start stop (totalVotes p) (totalVoters p)
                          (executed p) (cancelled p) (votes p) (hasVoted p))
| ev_voted (a : address) (n tv tn : Z) :
    hasVoted p a = false ->
    evolves p (mkProposal (id p) (proposer p) (title p) (ipfsHash p)
                          (startTime p) (endTime p) tv tn (executed p)
                          (cancelled p) (<[a := n]> (votes p))
                          (<[a := true]> (hasVoted p)))
| ev_executed :
    executed p = false -> cancelled p = false -> evolves p (set_executed p)
| ev_cancelled :
    executed p = false -> cancelled p = false -> evolves p (set_cancelled p).

End Evolution.

(** ** Quantities for the vote analytics

    Plain sums and a pass of the bubble sort as a function on lists, to state
    what the loops of [VotingMechanisms] compute. *)

Module Analytics.

Fixpoint total (l : list Z) : Z :=
  match l with
  | [] => 0
  | x :: rest => x + total rest
  end.

(** By how much [x] exceeds the entries of [l], entry by entry. *)
Definition excess (x : Z) (l : list Z) : Z :=
  total (map (fun y => Z.max (x - y) 0) l).

(** The sum of all positive pairwise differences. *)
Definition spread (l : list Z) : Z :=
  total (map (fun x => excess x l) l).

(** [n] compare-and-swap steps from the head of a list: the larger element
    travels to the right. *)
Fixpoint bubble (n : nat) (l : list Z) : list Z :=
  match n, l with
  | S n', x :: y :: rest => Z.min x y :: bubble n' (Z.max x y :: rest)
  | _, _ => l
  end.

(** How many entries are at most, respectively at least, [m]. *)
Definition countLe (m : Z) (l : list Z) : nat :=
  List.length (List.filter (fun x => x <=? m) l).
Definition countGe (m : Z) (l : list Z) : nat :=
  List.length (List.filter (fun x => m <=? x) l).

(** Vote data as the unsigned integers of the source. *)
Definition nonnegative (voteData : list VotingMechanisms.QuadraticVoteData)
  : Prop :=
  Forall (fun d => 0 <= VotingMechanisms.votes d
                   /\ 0 <= VotingMechanisms.cost d) voteData.

End Analytics.

(** ** What the storage keeps

    Properties of the storage of the governance contract that hold after
    every sequence of transactions, and the classes of traces they are
    stated for. *)

Module Invariants.

Import DAOGovernance.

(** Proposal ids are handed out in order: the slots up to [proposalCount]
    carry their own id, the others have never been written. *)
Definition ordered (s : State) : Prop :=
  0 <= proposalCount s
  /\ (forall i, 0 < i <= proposalCount s -> id (proposals s i) = i)
  /\ (forall i, ~ 0 < i <= proposalCount s -> proposals s i = emptyProposal).

(** The tallies of a proposal against the votes recorded for [voters]. *)
Definition counted (voters : list address) (p : Proposal) : Prop :=
  List.NoDup voters
  /\ (forall a, hasVoted p a = true <-> In a voters)
  /\ (forall a, ~ In a voters -> votes p a = 0)
  /\ (forall a, In a voters -> 0 < votes p a)
  /\ totalVotes p = Spec.sumOver voters (votes p)
  /\ totalVoters p = Z.of_nat (List.length voters).

(** A trace in which nobody calls [updateVotingConfig]. *)
Definition changesConfig (st : Step) : bool :=
  match st with
  | Tx _ _ (UpdateVotingConfig _) => true
  | _ => false
  end.

Definition keepsConfig (trace : list Step) : bool :=
  forallb (fun st => negb (changesConfig st)) trace.

(** The calls that move ether into the contract. *)
Definition isDeposit (c : Call) : bool :=
  match c with
  | DepositToTreasury _ | Receive _ => true
  | _ => false
  end.

End Invariants.

(** ** What the records of the treasury keep

    What the treasury has set aside, counted from the scheduled executions
    and the budgets, to compare with the [allocated] field of an asset. *)

Module Books.

Import DAOTreasury.

(** The ids handed out so far: [1 .. totalProposalExecutions]. *)
Definition executionIds (s : State) : list Z :=
  map Z.of_nat (seq 1 (Z.to_nat (totalProposalExecutions s))).

(** What execution [i] still holds of asset [t]. *)
Definition pendingAmount (t : address) (s : State) (i : Z) : Z :=
  let x := proposalExecutions s i in
  if negb (executed x) && N.eqb (execToken x) t then amount x else 0.

Definition pending (t : address) (s : State) : Z :=
  Analytics.total (map (pendingAmount t s) (executionIds s)).

(** What budget [c] still holds of asset [t]. *)
Definition budgetAmount (t : address) (s : State) (c : string) : Z :=
  let b := budgetAllocations s c in
  if N.eqb (budgetToken b) t then remainingBudget b else 0.

Definition budgeted (t : address) (s : State) : Z :=
  Analytics.total (map (budgetAmount t s) (budgetCategories s)).

(** Everything allocated is held by a pending execution or a budget. *)
Definition backed (s : State) : Prop :=
  forall t, allocated (tokenBalances s t) = pending t s + budgeted t s.

Definition budgetBalanced (b : BudgetAllocation) : Prop :=
  totalBudget b = spentAmount b + remainingBudget b
  /\ 0 <= spentAmount b /\ 0 <= remainingBudget b
  /\ totalBudget b <= MAX_UINT256.

(** The categories listed are the active ones, once each. *)
Definition categoriesListed (s : State) : Prop :=
  List.NoDup (budgetCategories s)
  /\ (forall c, In c (budgetCategories s)
                <-> active (budgetAllocations s c) = true).

(** The tokens listed are the supported ones, once each. *)
Definition tokensListed (s : State) : Prop :=
  List.NoDup (supportedTokens s)
  /\ (forall t, In t (supportedTokens s) <-> supported t s = true).

Definition inRange (tb : TokenBalance) : Prop :=
  consistent tb /\ 0 <= available tb /\ 0 <= allocated tb
  /\ balance tb <= MAX_UINT256.

(** The books as a whole. *)
Definition sound (s : State) : Prop :=
  backed s
  /\ (forall t, supported t s = false -> allocated (tokenBalances s t) = 0)
  /\ 0 <= totalProposalExecutions s
  /\ (forall i, 0 <= amount (proposalExecutions s i))
  /\ categoriesListed s
  /\ (forall c, budgetBalanced (budgetAllocations s c))
  /\ (forall t, inRange (tokenBalances s t)).

(** The callers the contract gives no role to. *)
Definition outsider (e : Env) (s : State) : bool :=
  negb (N.eqb (sender e) (owner s))
  && negb (N.eqb (sender e) (daoGovernance s))
  && negb (treasuryManagers s (sender e))
  && negb (emergencyManagers s (sender e)).

End Books.

(** ** frontend/src/utils and hooks/useProposals.ts: the status shown

    The numbers of the frontend are doubles.  [Number(x)] of a non-negative
    integer is the nearest double, ties to even; comparisons of doubles that
    hold integers are comparisons of these integers.  The clock reading
    [Math.floor(Date.now() / 1000)] is the parameter [now]. *)

Module Frontend.






(** The integers a double holds exactly. *)
Definition MAX_SAFE_INTEGER : Z := 2 ^ 53 - 1.

Definition exact (x : Z) : Prop := 0 <= x <= MAX_SAFE_INTEGER.

End Frontend.

(** ** ipfs/metadata.js: attachment types and size limits

    [ext] stands for [path.extname(fileInfo.name).toLowerCase()], [size] for
    [fileData.length]; the objects are kept as lists of entries in the order
    in which [Object.entries] enumerates them. *)

Module Metadata.

Definition SUPPORTED_FILE_TYPES : list (string * list string) :=
  [ ("images", [".jpg"; ".jpeg"; ".png"; ".gif"; ".webp"; ".svg"]);
    ("documents", [".pdf"; ".doc"; ".docx"; ".txt"; ".md"; ".rtf"]);
    ("data", [".json"; ".csv"; ".xml"; ".yaml"; ".yml"]);
    ("archives", [".zip"; ".tar"; ".gz"; ".rar"]) ].

Definition MAX_FILE_SIZES : list (string * Z) :=
  [ ("image", 5 * 1024 * 1024);
    ("document", 10 * 1024 * 1024);
    ("data", 1 * 1024 * 1024);
    ("archive", 20 * 1024 * 1024) ].

(** [extensions.includes(ext)] *)
Definition includes (extensions : list string) (ext : string) : bool :=
  existsb (String.eqb ext) extensions.

(** [category.slice(0, -1)] *)
Fixpoint dropLast (s : string) : string :=
  match s with
  | EmptyString => EmptyString
  | String c rest =>
      match rest with
      | EmptyString => EmptyString
      | String _ _ => String c (dropLast rest)
      end
  end.

(** The loop of [getFileType] over the entries that are left. *)
Fixpoint getFileTypeIn (entries : list (string * list string))
         (ext : string) : string :=
  match entries with
  | [] => "unknown"
  | (category, extensions) :: rest =>
      if includes extensions ext then dropLast category
      else getFileTypeIn rest ext
  end.

(** [getFileType(filename)] *)
Definition getFileType (ext : string) : string :=
  getFileTypeIn SUPPORTED_FILE_TYPES ext.

(** [isFileTypeSupported(filename)] *)
Definition isFileTypeSupported (ext : string) : bool :=
  existsb (fun entry => includes (snd entry) ext) SUPPORTED_FILE_TYPES.

(** [object[key]], [None] for [undefined]. *)
Fixpoint property (object : list (string * Z)) (key : string) : option Z :=
  match object with
  | [] => None
  | (k, v) :: rest => if String.eqb key k then Some v else property rest key
  end.

(** A size that is defined and not zero is truthy. *)
Definition truthy (v : option Z) : bool :=
  match v with
  | Some size => negb (size =? 0)
  | None => false
  end.

(** [getMaxFileSize(fileType)]:
    [MAX_FILE_SIZES[fileType] || MAX_FILE_SIZES.data]. *)
Definition getMaxFileSize (fileType : string) : option Z :=
  if truthy (property MAX_FILE_SIZES fileType)
  then property MAX_FILE_SIZES fileType
  else property MAX_FILE_SIZES "data".

(** What [validateFile] throws. *)
Inductive FileError : Type :=
| InvalidFile                                   (* Invalid file data or name *)
| FileTooLarge (fileType : string) (maxSize : option Z)
| UnsupportedFileType.

(** [validateFile(fileData, fileInfo)]; [present] tells that neither
    [fileData] nor [fileInfo.name] is falsy.  The comparison
    [fileData.length > maxSize] with an undefined [maxSize] is false. *)
Definition validateFile (present : bool) (size : Z) (ext : string)
  : option FileError :=
  if negb present then Some InvalidFile
  else
    let fileType := getFileType ext in
    let maxSize := getMaxFileSize fileType in
    if match maxSize with Some m => m <? size | None => false end
    then Some (FileTooLarge fileType maxSize)
    else if negb (isFileTypeSupported ext) then Some UnsupportedFileType
    else None.

(** The row of a category. *)
Definition extensionsOf (category : string) : list string :=
  match List.find (fun entry => String.eqb category (fst entry))
                  SUPPORTED_FILE_TYPES with
  | Some entry => snd entry
  | None => []
  end.

Definition MB : Z := 1024 * 1024.

End Metadata.

Create HintDb dao discriminated.
Create HintDb treasury discriminated.

#[global] Hint Unfold
  DAOGovernance.propose DAOGovernance.vote DAOGovernance.delegateVotes
  DAOGovernance.revokeDelegation DAOGovernance.executeProposal
  DAOGovernance.cancelProposal DAOGovernance.addTreasuryManager
  DAOGovernance.removeTreasuryManager DAOGovernance.depositToTreasury
  DAOGovernance.withdrawFromTreasury DAOGovernance.updateVotingConfig
  DAOGovernance.pause DAOGovernance.unpause DAOGovernance.receive
  DAOGovernance.transferOwnership DAOGovernance.renounceOwnership : dao.

#[global] Hint Unfold
  DAOTreasury.addSupportedToken DAOTreasury.depositETH
  DAOTreasury.depositToken DAOTreasury.receive DAOTreasury.credit
  DAOTreasury.allocate DAOTreasury.scheduleProposalExecution
  DAOTreasury.executeProposal DAOTreasury.createBudgetAllocation
  DAOTreasury.spendFromBudget DAOTreasury.addTreasuryManager
  DAOTreasury.removeTreasuryManager DAOTreasury.addEmergencyManager
  DAOTreasury.removeEmergencyManager DAOTreasury.toggleEmergencyMode
  DAOTreasury.emergencyWithdraw DAOTreasury.transferOwnership
  DAOTreasury.renounceOwnership : treasury.

(** * Properties *)

(** ** The scenario runs as the integration test expects *)

Example quadratic_cost_4 :
  VotingMechanisms.calculateQuadraticCost 4 = Ok 16.
Proof. reflexivity. Qed.

Example validate_vote_4 :
  VotingMechanisms.validateVote 4 10000 5000 = Ok (true, 16).
Proof. reflexivity. Qed.

Example scenario_proposal_created :
  DAOGovernance.proposalCount Scenario.s1 = 1.
Proof. reflexivity. Qed.

Example scenario_vote_recorded :
  DAOGovernance.totalVotes (DAOGovernance.proposals Scenario.s2 1) = 4
  /\ DAOGovernance.totalVoters (DAOGovernance.proposals Scenario.s2 1) = 1
  /\ GovernanceToken.balanceOf (DAOGovernance.governanceToken Scenario.s2)
       Scenario.bob = (5000 - 16) * DAOGovernance.ether.
Proof. vm_compute. auto. Qed.

Example scenario_finalised :
  DAOGovernance.executed (DAOGovernance.proposals Scenario.s5 1) = true.
Proof. vm_compute. reflexivity. Qed.

Example scenario_vault :
  DAOTreasury.getTokenBalance zero_address Scenario.vault
  = DAOTreasury.mkTokenBalance zero_address (10 * DAOGovernance.ether)
                               (2 * DAOGovernance.ether)
                               (8 * DAOGovernance.ether)
  /\ DAOTreasury.totalProposalExecutions Scenario.vault = 2.
Proof. vm_compute. auto. Qed.

Example scenario_budget :
  let e := Scenario.asAdmin in
  let s := DAOTreasury.run
             [ (e, DAOTreasury.CreateBudgetAllocation
                     "development" zero_address (5 * DAOGovernance.ether));
               (e, DAOTreasury.SpendFromBudget
                     "development" Scenario.alice (1 * DAOGovernance.ether)
                     Scenario.delivered) ]
             Scenario.vault in
  DAOTreasury.totalBudget (DAOTreasury.budgetAllocations s "development")
  = 5 * DAOGovernance.ether
  /\ DAOTreasury.remainingBudget (DAOTreasury.budgetAllocations s "development")
     = 4 * DAOGovernance.ether
  /\ DAOTreasury.balance (DAOTreasury.tokenBalances s zero_address)
     = 9 * DAOGovernance.ether.
Proof. vm_compute. auto. Qed.

Example scenario_delegated :
  DAOGovernance.delegatedVotes Scenario.s3 Scenario.bob
  = 3000 * DAOGovernance.ether.
Proof. vm_compute. reflexivity. Qed.

(** ** Reasoning about [result] computations *)

Section ResultFacts.

Context {A B : Type}.

Lemma bind_ok_inv (c : result A) (k : A -> result B) (b : B) :
  bind c k = Ok b -> exists a, c = Ok a /\ k a = Ok b.
Proof. destruct c as [a|e]; simpl; [eauto | discriminate]. Qed.


End ResultFacts.

Lemma require_ok_inv (b : bool) (m : string) (u : unit) :
  require b m = Ok u -> b = true.
Proof. destruct b; [reflexivity | discriminate]. Qed.

Lemma require_true (b : bool) (m : string) : b = true -> require b m = Ok tt.
Proof. intros ->. reflexivity. Qed.

Lemma require_false (b : bool) (m : string) :
  b = false -> require b m = Err (Revert m).
Proof. intros ->. reflexivity. Qed.

Lemma ensure_ok_inv (b : bool) (m : string) (u : unit) :
  ensure b m = Ok u -> b = true.
Proof. destruct b; [reflexivity | discriminate]. Qed.

Lemma add_ok_inv (a b c : Z) :
  add a b = Ok c -> c = a + b /\ a + b <= MAX_UINT256.
Proof.
  unfold add. destruct (Z.leb_spec (a + b) MAX_UINT256); [|discriminate].
  intros [= <-]. auto.
Qed.

Lemma sub_ok_inv (a b c : Z) : sub a b = Ok c -> c = a - b /\ b <= a.
Proof.
  unfold sub. destruct (Z.leb_spec b a); [|discriminate].
  intros [= <-]. auto.
Qed.

Lemma mul_ok_inv (a b c : Z) :
  mul a b = Ok c -> c = a * b /\ a * b <= MAX_UINT256.
Proof.
  unfold mul. destruct (Z.leb_spec (a * b) MAX_UINT256); [|discriminate].
  intros [= <-]. auto.
Qed.

Lemma add_ok (a b : Z) : a + b <= MAX_UINT256 -> add a b = Ok (a + b).
Proof. intros H. unfold add. destruct (Z.leb_spec (a + b) MAX_UINT256); [reflexivity | lia]. Qed.

Lemma sub_ok (a b : Z) : b <= a -> sub a b = Ok (a - b).
Proof. intros H. unfold sub. destruct (Z.leb_spec b a); [reflexivity | lia]. Qed.

Lemma mul_ok (a b : Z) : a * b <= MAX_UINT256 -> mul a b = Ok (a * b).
Proof. intros H. unfold mul. destruct (Z.leb_spec (a * b) MAX_UINT256); [reflexivity | lia]. Qed.

(** Peel one successful step off a computation known to return [Ok]. *)
Ltac ok_step :=
  match goal with
  | H : bind _ _ = Ok _ |- _ =>
      apply bind_ok_inv in H; destruct H as (? & ? & ?)
  | H : require _ _ = Ok _ |- _ => apply require_ok_inv in H
  | H : ensure _ _ = Ok _ |- _ => apply ensure_ok_inv in H
  | H : add _ _ = Ok _ |- _ => apply add_ok_inv in H; destruct H as [? ?]
  | H : sub _ _ = Ok _ |- _ => apply sub_ok_inv in H; destruct H as [? ?]
  | H : mul _ _ = Ok _ |- _ => apply mul_ok_inv in H; destruct H as [? ?]
  | H : Ok _ = Ok _ |- _ => injection H as H
  | H : Err _ = Ok _ |- _ => discriminate H
  | H : (if ?c then _ else _) = Ok _ |- _ => destruct c eqn:?
  end.

Ltac ok_steps := repeat ok_step.

(** ** VotingMechanisms *)

Section QuadraticCost.

Import VotingMechanisms.

Lemma square_fits (v : Z) : 0 <= v <= MAX_UINT128 -> v * v <= MAX_UINT256.
Proof.
  unfold MAX_UINT128, MAX_UINT256. intros [H0 H1].
  assert (v * v <= (2 ^ 128 - 1) * (2 ^ 128 - 1)) by nia.
  assert ((2 ^ 128 - 1) * (2 ^ 128 - 1) <= 2 ^ 256 - 1) by (vm_compute; discriminate).
  lia.
Qed.

Lemma quadratic_cost_ok (v : Z) :
  0 < v <= MAX_UINT128 -> calculateQuadraticCost v = Ok (v * v).
Proof.
  intros [Hpos Hmax]. unfold calculateQuadraticCost.
  rewrite require_true by (apply Z.ltb_lt; exact Hpos). simpl.
  rewrite require_true by (apply Z.leb_le; exact Hmax). simpl.
  apply mul_ok, square_fits. lia.
Qed.

Lemma quadratic_cost_too_large (v : Z) :
  MAX_UINT128 < v ->
  calculateQuadraticCost v = Err (Revert "VotingMechanisms: votes too large").
Proof.
  intros Hbig. unfold calculateQuadraticCost.
  rewrite require_true by (apply Z.ltb_lt; unfold MAX_UINT128 in *; lia).
  simpl. rewrite require_false by (apply Z.leb_gt; assumption).
  reflexivity.
Qed.

(** C4. For every v with 0 < v <= type(uint128).max (the maximum the
    overflow guard allows), calculateQuadraticCost(v) returns v*v;
    calculateQuadraticCost(0) fails with a validation error, and so does
    calculateQuadraticCost(v) for every v above the maximum. *)
Theorem calculateQuadraticCost_spec (v : Z) :
  (0 < v <= MAX_UINT128 -> calculateQuadraticCost v = Ok (v * v))
  /\ (v = 0 ->
      calculateQuadraticCost v
      = Err (Revert "VotingMechanisms: votes must be greater than 0")
      /\ Spec.failsWith (calculateQuadraticCost v) Spec.ValidationError)
  /\ (MAX_UINT128 < v ->
      calculateQuadraticCost v
      = Err (Revert "VotingMechanisms: votes too large")
      /\ Spec.failsWith (calculateQuadraticCost v) Spec.ValidationError).
Proof.
  split; [apply quadratic_cost_ok | split].
  - intros ->. split; [reflexivity|]. eexists. split; reflexivity.
  - intros Hbig. rewrite (quadratic_cost_too_large v Hbig).
    split; [reflexivity|]. eexists. split; reflexivity.
Qed.

Lemma calculateQuadraticCost_witness :
  calculateQuadraticCost 4 = Ok (4 * 4)
  /\ calculateQuadraticCost 0
     = Err (Revert "VotingMechanisms: votes must be greater than 0")
  /\ calculateQuadraticCost (2 ^ 128)
     = Err (Revert "VotingMechanisms: votes too large").
Proof.
  split; [|split].
  - apply (proj1 (calculateQuadraticCost_spec 4)). unfold MAX_UINT128. lia.
  - apply (proj1 (proj2 (calculateQuadraticCost_spec 0))). reflexivity.
  - apply (proj2 (proj2 (calculateQuadraticCost_spec (2 ^ 128)))).
    unfold MAX_UINT128. lia.
Defined.

(** C10. validateVote(votes, maxVotesPerWallet, tokenBalance) returns
    (false, 0) when votes is 0 or exceeds maxVotesPerWallet; otherwise, for
    votes up to 2^128 - 1, it returns the validity cost <= tokenBalance
    together with cost = votes*votes; and for every votes with
    0 < votes <= maxVotesPerWallet and votes > 2^128 - 1 the call does not
    return a validity at all: it reverts with the overflow guard of
    calculateQuadraticCost. *)
Theorem validateVote_spec (votes maxVotesPerWallet tokenBalance : Z) :
  (votes = 0 \/ maxVotesPerWallet < votes ->
   validateVote votes maxVotesPerWallet tokenBalance = Ok (false, 0))
  /\ (0 < votes <= maxVotesPerWallet -> votes <= 2 ^ 128 - 1 ->
      validateVote votes maxVotesPerWallet tokenBalance
      = Ok (votes * votes <=? tokenBalance, votes * votes))
  /\ (0 < votes <= maxVotesPerWallet -> 2 ^ 128 - 1 < votes ->
      validateVote votes maxVotesPerWallet tokenBalance
      = Err (Revert "VotingMechanisms: votes too large")).
Proof.
  unfold validateVote. repeat split.
  - intros [-> | Hgt]; [reflexivity|].
    destruct (votes =? 0); [reflexivity|].
    apply Z.ltb_lt in Hgt. rewrite Hgt. reflexivity.
  - intros [Hpos Hmax] Hfit.
    destruct (Z.eqb_spec votes 0); [lia|].
    destruct (Z.ltb_spec maxVotesPerWallet votes); [lia|].
    rewrite quadratic_cost_ok; [reflexivity|]. unfold MAX_UINT128. lia.
  - intros [Hpos Hmax] Hbig.
    destruct (Z.eqb_spec votes 0); [lia|].
    destruct (Z.ltb_spec maxVotesPerWallet votes); [lia|].
    rewrite quadratic_cost_too_large; [reflexivity|].
    unfold MAX_UINT128. lia.
Qed.

Lemma validateVote_witness :
  validateVote 0 10000 5000 = Ok (false, 0)
  /\ validateVote 4 10000 5000 = Ok (4 * 4 <=? 5000, 4 * 4)
  /\ validateVote (2 ^ 128) (2 ^ 200) 5000
     = Err (Revert "VotingMechanisms: votes too large").
Proof.
  split; [|split].
  - apply (proj1 (validateVote_spec 0 10000 5000)). left. reflexivity.
  - apply (proj1 (proj2 (validateVote_spec 4 10000 5000))); lia.
  - apply (proj2 (proj2 (validateVote_spec (2 ^ 128) (2 ^ 200) 5000))); lia.
Defined.

End QuadraticCost.

(** ** DAOGovernance: finalisation and the lifecycle flags *)

Section Lifecycle.

Import DAOGovernance.

Lemma proposalExists_ok (pid : Z) (s : State) :
  0 < pid <= proposalCount s -> proposalExists pid s = Ok tt.
Proof.
  intros [H1 H2]. unfold proposalExists. apply require_true.
  apply andb_true_intro. split; [apply Z.ltb_lt | apply Z.leb_le]; assumption.
Qed.

Lemma proposalExists_inv (pid : Z) (s : State) (u : unit) :
  proposalExists pid s = Ok u -> 0 < pid <= proposalCount s.
Proof.
  unfold proposalExists. intros H. apply require_ok_inv in H.
  apply andb_prop in H. destruct H as [H1 H2].
  apply Z.ltb_lt in H1. apply Z.leb_le in H2. auto.
Qed.

Lemma onlyOwner_ok (s : State) : onlyOwner (owner s) s = Ok tt.
Proof. unfold onlyOwner. rewrite N.eqb_refl. reflexivity. Qed.

Lemma fails_with_revert {A : Type} (r : result A) (m : string)
      (k : Spec.ErrorKind) :
  r = Err (Revert m) -> Spec.classify m Spec.taxonomy = Some k ->
  Spec.failsWith r k.
Proof. intros -> Hk. exists (Revert m). split; [reflexivity | exact Hk]. Qed.

(** C7. For every existing proposal, executeProposal (the finalisation) called
    by the owner fails with a StateError if the current time is not strictly
    after the proposal's end time or the proposal is already executed or
    cancelled; otherwise it fails with QuorumNotMet if
    totalVotes < quorumThreshold; otherwise it sets executed = true. *)
Theorem executeProposal_finalizes (s : State) (sender : address)
        (now pid : Z) :
  0 < pid <= proposalCount s ->
  sender = owner s ->
  let p := proposals s pid in
  let r := executeProposal sender now pid s in
  (now <= endTime p \/ executed p = true \/ cancelled p = true ->
   Spec.failsWith r Spec.StateError)
  /\ (endTime p < now -> executed p = false -> cancelled p = false ->
      totalVotes p < quorumThreshold (votingConfig s) ->
      r = Err (Revert "DAOGovernance: quorum not met")
      /\ Spec.failsWith r Spec.QuorumNotMet)
  /\ (endTime p < now -> executed p = false -> cancelled p = false ->
      quorumThreshold (votingConfig s) <= totalVotes p ->
      r = Ok (set_proposal pid (set_executed p) s)
      /\ executed (proposals (set_proposal pid (set_executed p) s) pid)
         = true).
Proof.
  intros Hexists -> p r. subst r. unfold executeProposal.
  rewrite (proposalExists_ok pid s Hexists), onlyOwner_ok. simpl. fold p.
  destruct (Z.ltb_spec (endTime p) now) as [Hlate | Hearly]; simpl.
  2: { split; [|split]; try (intros; lia).
       intros _. eapply fails_with_revert; reflexivity. }
  destruct (executed p) eqn:Hexec; simpl.
  { split; [|split]; try (intros; discriminate).
    intros _. eapply fails_with_revert; reflexivity. }
  destruct (cancelled p) eqn:Hcanc; simpl.
  { split; [|split]; try (intros; discriminate).
    intros _. eapply fails_with_revert; reflexivity. }
  destruct (Z.leb_spec (quorumThreshold (votingConfig s)) (totalVotes p))
    as [Hquorum | Hshort]; simpl.
  - split; [|split].
    + intros [H | [H | H]]; [lia | discriminate | discriminate].
    + intros; lia.
    + intros _ _ _ _. split; [reflexivity|].
      unfold set_proposal. simpl. rewrite fn_lookup_insert. reflexivity.
  - split; [|split].
    + intros [H | [H | H]]; [lia | discriminate | discriminate].
    + intros _ _ _ _. split; [reflexivity|].
      eapply fails_with_revert; reflexivity.
    + intros; lia.
Qed.

Lemma executeProposal_finalizes_witness :
  executeProposal Scenario.admin Scenario.t2 1 Scenario.s3
  = Err (Revert "DAOGovernance: quorum not met")
  /\ Spec.failsWith
       (executeProposal Scenario.admin Scenario.t2 1 Scenario.s3)
       Spec.QuorumNotMet.
Proof.
  refine (proj1 (proj2 (executeProposal_finalizes
                          Scenario.s3 Scenario.admin Scenario.t2 1 _ _))
                _ _ _ _).
  - vm_compute. split; [reflexivity | discriminate].
  - reflexivity.
  - vm_compute. reflexivity.
  - reflexivity.
  - reflexivity.
  - vm_compute. reflexivity.
Defined.

End Lifecycle.

Section Reachability.

Import DAOGovernance Evolution.

(** Reading a mapping after a write: the written key or another one. *)
Ltac fn_cases :=
  unfold insert, fn_insert; destruct (decide _) as [<-|?].

(** Every step changes a stored proposal in one of the listed ways. *)
Lemma step_evolves (s : State) (st : Step) (pid : Z) :
  evolves (proposals s pid) (proposals (step s st) pid).
Proof.
  destruct st as [sender now c | token]; [|constructor].
  destruct c; simpl; unfold commit;
    match goal with
    | |- context [match ?r with Ok _ => _ | Err _ => _ end] =>
        destruct r as [s'|e] eqn:E; [|constructor]
    end.
  - (* propose *)
    ok_steps. subst s'. unfold propose in *. ok_steps. subst. simpl.
    fn_cases; constructor.
  - (* vote *)
    unfold vote in E. ok_steps. subst. simpl.
    fn_cases; [|constructor].
    apply ev_voted. apply negb_true_iff. assumption.
  - unfold delegateVotes in E. ok_steps; subst; constructor.
  - unfold revokeDelegation in E. ok_steps; subst; constructor.
  - (* executeProposal *)
    unfold executeProposal in E. ok_steps. subst. simpl.
    fn_cases; [|constructor].
    apply ev_executed; apply negb_true_iff; assumption.
  - (* cancelProposal *)
    unfold cancelProposal in E. ok_steps. subst. simpl.
    fn_cases; [|constructor].
    apply ev_cancelled; apply negb_true_iff; assumption.
  - unfold addTreasuryManager in E. ok_steps; subst; constructor.
  - unfold removeTreasuryManager in E. ok_steps; subst; constructor.
  - unfold depositToTreasury in E. ok_steps; subst; constructor.
  - unfold withdrawFromTreasury in E. ok_steps; subst; constructor.
  - unfold updateVotingConfig in E. ok_steps; subst; constructor.
  - unfold pause in E. ok_steps; subst; constructor.
  - unfold unpause in E. ok_steps; subst; constructor.
  - unfold receive in E. ok_steps; subst; constructor.
  - unfold transferOwnership in E. ok_steps; subst; constructor.
  - unfold renounceOwnership in E. ok_steps; subst; constructor.
Qed.

Lemma run_app (t1 t2 : list Step) (s : State) :
  run (t1 ++ t2) s = run t2 (run t1 s).
Proof. unfold run. apply fold_left_app. Qed.

Lemma run_cons (st : Step) (t : list Step) (s : State) :
  run (st :: t) s = run t (step s st).
Proof. reflexivity. Qed.

(** A property of one proposal that every way of evolving keeps is kept by
    every trace. *)
Lemma run_preserves (P : Proposal -> Prop) (pid : Z) :
  (forall p p', evolves p p' -> P p -> P p') ->
  forall (trace : list Step) (s : State),
    P (proposals s pid) -> P (proposals (run trace s) pid).
Proof.
  intros Hkeep trace. induction trace as [|st trace IH]; intros s HP.
  - exact HP.
  - rewrite run_cons. apply IH. eapply Hkeep; [apply step_evolves | exact HP].
Qed.

Lemma evolves_executed (p p' : Proposal) :
  evolves p p' -> executed p = true -> executed p' = true.
Proof. destruct 1; simpl; congruence. Qed.

Lemma evolves_cancelled (p p' : Proposal) :
  evolves p p' -> cancelled p = true -> cancelled p' = true.
Proof. destruct 1; simpl; congruence. Qed.

Lemma evolves_exclusive (p p' : Proposal) :
  evolves p p' ->
  executed p && cancelled p = false -> executed p' && cancelled p' = false.
Proof.
  destruct 1 as [ | | | He Hc | He Hc]; simpl; intros Hx; auto.
  rewrite He. reflexivity.
Qed.

Lemma cancelProposal_inv (sender : address) (pid : Z) (s s1 : State) :
  cancelProposal sender pid s = Ok s1 ->
  let p := proposals s pid in
  executed p = false /\ cancelled p = false
  /\ (sender = proposer p \/ sender = owner s)
  /\ s1 = set_proposal pid (set_cancelled p) s.
Proof.
  unfold cancelProposal. intros H. ok_steps. subst s1. simpl.
  repeat match goal with
         | H : negb _ = true |- _ => apply negb_true_iff in H
         end.
  repeat split; try assumption.
  match goal with
  | H : _ || _ = true |- _ =>
      apply orb_prop in H; destruct H as [H|H]; apply N.eqb_eq in H; auto
  end.
Qed.

Lemma executeProposal_inv (sender : address) (now pid : Z) (s s1 : State) :
  executeProposal sender now pid s = Ok s1 ->
  let p := proposals s pid in
  executed p = false /\ cancelled p = false
  /\ s1 = set_proposal pid (set_executed p) s.
Proof.
  unfold executeProposal. intros H. ok_steps. subst s1. simpl.
  repeat match goal with
         | H : negb _ = true |- _ => apply negb_true_iff in H
         end.
  repeat split; assumption.
Qed.

(** C9. In every state reached from the constructor by any sequence of
    operations, no proposal is both executed and cancelled; once the executed
    flag or the cancelled flag is true it is true in every later state;
    cancelProposal succeeds only on a proposal that is neither executed nor
    cancelled and only for the proposer or the owner, and executeProposal
    (the finalisation) succeeds only on a proposal that is neither executed
    nor cancelled. *)
Theorem lifecycle_flags (token : GovernanceToken.State)
        (self initialOwner : address) (trace later : list Step) (pid : Z) :
  let s := run trace (genesis token self initialOwner) in
  let s' := run later s in
  let p := proposals s pid in
  executed p && cancelled p = false
  /\ (executed p = true -> executed (proposals s' pid) = true)
  /\ (cancelled p = true -> cancelled (proposals s' pid) = true)
  /\ (forall sender s1,
        cancelProposal sender pid s = Ok s1 ->
        executed p = false /\ cancelled p = false
        /\ (sender = proposer p \/ sender = owner s)
        /\ cancelled (proposals s1 pid) = true
        /\ executed (proposals s1 pid) = false)
  /\ (forall sender now s1,
        executeProposal sender now pid s = Ok s1 ->
        executed p = false /\ cancelled p = false
        /\ executed (proposals s1 pid) = true
        /\ cancelled (proposals s1 pid) = false).
Proof.
  intros s s' p. repeat apply conj.
  - apply (run_preserves (fun q => executed q && cancelled q = false)).
    + intros q q' Hev. apply evolves_exclusive. exact Hev.
    + reflexivity.
  - apply (run_preserves (fun q => executed q = true)).
    intros q q' Hev. apply evolves_executed. exact Hev.
  - apply (run_preserves (fun q => cancelled q = true)).
    intros q q' Hev. apply evolves_cancelled. exact Hev.
  - intros sender s1 H. apply cancelProposal_inv in H.
    destruct H as (He & Hc & Hwho & ->). fold p in He, Hc, Hwho |- *.
    simpl. unfold insert, fn_insert.
    destruct (decide (pid = pid)); [|congruence]. simpl. auto.
  - intros sender now s1 H. apply executeProposal_inv in H.
    destruct H as (He & Hc & ->). fold p in He, Hc |- *.
    simpl. unfold insert, fn_insert.
    destruct (decide (pid = pid)); [|congruence]. simpl. auto.
Qed.

Lemma lifecycle_flags_witness :
  let s := run [Tx Scenario.alice Scenario.t0 (Propose "Title" "QmHash");
                Tx Scenario.alice Scenario.t0 (CancelProposal 1)]
               Scenario.s0 in
  let s' := run [Tx Scenario.admin Scenario.t2 (ExecuteProposal 1);
                 Tx Scenario.alice Scenario.t2 (Propose "Next" "QmNext")] s in
  cancelled (proposals s 1) = true
  /\ cancelled (proposals s' 1) = true
  /\ executed (proposals s' 1) = false.
Proof.
  intros s s'.
  pose proof (lifecycle_flags
                Scenario.token0 Scenario.gov Scenario.admin
                [Tx Scenario.alice Scenario.t0 (Propose "Title" "QmHash");
                 Tx Scenario.alice Scenario.t0 (CancelProposal 1)]
                [Tx Scenario.admin Scenario.t2 (ExecuteProposal 1);
                 Tx Scenario.alice Scenario.t2 (Propose "Next" "QmNext")] 1)
    as (_ & _ & Hkeep & _).
  assert (Hc : cancelled (proposals s 1) = true) by (vm_compute; reflexivity).
  split; [exact Hc|]. split; [exact (Hkeep Hc)|].
  vm_compute. reflexivity.
Defined.

End Reachability.

(** ** DAOGovernance: one vote per account and proposal *)

Section Voting.

Import DAOGovernance Evolution.

(** Case analysis on a step: the transaction committed, reverted, or the
    step was ledger activity. *)
Ltac step_cases st E :=
  destruct st as [?sender ?now c | ?token];
  [ destruct c; simpl; unfold commit;
    match goal with
    | |- context [match ?r with Ok _ => _ | Err _ => _ end] =>
        destruct r as [?s'|?e] eqn:E;
        [ autounfold with dao in E; ok_steps; subst; simpl | ]
    end
  | simpl ].

Lemma step_proposalCount (s : State) (st : Step) :
  proposalCount s <= proposalCount (step s st).
Proof. step_cases st E; try reflexivity. lia. Qed.

Lemma run_proposalCount (trace : list Step) (s : State) :
  proposalCount s <= proposalCount (run trace s).
Proof.
  revert s. induction trace as [|st trace IH]; intros s; [reflexivity|].
  rewrite run_cons. etransitivity; [apply step_proposalCount | apply IH].
Qed.

Lemma evolves_recorded (a : address) (v : Z) (p p' : Proposal) :
  evolves p p' ->
  hasVoted p a = true /\ votes p a = v ->
  hasVoted p' a = true /\ votes p' a = v.
Proof.
  destruct 1 as [ | | b n tv tn Hb | | ]; simpl; auto.
  intros [Ha Hv]. assert (b <> a) by congruence.
  rewrite !fn_lookup_insert_ne by assumption. auto.
Qed.

Lemma vote_inv (sender : address) (now pid v : Z) (s s1 : State) :
  vote sender now pid v s = Ok s1 ->
  0 < pid <= proposalCount s1
  /\ hasVoted (proposals s1 pid) sender = true
  /\ votes (proposals s1 pid) sender = v.
Proof.
  unfold vote. intros H. ok_steps. subst s1. simpl.
  match goal with
  | H : proposalExists _ _ = Ok _ |- _ => apply proposalExists_inv in H
  end.
  rewrite !fn_lookup_insert. simpl. rewrite !fn_lookup_insert. auto.
Qed.

Lemma vote_again_fails (sender : address) (now pid v : Z) (s : State) :
  hasVoted (proposals s pid) sender = true ->
  exists e, vote sender now pid v s = Err e.
Proof.
  intros Hvoted. destruct (vote sender now pid v s) as [s1|e] eqn:E; [|eauto].
  unfold vote in E. ok_steps.
  match goal with
  | H : negb (hasVoted _ _) = true |- _ =>
      rewrite Hvoted in H; discriminate H
  end.
Qed.

Lemma vote_again_reason (sender : address) (now pid v : Z) (s : State) :
  0 < pid <= proposalCount s ->
  votingActive now pid s = Ok tt ->
  paused s = false ->
  0 < v <= maxVotesPerWallet (votingConfig s) ->
  hasVoted (proposals s pid) sender = true ->
  vote sender now pid v s = Err (Revert "DAOGovernance: already voted").
Proof.
  intros Hex Hact Hp [Hv0 Hv1] Hvoted. unfold vote.
  rewrite (proposalExists_ok pid s Hex), Hact. simpl.
  unfold whenNotPaused. rewrite Hp. simpl.
  rewrite require_true by (apply Z.ltb_lt; assumption). simpl.
  rewrite require_true by (apply Z.leb_le; assumption). simpl.
  rewrite Hvoted. reflexivity.
Qed.

(** C3 (amended). After an account has once voted successfully on a proposal,
    every further vote call of the same account on the same proposal, in
    whatever later state, fails and leaves all state unchanged, and the
    recorded vote stays what it was: it cannot be topped up.  The failure is
    the StateError "already voted" whenever the call passes the checks that
    come before the has-voted check: the voting window is open and the
    proposal active, governance is not paused and
    0 < votes <= maxVotesPerWallet. *)
Theorem no_second_vote (s s1 : State) (sender : address) (now pid v : Z)
        (later : list Step) (now' v' : Z) :
  vote sender now pid v s = Ok s1 ->
  let s2 := run later s1 in
  let again := vote sender now' pid v' s2 in
  (exists e, again = Err e)
  /\ step s2 (Tx sender now' (Vote pid v')) = s2
  /\ votes (proposals s2 pid) sender = v
  /\ (votingActive now' pid s2 = Ok tt ->
      paused s2 = false ->
      0 < v' <= maxVotesPerWallet (votingConfig s2) ->
      again = Err (Revert "DAOGovernance: already voted")
      /\ Spec.failsWith again Spec.StateError).
Proof.
  intros Hvote s2 again. apply vote_inv in Hvote.
  destruct Hvote as (Hex & Hvoted & Hrec).
  assert (Hkept : hasVoted (proposals s2 pid) sender = true
                  /\ votes (proposals s2 pid) sender = v).
  { apply (run_preserves
             (fun q => hasVoted q sender = true /\ votes q sender = v)).
    - intros q q'. apply evolves_recorded.
    - auto. }
  destruct Hkept as [Hvoted2 Hrec2].
  destruct (vote_again_fails sender now' pid v' s2 Hvoted2) as [e He].
  repeat apply conj.
  - exists e. exact He.
  - simpl. fold again. unfold again. rewrite He. reflexivity.
  - exact Hrec2.
  - intros Hact Hp Hv.
    assert (Hreason : again = Err (Revert "DAOGovernance: already voted")).
    { apply vote_again_reason; try assumption.
      pose proof (run_proposalCount later s1). fold s2 in H. lia. }
    split; [exact Hreason|].
    eapply fails_with_revert; [exact Hreason | reflexivity].
Qed.

Lemma no_second_vote_witness :
  vote Scenario.bob Scenario.t1 1 5 Scenario.s3
  = Err (Revert "DAOGovernance: already voted")
  /\ step Scenario.s3 (Tx Scenario.bob Scenario.t1 (Vote 1 5)) = Scenario.s3
  /\ votes (proposals Scenario.s3 1) Scenario.bob = 4.
Proof.
  assert (Hfirst : vote Scenario.bob Scenario.t1 1 4 Scenario.s1
                   = Ok Scenario.s2) by (vm_compute; reflexivity).
  pose proof (no_second_vote
                Scenario.s1 Scenario.s2 Scenario.bob Scenario.t1 1 4
                [Tx Scenario.carol Scenario.t1 (DelegateVotes Scenario.bob)]
                Scenario.t1 5 Hfirst) as (_ & Hsame & Hrec & Hwhy).
  split; [|split; [exact Hsame | exact Hrec]].
  apply Hwhy.
  - vm_compute. reflexivity.
  - vm_compute. reflexivity.
  - vm_compute. split; [reflexivity | discriminate].
Defined.

(** C3 as stated does not hold: after Bob's vote, a further call of Bob with
    zero votes is refused as a malformed input, not as a StateError. *)
Lemma second_vote_can_be_validation_error :
  vote Scenario.bob Scenario.t1 1 4 Scenario.s1 = Ok Scenario.s2
  /\ vote Scenario.bob Scenario.t1 1 0 Scenario.s2
     = Err (Revert "DAOGovernance: votes must be greater than 0")
  /\ Spec.failsWith (vote Scenario.bob Scenario.t1 1 0 Scenario.s2)
                    Spec.ValidationError
  /\ ~ Spec.revoteIsStateError Scenario.s2 Scenario.bob 1.
Proof.
  assert (Hzero : vote Scenario.bob Scenario.t1 1 0 Scenario.s2
                  = Err (Revert "DAOGovernance: votes must be greater than 0"))
    by (vm_compute; reflexivity).
  split; [vm_compute; reflexivity|]. split; [exact Hzero|]. split.
  - eapply fails_with_revert; [exact Hzero | reflexivity].
  - intros Hclaim. destruct (Hclaim Scenario.t1 0) as (e & He & Hk).
    rewrite Hzero in He. injection He as <-. discriminate Hk.
Qed.

(** *** The cost of a vote *)







End Voting.

(** ** DAOGovernance: delegation *)

Section Delegation.

Import DAOGovernance.
Import Spec.

(** *** Sums over accounts *)

Lemma sumOver_ext (l : list address) (f g : address -> Z) :
  (forall a, In a l -> f a = g a) -> sumOver l f = sumOver l g.
Proof.
  induction l as [|x l IH]; intros H; simpl; [reflexivity|].
  rewrite (H x) by (left; reflexivity).
  rewrite IH; [reflexivity|]. intros a Ha. apply H. right. exact Ha.
Qed.

Lemma sumOver_plus (l : list address) (f g : address -> Z) :
  sumOver l (fun a => f a + g a) = sumOver l f + sumOver l g.
Proof. induction l as [|x l IH]; simpl; lia. Qed.

(** Changing a function at one account changes the sum by the difference
    there. *)
Lemma sumOver_change (l : list address) (f g : address -> Z) (k : address) :
  List.NoDup l -> In k l ->
  (forall a, a <> k -> g a = f a) ->
  sumOver l g = sumOver l f - f k + g k.
Proof.
  intros Hnd Hin Hsame. induction Hnd as [|x l Hx Hnd IH]; [destruct Hin|].
  simpl. destruct Hin as [-> | Hin].
  - rewrite (sumOver_ext l g f); [lia|].
    intros a Ha. apply Hsame. intros ->. contradiction.
  - rewrite (IH Hin). rewrite (Hsame x); [lia|].
    intros ->. contradiction.
Qed.

Lemma sumOver_insert (l : list address) (f : address -> Z) (k : address)
      (v : Z) :
  List.NoDup l -> In k l -> sumOver l (<[k := v]> f) = sumOver l f - f k + v.
Proof.
  intros Hnd Hin. rewrite (sumOver_change l f (<[k := v]> f) k Hnd Hin).
  - rewrite fn_lookup_insert. reflexivity.
  - intros a Ha. apply fn_lookup_insert_ne. congruence.
Qed.

Lemma member_In (a : address) (l : list address) :
  member a l = true <-> In a l.
Proof.
  unfold member. rewrite existsb_exists. split.
  - intros (x & Hx & Heq). apply N.eqb_eq in Heq. subst. exact Hx.
  - intros H. exists a. split; [exact H | apply N.eqb_refl].
Qed.

Lemma sumOver_single (l : list address) (k : address) (v : Z) :
  List.NoDup l -> In k l ->
  sumOver l (fun a => if N.eqb k a then v else 0) = v.
Proof.
  intros Hnd Hin.
  rewrite (sumOver_change l (fun _ => 0) _ k Hnd Hin).
  - rewrite N.eqb_refl.
    assert (sumOver l (fun _ => 0) = 0) as -> by (clear; induction l; simpl; lia).
    lia.
  - intros a Ha. destruct (N.eqb_spec k a); congruence.
Qed.

(** *** What [delegateVotes] and [revokeDelegation] write *)

Lemma delegateVotes_inv (A B : address) (s s' : State) :
  delegateVotes A B s = Ok s' ->
  is_zero B = false
  /\ governanceToken s' = governanceToken s
  /\ (forall d, delegatedTo s' d = if N.eqb d A then B else delegatedTo s d)
  /\ (forall a, delegatedVotes s' a
                = delegatedVotes s a - incoming s a A
                  + (if N.eqb B a then ledgerPower s A else 0)).
Proof.
  unfold delegateVotes. intros H. ok_steps; subst; simpl.
  all: repeat match goal with
              | H : negb _ = true |- _ => apply negb_true_iff in H
              | H : negb _ = false |- _ => apply negb_false_iff in H
              end.
  all: split; [assumption|]; split; [reflexivity|]; split.
  all: intros q; unfold incoming, delegating, ledgerPower; simpl;
    unfold insert, fn_insert;
    repeat match goal with
           | |- context [decide (?x = ?y)] => destruct (decide (x = y)); subst
           | |- context [N.eqb ?x ?y] => destruct (N.eqb_spec x y); subst
           | H : is_zero ?x = _ |- context [is_zero ?x] => rewrite H
           end; simpl; try congruence; try lia.
Qed.

Lemma revokeDelegation_inv (A : address) (s s' : State) :
  revokeDelegation A s = Ok s' ->
  delegating s A = true
  /\ governanceToken s' = governanceToken s
  /\ (forall d, delegatedTo s' d
                = if N.eqb d A then zero_address else delegatedTo s d)
  /\ (forall a, delegatedVotes s' a = delegatedVotes s a - incoming s a A).
Proof.
  unfold revokeDelegation. intros H. ok_steps; subst; simpl.
  split; [assumption|]. split; [reflexivity|]. split.
  all: intros q; unfold incoming, delegating, ledgerPower in *; simpl;
    unfold insert, fn_insert;
    repeat match goal with
           | |- context [decide (?x = ?y)] => destruct (decide (x = y)); subst
           | |- context [N.eqb ?x ?y] => destruct (N.eqb_spec x y); subst
           | H : negb (is_zero ?x) = _ |- context [is_zero ?x] => rewrite H
           end; simpl; try congruence; try lia.
Qed.

(** *** The tallies follow the delegation edges *)

(** The three invariants only read the ledger, the edges and the tallies. *)
Lemma tally_frame (accounts : list address) (s s' : State) :
  governanceToken s' = governanceToken s ->
  delegatedTo s' = delegatedTo s ->
  delegatedVotes s' = delegatedVotes s ->
  (tallied accounts s -> tallied accounts s')
  /\ (delegateesKnown accounts s -> delegateesKnown accounts s')
  /\ (tallyBalanced accounts s -> tallyBalanced accounts s').
Proof.
  unfold tallied, delegateesKnown, tallyBalanced, delegatedPowerTo,
    delegatedAway, incoming, delegating, ledgerPower.
  intros -> -> ->. auto.
Qed.

Lemma incoming_after (s s' : State) (A target : address) :
  governanceToken s' = governanceToken s ->
  (forall d, delegatedTo s' d = if N.eqb d A then target else delegatedTo s d) ->
  forall a d, d <> A -> incoming s' a d = incoming s a d.
Proof.
  intros Htok Hto a d Hd. unfold incoming, delegating, ledgerPower.
  rewrite Htok, Hto. destruct (N.eqb_spec d A); [contradiction | reflexivity].
Qed.

Lemma delegatedAway_after (s s' : State) (A target : address) :
  governanceToken s' = governanceToken s ->
  (forall d, delegatedTo s' d = if N.eqb d A then target else delegatedTo s d) ->
  forall d, d <> A -> delegatedAway s' d = delegatedAway s d.
Proof.
  intros Htok Hto d Hd. unfold delegatedAway, delegating, ledgerPower.
  rewrite Htok, Hto. destruct (N.eqb_spec d A); [contradiction | reflexivity].
Qed.

(** Summed over the possible delegatees, what [A] contributes is what it
    delegates away. *)
Lemma incoming_total (accounts : list address) (s : State) (A : address) :
  List.NoDup accounts -> delegateesKnown accounts s ->
  sumOver accounts (fun a => incoming s a A) = delegatedAway s A.
Proof.
  intros Hnd Hknown. unfold incoming, delegatedAway.
  destruct (delegating s A) eqn:Hd; simpl.
  - apply sumOver_single; [exact Hnd | apply Hknown; exact Hd].
  - clear. induction accounts; simpl; lia.
Qed.

Lemma delegateVotes_keeps (accounts : list address) (A B : address)
      (s s' : State) :
  List.NoDup accounts -> In A accounts -> In B accounts ->
  delegateVotes A B s = Ok s' ->
  tallied accounts s /\ delegateesKnown accounts s /\ tallyBalanced accounts s ->
  tallied accounts s' /\ delegateesKnown accounts s'
  /\ tallyBalanced accounts s'.
Proof.
  intros Hnd HA HB Hcall (Htal & Hknown & Hbal).
  apply delegateVotes_inv in Hcall. destruct Hcall as (HB0 & Htok & Hto & Hdv).
  assert (HincA : forall a, incoming s' a A
                            = if N.eqb B a then ledgerPower s A else 0).
  { intros a. unfold incoming, delegating, ledgerPower.
    rewrite Htok, Hto, N.eqb_refl, HB0. reflexivity. }
  assert (HawayA : delegatedAway s' A = ledgerPower s A).
  { unfold delegatedAway, delegating, ledgerPower.
    rewrite Htok, Hto, N.eqb_refl, HB0. reflexivity. }
  repeat apply conj.
  - intros a. unfold delegatedPowerTo.
    rewrite (sumOver_change accounts (incoming s a) (incoming s' a) A Hnd HA)
      by (intros d Hd; eapply incoming_after; eauto).
    rewrite Hdv, HincA, (Htal a). reflexivity.
  - intros d Hd. unfold delegating in Hd. rewrite Hto in Hd |- *.
    destruct (N.eqb_spec d A); [exact HB | apply Hknown; exact Hd].
  - unfold tallyBalanced.
    rewrite (sumOver_change accounts (delegatedAway s) (delegatedAway s') A
                            Hnd HA)
      by (intros d Hd; eapply delegatedAway_after; eauto).
    rewrite HawayA, <- Hbal.
    rewrite (sumOver_ext accounts (delegatedVotes s')
               (fun a => (delegatedVotes s a
                          + (if N.eqb B a then ledgerPower s A else 0))
                         + - incoming s a A))
      by (intros a _; rewrite Hdv; lia).
    rewrite !sumOver_plus.
    rewrite (sumOver_single accounts B _ Hnd HB).
    assert (Hneg : sumOver accounts (fun a => - incoming s a A)
                   = - delegatedAway s A).
    { rewrite <- (incoming_total accounts s A Hnd Hknown).
      clear. induction accounts; simpl; lia. }
    rewrite Hneg. lia.
Qed.

Lemma revokeDelegation_keeps (accounts : list address) (A : address)
      (s s' : State) :
  List.NoDup accounts -> In A accounts ->
  revokeDelegation A s = Ok s' ->
  tallied accounts s /\ delegateesKnown accounts s /\ tallyBalanced accounts s ->
  tallied accounts s' /\ delegateesKnown accounts s'
  /\ tallyBalanced accounts s'.
Proof.
  intros Hnd HA Hcall (Htal & Hknown & Hbal).
  apply revokeDelegation_inv in Hcall.
  destruct Hcall as (Hwas & Htok & Hto & Hdv).
  assert (HincA : forall a, incoming s' a A = 0).
  { intros a. unfold incoming, delegating.
    rewrite Hto, N.eqb_refl. reflexivity. }
  assert (HawayA : delegatedAway s' A = 0).
  { unfold delegatedAway, delegating. rewrite Hto, N.eqb_refl. reflexivity. }
  repeat apply conj.
  - intros a. unfold delegatedPowerTo.
    rewrite (sumOver_change accounts (incoming s a) (incoming s' a) A Hnd HA)
      by (intros d Hd; eapply incoming_after; eauto).
    rewrite Hdv, HincA, (Htal a). unfold delegatedPowerTo. lia.
  - intros d Hd. unfold delegating in Hd. rewrite Hto in Hd |- *.
    destruct (N.eqb_spec d A); [discriminate Hd | apply Hknown; exact Hd].
  - unfold tallyBalanced.
    rewrite (sumOver_change accounts (delegatedAway s) (delegatedAway s') A
                            Hnd HA)
      by (intros d Hd; eapply delegatedAway_after; eauto).
    rewrite HawayA, <- Hbal.
    rewrite (sumOver_ext accounts (delegatedVotes s')
               (fun a => delegatedVotes s a + - incoming s a A))
      by (intros a _; rewrite Hdv; lia).
    rewrite sumOver_plus.
    assert (Hneg : sumOver accounts (fun a => - incoming s a A)
                   = - delegatedAway s A).
    { rewrite <- (incoming_total accounts s A Hnd Hknown).
      clear. induction accounts; simpl; lia. }
    rewrite Hneg. lia.
Qed.

Lemma sumOver_zero (l : list address) (f : address -> Z) :
  (forall a, f a = 0) -> sumOver l f = 0.
Proof. intros H. induction l; simpl; [reflexivity | rewrite H; lia]. Qed.

Lemma genesis_accounted (accounts : list address)
      (token : GovernanceToken.State) (self initialOwner : address) :
  accounted accounts (genesis token self initialOwner).
Proof.
  repeat apply conj.
  - intros a. simpl. symmetry. apply sumOver_zero. reflexivity.
  - intros d Hd. discriminate Hd.
  - unfold tallyBalanced. rewrite !sumOver_zero; reflexivity.
Qed.

(** A quiet step leaves the ledger alone and keeps the tallies in line with
    the edges. *)
Lemma quiet_step (accounts : list address) (s : State) (st : Step) :
  List.NoDup accounts -> quiet accounts st = true ->
  governanceToken (step s st) = governanceToken s
  /\ (accounted accounts s -> accounted accounts (step s st)).
Proof.
  intros Hnd Hq. destruct st as [sender now c | token]; [|discriminate Hq].
  destruct c; simpl in Hq; try discriminate Hq; simpl; unfold commit;
    match goal with
    | |- context [match ?r with Ok _ => _ | Err _ => _ end] =>
        destruct r as [s'|e] eqn:E; [|auto]
    end.
  2: { (* delegateVotes *)
    apply andb_prop in Hq. destruct Hq as [HA HB].
    apply member_In in HA. apply member_In in HB. split.
    - apply delegateVotes_inv in E. apply E.
    - intros Hacc.
      exact (delegateVotes_keeps accounts _ _ s s' Hnd HA HB E Hacc). }
  2: { (* revokeDelegation *)
    apply member_In in Hq. split.
    - apply revokeDelegation_inv in E. apply E.
    - intros Hacc.
      exact (revokeDelegation_keeps accounts _ s s' Hnd Hq E Hacc). }
  all: autounfold with dao in E; ok_steps; subst;
    (split; [reflexivity|]); unfold accounted;
    intros (Htal & Hknown & Hbal); repeat apply conj;
    [ revert Htal | revert Hknown | revert Hbal ];
    apply tally_frame; reflexivity.
Qed.

Lemma quiet_run (accounts : list address) (trace : list Step) (s : State) :
  List.NoDup accounts -> forallb (quiet accounts) trace = true ->
  governanceToken (run trace s) = governanceToken s
  /\ (accounted accounts s -> accounted accounts (run trace s)).
Proof.
  intros Hnd. revert s. induction trace as [|st trace IH]; intros s Hq.
  - split; [reflexivity | auto].
  - simpl in Hq. apply andb_prop in Hq. destruct Hq as [Hst Hrest].
    rewrite run_cons.
    destruct (quiet_step accounts s st Hnd Hst) as [Htok Hinv].
    destruct (IH (step s st) Hrest) as [Htok' Hinv'].
    split; [congruence | auto].
Qed.

(** C1 (amended). In every state reached from deployment by operations other
    than votes, the ledger being left alone, the voting power available to an
    account when voting equals its ledger-reported own power, in full whether
    or not the account has an outgoing delegation, plus the sum of the ledger
    power of the accounts that currently delegate to it; an account with an
    outgoing delegation edge contributes its own power to the tally of its
    delegatee and, still, to its own available power. *)
Theorem available_power_keeps_own_power
        (token : GovernanceToken.State) (self initialOwner : address)
        (accounts : list address) (trace : list Step) (a : address) :
  List.NoDup accounts ->
  forallb (quiet accounts) trace = true ->
  let s := run trace (genesis token self initialOwner) in
  availableVotes s a = add (ledgerPower s a) (delegatedPowerTo accounts s a)
  /\ (delegating s a = true -> In a accounts ->
      let b := delegatedTo s a in
      delegatedVotes s b
      = ledgerPower s a
        + sumOver accounts (fun d => if N.eqb d a then 0 else incoming s b d)
      /\ availablePower s a
         = ledgerPower s a + delegatedPowerTo accounts s a).
Proof.
  intros Hnd Hq s.
  destruct (quiet_run accounts trace (genesis token self initialOwner) Hnd Hq)
    as [_ Hinv].
  destruct (Hinv (genesis_accounted accounts token self initialOwner))
    as (Htal & _ & _).
  fold s in Htal. split.
  - unfold availableVotes. rewrite (Htal a). reflexivity.
  - intros Hdel Hin b. split.
    + rewrite (Htal b). unfold delegatedPowerTo.
      rewrite (sumOver_change accounts (incoming s b)
                 (fun d => if N.eqb d a then 0 else incoming s b d) a Hnd Hin)
        by (intros d Hd; destruct (N.eqb_spec d a); congruence).
      rewrite N.eqb_refl.
      assert (Hmine : incoming s b a = ledgerPower s a).
      { unfold incoming. subst b. rewrite Hdel, N.eqb_refl. reflexivity. }
      lia.
    + unfold availablePower. rewrite (Htal a). reflexivity.
Qed.

Lemma available_power_keeps_own_power_witness :
  availableVotes Scenario.delegated Scenario.carol
  = add (ledgerPower Scenario.delegated Scenario.carol)
        (delegatedPowerTo Scenario.everyone Scenario.delegated Scenario.carol)
  /\ delegatedVotes Scenario.delegated Scenario.bob = 3000 * ether
  /\ availablePower Scenario.delegated Scenario.carol = 3000 * ether.
Proof.
  pose proof (available_power_keeps_own_power
                Scenario.token0 Scenario.gov Scenario.admin Scenario.everyone
                [Tx Scenario.carol Scenario.t0 (DelegateVotes Scenario.bob)]
                Scenario.carol) as H.
  assert (Hnd : List.NoDup Scenario.everyone).
  { repeat constructor; simpl; intuition discriminate. }
  specialize (H Hnd eq_refl). destruct H as [Havail Hdel].
  split; [exact Havail|].
  assert (Hc : delegating Scenario.delegated Scenario.carol = true)
    by reflexivity.
  assert (Hin : In Scenario.carol Scenario.everyone)
    by (simpl; auto).
  destruct (Hdel Hc Hin) as [Htally Hown].
  split.
  - transitivity
      (ledgerPower Scenario.delegated Scenario.carol
       + sumOver Scenario.everyone
           (fun d => if N.eqb d Scenario.carol then 0
                     else incoming Scenario.delegated Scenario.bob d));
      [exact Htally | vm_compute; reflexivity].
  - transitivity
      (ledgerPower Scenario.delegated Scenario.carol
       + delegatedPowerTo Scenario.everyone Scenario.delegated Scenario.carol);
      [exact Hown | vm_compute; reflexivity].
Defined.

(** C1 as stated does not hold: Carol, having delegated to Bob, still has her
    3,000 tokens of power available in a vote, where the specification's
    effectivePower gives her none. *)
Lemma delegator_keeps_voting_power :
  delegating Scenario.delegated Scenario.carol = true
  /\ availableVotes Scenario.delegated Scenario.carol = Ok (3000 * ether)
  /\ effectivePower Scenario.everyone Scenario.delegated Scenario.carol = 0
  /\ ~ votesWithEffectivePower Scenario.everyone Scenario.delegated
                               Scenario.carol.
Proof.
  repeat apply conj; try (vm_compute; reflexivity).
  unfold votesWithEffectivePower. vm_compute. discriminate.
Qed.

(** Why votes are left out above: a vote burns tokens of the voter and the
    tally of its delegatee is not adjusted. *)
Example tally_drifts_after_vote :
  let s := run [Tx Scenario.alice Scenario.t0 (Propose "Title" "QmHash");
                Tx Scenario.bob Scenario.t0 (DelegateVotes Scenario.alice);
                Tx Scenario.bob Scenario.t1 (Vote 1 4)] Scenario.s0 in
  delegatedVotes s Scenario.alice = 5000 * ether
  /\ delegatedPowerTo Scenario.everyone s Scenario.alice = 4984 * ether.
Proof. vm_compute. auto. Qed.

(** *** Delegating and revoking at once *)






(** Had the delegator's own power been left out of its available power, as
    the specification words effectivePower, the total would be conserved. *)
Lemma effectivePower_is_conserved
      (token : GovernanceToken.State) (self initialOwner : address)
      (accounts : list address) (trace : list Step) :
  List.NoDup accounts -> forallb (quiet accounts) trace = true ->
  let r := run trace (genesis token self initialOwner) in
  sumOver accounts (effectivePower accounts r)
  = sumOver accounts (ledgerPower r).
Proof.
  intros Hnd Hq r.
  destruct (quiet_run accounts trace (genesis token self initialOwner)
                      Hnd Hq) as [_ Hinv].
  destruct (Hinv (genesis_accounted accounts token self initialOwner))
    as (Htal & _ & Hbal).
  fold r in Htal, Hbal. unfold effectivePower.
  rewrite sumOver_plus.
  rewrite (sumOver_ext accounts (delegatedPowerTo accounts r)
                       (delegatedVotes r))
    by (intros a _; symmetry; apply Htal).
  rewrite Hbal, <- sumOver_plus. apply sumOver_ext. intros a _.
  unfold delegatedAway. destruct (delegating r a); lia.
Qed.

End Delegation.

(** ** DAOTreasury: the accounting identity *)

Section TreasuryAccounting.

Import DAOTreasury.

(** Case analysis on a treasury call that returned [Ok]. *)
Ltac call_cases c E :=
  destruct c; simpl in E; autounfold with treasury in E; ok_steps; subst;
  simpl.

Lemma call_consistent (e : Env) (c : Call) (s s' : State) :
  call e c s = Ok s' ->
  (forall t, consistent (tokenBalances s t)) ->
  forall t, consistent (tokenBalances s' t).
Proof.
  intros E H t. unfold consistent in *.
  call_cases c E; try apply H;
    unfold insert, fn_insert;
    repeat match goal with
           | |- context [decide (?a = ?b)] => destruct (decide (a = b)); subst
           end;
    simpl; try apply H;
    repeat match goal with
           | |- context [tokenBalances s ?k] =>
               lazymatch goal with
               | _ : balance (tokenBalances s k) = _ |- _ => fail
               | _ => pose proof (H k)
               end
           end;
    try lia.
Qed.

Lemma run_consistent (trace : list (Env * Call)) (s : State) :
  (forall t, consistent (tokenBalances s t)) ->
  forall t, consistent (tokenBalances (run trace s) t).
Proof.
  revert s. induction trace as [|tx trace IH]; intros s H; [exact H|].
  simpl. apply IH. unfold step, commit.
  destruct (call (fst tx) (snd tx) s) as [s'|err] eqn:E; [|exact H].
  eapply call_consistent; eauto.
Qed.

(** C5. For every asset, balance == allocated + available holds in the
    treasury's records after every sequence of treasury operations (deposits,
    scheduleProposalExecution, executeProposal with its rolled-back failed
    transfer, createBudgetAllocation, spendFromBudget, emergencyWithdraw and
    the administrative calls), starting from the all-zero balances the
    constructor leaves. *)
Theorem treasury_balance_invariant (dao initialOwner : address)
        (trace : list (Env * Call)) (t : address) :
  let tb := tokenBalances (run trace (genesis dao initialOwner)) t in
  balance tb = allocated tb + available tb.
Proof.
  intros tb. subst tb. apply run_consistent. intros t'.
  unfold consistent, genesis. simpl. unfold insert, fn_insert.
  destruct (decide _); reflexivity.
Qed.

End TreasuryAccounting.

(** ** DAOTreasury: executing a scheduled transfer *)

Section TreasuryExecution.

Import DAOTreasury.





(** *** The executed flag along a trace *)










End TreasuryExecution.

(** * Further properties of the code *)

(** ** VotingMechanisms: square roots, scores and rates *)

Section VotingArithmetic.

Import VotingMechanisms.

Lemma sqrt_uint256 (b : Z) : 0 <= b <= MAX_UINT256 -> sqrt b <= MAX_UINT128.
Proof.
  intros [H0 H1]. unfold sqrt.
  assert (Hs : Z.sqrt MAX_UINT256 = MAX_UINT128) by (vm_compute; reflexivity).
  rewrite <- Hs. apply Z.sqrt_le_mono. exact H1.
Qed.

(** X1. calculateMaxVotes(b) is the largest n with n*n <= b, and it undoes
    calculateQuadraticCost, as does calculateVoteWeight: the cost of v votes
    buys exactly v votes again. *)
Theorem calculateMaxVotes_is_integer_root (b v : Z) :
  0 <= b -> 0 < v <= MAX_UINT128 ->
  let n := calculateMaxVotes b in
  (0 <= n /\ n * n <= b < (n + 1) * (n + 1))
  /\ (exists c, calculateQuadraticCost v = Ok c
                /\ calculateMaxVotes c = v
                /\ calculateVoteWeight c = v).
Proof.
  intros Hb Hv n. split.
  - subst n. unfold calculateMaxVotes, sqrt.
    destruct (Z.eqb_spec b 0) as [->|Hne]; [lia|].
    pose proof (Z.sqrt_spec b Hb) as Hs. pose proof (Z.sqrt_nonneg b).
    unfold Z.succ in Hs. lia.
  - exists (v * v). split; [apply quadratic_cost_ok; exact Hv|].
    unfold calculateMaxVotes, calculateVoteWeight, sqrt.
    assert (Hsq : Z.sqrt (v * v) = v) by (apply Z.sqrt_square; lia).
    destruct (Z.eqb_spec (v * v) 0) as [Hz|_]; [nia | auto].
Qed.

Lemma calculateMaxVotes_is_integer_root_witness :
  calculateMaxVotes 17 * calculateMaxVotes 17 <= 17
  /\ exists c, calculateQuadraticCost 4 = Ok c /\ calculateMaxVotes c = 4.
Proof.
  destruct (calculateMaxVotes_is_integer_root 17 4)
    as [(_ & Hle & _) (c & Hc & Hm & _)].
  - lia.
  - unfold MAX_UINT128. lia.
  - split; [exact Hle | exists c; auto].
Defined.

(** X2. With a positive budget and a positive cap, calculateOptimalVotes
    returns the largest vote count within the cap whose quadratic cost the
    budget covers, together with what is left of the budget; validateVote
    accepts that vote count against the same budget. *)
Theorem calculateOptimalVotes_is_optimal (tokenBudget maxVotesPerWallet : Z) :
  0 < tokenBudget <= MAX_UINT256 -> 0 < maxVotesPerWallet ->
  exists v r,
    calculateOptimalVotes tokenBudget maxVotesPerWallet = Ok (v, r)
    /\ 0 < v <= maxVotesPerWallet
    /\ 0 <= r /\ v * v + r = tokenBudget
    /\ (forall w, 0 <= w <= maxVotesPerWallet -> w * w <= tokenBudget ->
                  w <= v)
    /\ validateVote v maxVotesPerWallet tokenBudget = Ok (true, v * v).
Proof.
  intros [Hb0 Hb1] Hcap. unfold calculateOptimalVotes.
  destruct (Z.eqb_spec tokenBudget 0) as [|_]; [lia|].
  unfold calculateMaxVotes.
  destruct (Z.eqb_spec tokenBudget 0) as [|_]; [lia|].
  pose proof (Z.sqrt_spec tokenBudget ltac:(lia)) as Hs. unfold Z.succ in Hs.
  pose proof (sqrt_uint256 tokenBudget ltac:(lia)) as Hfit.
  assert (Hroot : 1 <= sqrt tokenBudget).
  { unfold sqrt. change 1 with (Z.sqrt 1). apply Z.sqrt_le_mono. lia. }
  unfold sqrt in *.
  set (v := if maxVotesPerWallet <? Z.sqrt tokenBudget
            then maxVotesPerWallet else Z.sqrt tokenBudget).
  assert (Hv : 0 < v <= maxVotesPerWallet /\ v <= Z.sqrt tokenBudget
               /\ (v = maxVotesPerWallet \/ v = Z.sqrt tokenBudget)).
  { subst v. destruct (Z.ltb_spec maxVotesPerWallet (Z.sqrt tokenBudget)); lia. }
  destruct Hv as (Hv0 & Hv1 & Hv2).
  assert (Hcost : v * v <= tokenBudget) by nia.
  exists v, (tokenBudget - v * v).
  rewrite quadratic_cost_ok by lia. simpl.
  rewrite sub_ok by exact Hcost. simpl.
  split; [reflexivity|]. split; [exact Hv0|]. split; [lia|]. split; [lia|].
  split.
  - intros w Hw Hww. destruct Hv2 as [->| ->]; [lia|].
    destruct (Z.le_gt_cases w (Z.sqrt tokenBudget)); [assumption | nia].
  - unfold validateVote.
    destruct (Z.eqb_spec v 0); [lia|].
    destruct (Z.ltb_spec maxVotesPerWallet v); [lia|].
    rewrite quadratic_cost_ok by lia. simpl.
    destruct (Z.leb_spec (v * v) tokenBudget); [reflexivity | lia].
Qed.

Lemma calculateOptimalVotes_is_optimal_witness :
  exists v r, calculateOptimalVotes 5000 10000 = Ok (v, r)
              /\ 0 < v <= 10000 /\ 0 <= r /\ v * v + r = 5000.
Proof.
  destruct (calculateOptimalVotes_is_optimal 5000 10000)
    as (v & r & H1 & H2 & H3 & H4 & _).
  - unfold MAX_UINT256. lia.
  - lia.
  - exists v, r. auto.
Defined.

(** X3. calculateOptimalVotes returns (0, 0) for an empty budget, but with a
    positive budget and maxVotesPerWallet = 0 it does not return (0, budget):
    the cost of zero votes is refused and the call reverts. *)
Theorem calculateOptimalVotes_zero_cap (tokenBudget maxVotesPerWallet : Z) :
  calculateOptimalVotes 0 maxVotesPerWallet = Ok (0, 0)
  /\ (0 < tokenBudget ->
      calculateOptimalVotes tokenBudget 0
      = Err (Revert "VotingMechanisms: votes must be greater than 0")).
Proof.
  split; [reflexivity|]. intros Hb. unfold calculateOptimalVotes.
  destruct (Z.eqb_spec tokenBudget 0) as [|_]; [lia|].
  unfold calculateMaxVotes.
  destruct (Z.eqb_spec tokenBudget 0) as [|_]; [lia|].
  assert (Hroot : 1 <= sqrt tokenBudget).
  { unfold sqrt. change 1 with (Z.sqrt 1). apply Z.sqrt_le_mono. lia. }
  destruct (Z.ltb_spec 0 (sqrt tokenBudget)); [reflexivity | lia].
Qed.

Lemma calculateOptimalVotes_zero_cap_witness :
  calculateOptimalVotes 5000 0
  = Err (Revert "VotingMechanisms: votes must be greater than 0").
Proof.
  apply (proj2 (calculateOptimalVotes_zero_cap 5000 0)). lia.
Defined.

Lemma div_ok (a b : Z) : b <> 0 -> div a b = Ok (a / b).
Proof. intros H. unfold div. destruct (Z.eqb_spec b 0); [contradiction | reflexivity]. Qed.

(** X4. Whenever calculateSybilResistanceScore returns, the score lies
    between 0 and 100; it is 0 when there are no voters or nothing was spent,
    and 100 when the largest spend does not exceed the (rounded-down)
    average. *)
Theorem sybil_score_range (totalVoters totalTokensSpent maxTokensPerVoter : Z) :
  0 <= totalVoters -> 0 <= totalTokensSpent -> 0 <= maxTokensPerVoter ->
  let r := calculateSybilResistanceScore totalVoters totalTokensSpent
                                         maxTokensPerVoter in
  (forall score, r = Ok score -> 0 <= score <= 100)
  /\ (totalVoters = 0 \/ totalTokensSpent = 0 -> r = Ok 0)
  /\ (0 < totalVoters <= totalTokensSpent ->
      maxTokensPerVoter <= totalTokensSpent / totalVoters ->
      maxTokensPerVoter * 100 <= MAX_UINT256 ->
      r = Ok 100).
Proof.
  intros Hv Hs Hm r. subst r. unfold calculateSybilResistanceScore.
  split; [|split].
  - intros score.
    destruct ((totalVoters =? 0) || (totalTokensSpent =? 0));
      [intros [= <-]; lia|].
    intros H. ok_steps.
    all: repeat match goal with
                | H : (_ <=? _) = true |- _ => apply Z.leb_le in H
                | H : (_ <=? _) = false |- _ => apply Z.leb_gt in H
                end; lia.
  - intros [-> | ->]; [reflexivity|]. rewrite orb_true_r. reflexivity.
  - intros [Hv0 Hvs] Heven Hfit.
    destruct (Z.eqb_spec totalVoters 0); [lia|].
    destruct (Z.eqb_spec totalTokensSpent 0); [lia|]. simpl.
    rewrite div_ok by lia. simpl. rewrite mul_ok by exact Hfit. simpl.
    assert (Havg : 0 < totalTokensSpent / totalVoters)
      by (apply Z.div_str_pos; lia).
    rewrite div_ok by lia. simpl.
    assert (Hratio : maxTokensPerVoter * 100 / (totalTokensSpent / totalVoters)
                     <= 100).
    { apply Z.div_le_upper_bound; [exact Havg | lia]. }
    apply Z.leb_le in Hratio. rewrite Hratio. reflexivity.
Qed.

Lemma sybil_score_range_witness :
  calculateSybilResistanceScore 3 300 100 = Ok 100.
Proof.
  refine (proj2 (proj2 (sybil_score_range 3 300 100 _ _ _)) _ _ _);
    try lia.
  - vm_compute. discriminate.
  - unfold MAX_UINT256. lia.
Defined.

(** X5. With more voters than tokens spent the rounded-down average is zero
    and calculateSybilResistanceScore does not return a score: it panics with
    a division by zero. *)
Theorem sybil_score_divides_by_zero
        (totalVoters totalTokensSpent maxTokensPerVoter : Z) :
  0 < totalTokensSpent < totalVoters ->
  0 <= maxTokensPerVoter -> maxTokensPerVoter * 100 <= MAX_UINT256 ->
  calculateSybilResistanceScore totalVoters totalTokensSpent maxTokensPerVoter
  = Err DIVISION_BY_ZERO.
Proof.
  intros [Hs Hv] Hm Hfit. unfold calculateSybilResistanceScore.
  destruct (Z.eqb_spec totalVoters 0); [lia|].
  destruct (Z.eqb_spec totalTokensSpent 0); [lia|]. simpl.
  rewrite div_ok by lia. simpl. rewrite mul_ok by exact Hfit. simpl.
  rewrite Z.div_small by lia. reflexivity.
Qed.

Lemma sybil_score_divides_by_zero_witness :
  calculateSybilResistanceScore 5 3 1 = Err DIVISION_BY_ZERO.
Proof.
  apply sybil_score_divides_by_zero; unfold MAX_UINT256; lia.
Defined.

(** X6. calculateParticipationRate is 0 when nobody is eligible, and
    otherwise returns the percentage rounded down, which is at most 100 when
    the voters are among the eligible. *)
Theorem participation_rate_is_percentage (voters eligibleVoters : Z) :
  0 <= voters -> 0 <= eligibleVoters ->
  calculateParticipationRate voters 0 = Ok 0
  /\ (0 < eligibleVoters -> voters * 100 <= MAX_UINT256 ->
      exists rate,
        calculateParticipationRate voters eligibleVoters = Ok rate
        /\ rate * eligibleVoters <= voters * 100
           < (rate + 1) * eligibleVoters
        /\ (voters <= eligibleVoters -> 0 <= rate <= 100)).
Proof.
  intros Hv He. split; [reflexivity|]. intros Hpos Hfit.
  unfold calculateParticipationRate.
  destruct (Z.eqb_spec eligibleVoters 0); [lia|].
  rewrite mul_ok by exact Hfit. simpl. rewrite div_ok by lia.
  exists (voters * 100 / eligibleVoters). split; [reflexivity|].
  pose proof (Z.mul_div_le (voters * 100) eligibleVoters Hpos).
  pose proof (Z.mul_succ_div_gt (voters * 100) eligibleVoters Hpos).
  split; [unfold Z.succ in *; lia|].
  intros Hle. split.
  - apply Z.div_pos; lia.
  - apply Z.div_le_upper_bound; lia.
Qed.

Lemma participation_rate_is_percentage_witness :
  exists rate, calculateParticipationRate 1 3 = Ok rate /\ 0 <= rate <= 100.
Proof.
  destruct (proj2 (participation_rate_is_percentage 1 3 ltac:(lia) ltac:(lia)))
    as (rate & Hr & _ & Hrange).
  - lia.
  - unfold MAX_UINT256. lia.
  - exists rate. split; [exact Hr | apply Hrange; lia].
Defined.

End VotingArithmetic.

(** ** VotingMechanisms: the bubble sort of analyzeVoteDistribution *)

Section BubbleSort.

Import VotingMechanisms Analytics.
Local Open Scope list_scope.

Lemma compareSwap_middle (pre : list Z) (x y : Z) (rest : list Z) :
  compareSwap (pre ++ x :: y :: rest) (List.length pre)
  = Ok (pre ++ Z.min x y :: Z.max x y :: rest).
Proof.
  unfold compareSwap, at_index.
  rewrite (list_lookup_middle pre (y :: rest) x _ eq_refl). simpl.
  assert (Hy : (pre ++ x :: y :: rest) !! S (List.length pre) = Some y).
  { change (pre ++ x :: y :: rest) with (pre ++ [x] ++ y :: rest).
    rewrite app_assoc. apply list_lookup_middle.
    rewrite length_app. simpl. lia. }
  rewrite Hy. simpl.
  destruct (Z.ltb_spec y x) as [Hlt|Hge].
  - rewrite Z.min_r, Z.max_l by lia. f_equal.
    replace (List.length pre) with (List.length pre + 0)%nat at 2 by lia.
    rewrite insert_app_r. simpl.
    replace (S (List.length pre)) with (List.length pre + 1)%nat by lia.
    rewrite insert_app_r. reflexivity.
  - rewrite Z.min_l, Z.max_r by lia. reflexivity.
Qed.

(** The inner loop, started at index [length pre], is [bubble]. *)
Lemma forEach_compareSwap (n : nat) (pre l : list Z) :
  (n < List.length l)%nat ->
  forEach compareSwap (seq (List.length pre) n) (pre ++ l)
  = Ok (pre ++ bubble n l).
Proof.
  revert pre l. induction n as [|n IH]; intros pre l Hn.
  - destruct l; reflexivity.
  - destruct l as [|x [|y rest]]; simpl in Hn; try lia.
    simpl. rewrite compareSwap_middle. simpl.
    specialize (IH (pre ++ [Z.min x y]) (Z.max x y :: rest)).
    rewrite length_app in IH. simpl in IH.
    replace (List.length pre + 1)%nat with (S (List.length pre)) in IH by lia.
    rewrite <- app_assoc in IH. simpl in IH. rewrite IH by (simpl; lia).
    rewrite <- app_assoc. reflexivity.
Qed.

Lemma bubblePass_bubble (a : list Z) (i : nat) :
  a <> [] ->
  bubblePass a i = Ok (bubble (List.length a - i - 1) a).
Proof.
  intros Ha. unfold bubblePass.
  apply (forEach_compareSwap (List.length a - i - 1) [] a).
  destruct a; [contradiction | simpl; lia].
Qed.

Lemma bubble_perm (n : nat) (l : list Z) : Permutation (bubble n l) l.
Proof.
  revert l. induction n as [|n IH]; intros l; [destruct l; reflexivity|].
  destruct l as [|x [|y rest]]; try reflexivity. simpl.
  rewrite IH.
  destruct (Z.le_ge_cases x y) as [H|H].
  - rewrite Z.min_l, Z.max_r by lia. reflexivity.
  - rewrite Z.min_r, Z.max_l by lia. apply perm_swap.
Qed.

Lemma bubble_length (n : nat) (l : list Z) :
  List.length (bubble n l) = List.length l.
Proof. apply Permutation_length, bubble_perm. Qed.

Lemma bubble_app (n : nat) (p s : list Z) :
  (n < List.length p)%nat -> bubble n (p ++ s) = bubble n p ++ s.
Proof.
  revert p. induction n as [|n IH]; intros p Hn.
  - destruct p; [simpl in Hn; lia|]. destruct (p ++ s); reflexivity.
  - destruct p as [|x [|y rest]]; simpl in Hn; try lia.
    simpl. f_equal. apply (IH (Z.max x y :: rest)). simpl. lia.
Qed.

(** A full pass moves a largest element to the end. *)
Lemma bubble_last (r : list Z) (x : Z) :
  exists init m,
    bubble (List.length r) (x :: r) = init ++ [m]
    /\ Forall (fun z => z <= m) (x :: r).
Proof.
  revert x. induction r as [|y r IH]; intros x.
  - exists [], x. split; [reflexivity|]. repeat constructor. lia.
  - destruct (IH (Z.max x y)) as (init & m & Hb & Hall).
    exists (Z.min x y :: init), m. simpl. rewrite Hb. split; [reflexivity|].
    inversion Hall as [|? ? Hmax Hrest]; subst.
    repeat constructor; try assumption; lia.
Qed.

Lemma forEach_cons {S : Type} (body : S -> nat -> result S) (j : nat)
      (js : list nat) (st : S) :
  forEach body (j :: js) st = bind (body st j) (forEach body js).
Proof. reflexivity. Qed.

(** The outer loop with [suffix] already in place. *)
Lemma forEach_bubblePass (k : nat) (prefix suffix : list Z) :
  List.length prefix = S k ->
  Sorted Z.le suffix ->
  (forall x y, In x prefix -> In y suffix -> x <= y) ->
  exists s,
    forEach bubblePass (seq (List.length suffix) k) (prefix ++ suffix) = Ok s
    /\ Sorted Z.le s
    /\ Permutation s (prefix ++ suffix).
Proof.
  revert prefix suffix. induction k as [|k IH]; intros prefix suffix Hlen Hs Hle.
  - destruct prefix as [|x [|? ?]]; try discriminate Hlen.
    exists (x :: suffix). simpl. split; [reflexivity|]. split; [|reflexivity].
    constructor; [exact Hs|].
    destruct suffix as [|y ?]; constructor.
    apply Hle; simpl; auto.
  - destruct prefix as [|x r]; [discriminate Hlen|].
    simpl in Hlen. injection Hlen as Hr.
    change (seq (List.length suffix) (S k))
      with (List.length suffix :: seq (S (List.length suffix)) k).
    rewrite forEach_cons.
    rewrite bubblePass_bubble by discriminate.
    replace (List.length ((x :: r) ++ suffix) - List.length suffix - 1)%nat
      with (List.length r) by (rewrite length_app; simpl; lia).
    rewrite bubble_app by (simpl; lia).
    destruct (bubble_last r x) as (init & m & Hb & Hall).
    rewrite Hb. simpl.
    assert (Hperm : Permutation (init ++ [m]) (x :: r))
      by (rewrite <- Hb; apply bubble_perm).
    assert (Hinit : List.length init = S k).
    { apply Permutation_length in Hperm. rewrite length_app in Hperm.
      simpl in Hperm. lia. }
    assert (Hm : In m (x :: r)).
    { eapply Permutation_in; [exact Hperm|]. apply in_or_app. right.
      simpl. auto. }
    assert (Hsub : forall z, In z init -> In z (x :: r)).
    { intros z Hz. eapply Permutation_in; [exact Hperm|].
      apply in_or_app. left. exact Hz. }
    destruct (IH init (m :: suffix) Hinit) as (s & Hrun & Hsorted & Hp).
    + constructor; [exact Hs|].
      destruct suffix as [|y ?]; constructor. apply Hle; simpl; auto.
    + intros z y Hz [<- | Hy].
      * rewrite List.Forall_forall in Hall. apply Hall, Hsub, Hz.
      * apply Hle; [apply Hsub, Hz | exact Hy].
    + exists s. rewrite <- app_assoc. simpl in Hrun |- *. rewrite Hrun.
      split; [reflexivity|]. split; [exact Hsorted|].
      rewrite Hp. change (m :: suffix) with ([m] ++ suffix).
      rewrite app_assoc, Hperm. reflexivity.
Qed.

Lemma bubbleSort_ok (a : list Z) :
  exists s, bubbleSort a = Ok s /\ Sorted Z.le s /\ Permutation s a.
Proof.
  destruct a as [|x r].
  - exists []. split; [reflexivity|]. split; constructor.
  - unfold bubbleSort.
    destruct (forEach_bubblePass (List.length r) (x :: r) [])
      as (s & Hrun & Hsorted & Hperm).
    + reflexivity.
    + constructor.
    + intros ? ? _ [].
    + exists s. rewrite app_nil_r in Hrun, Hperm.
      replace (List.length (x :: r) - 1)%nat with (List.length r)
        by (simpl; lia).
      split; [exact Hrun | split; assumption].
Qed.

(** X7. The bubble sort of analyzeVoteDistribution never reads out of
    bounds: on every array it returns, and what it returns is the input in
    ascending order, entry for entry. *)
Theorem bubbleSort_sorts (a : list Z) :
  exists s,
    bubbleSort a = Ok s
    /\ Sorted Z.le s
    /\ Permutation s a
    /\ List.length s = List.length a.
Proof.
  destruct (bubbleSort_ok a) as (s & Hrun & Hsorted & Hperm).
  exists s. split; [exact Hrun|]. split; [exact Hsorted|].
  split; [exact Hperm|]. apply Permutation_length, Hperm.
Qed.

End BubbleSort.

(** ** VotingMechanisms: the Gini coefficient and the analysis *)

Section VoteDistribution.

Import VotingMechanisms Analytics.
Local Open Scope list_scope.

Lemma bind_ret {A B : Type} (a : A) (k : A -> result B) :
  bind (Ok a) k = k a.
Proof. reflexivity. Qed.

Lemma total_nonneg (l : list Z) : Forall (fun x => 0 <= x) l -> 0 <= total l.
Proof. induction 1; simpl; lia. Qed.

Lemma excess_nonneg (x : Z) (l : list Z) : 0 <= excess x l.
Proof. unfold excess. induction l; simpl; lia. Qed.

Lemma nonnegative_votes (voteData : list QuadraticVoteData) :
  nonnegative voteData -> Forall (fun x => 0 <= x) (map votes voteData).
Proof. induction 1 as [|d l [Hv _] _ IH]; simpl; constructor; auto. Qed.

Lemma sumVotes_inv (voteData : list QuadraticVoteData) (acc r : Z) :
  sumVotes voteData acc = Ok r -> r = acc + total (map votes voteData).
Proof.
  revert acc. induction voteData as [|d l IH]; intros acc H; simpl in *.
  - injection H as <-. lia.
  - ok_steps. subst. rewrite (IH _ H0). lia.
Qed.

Lemma sumVotes_ok (voteData : list QuadraticVoteData) (acc : Z) :
  nonnegative voteData ->
  acc + total (map votes voteData) <= MAX_UINT256 ->
  sumVotes voteData acc = Ok (acc + total (map votes voteData)).
Proof.
  intros Hnn. revert acc. induction Hnn as [|d l [Hv _] Hl IH]; intros acc H.
  - simpl. f_equal. lia.
  - simpl in *. pose proof (total_nonneg _ (nonnegative_votes l Hl)).
    rewrite add_ok by lia. simpl. rewrite IH by lia. f_equal. lia.
Qed.

Lemma giniRow_inv (x : Z) (voteData : list QuadraticVoteData) (acc r : Z) :
  giniRow x voteData acc = Ok r -> r = acc + excess x (map votes voteData).
Proof.
  revert acc. induction voteData as [|d l IH]; intros acc H; simpl in *.
  - injection H as <-. unfold excess. simpl. lia.
  - apply bind_ok_inv in H. destruct H as (acc' & Hstep & Hrest).
    apply IH in Hrest. subst r. unfold excess in *. simpl.
    destruct (Z.ltb_spec (votes d) x); ok_steps; subst; lia.
Qed.

Lemma giniRow_ok (x : Z) (voteData : list QuadraticVoteData) (acc : Z) :
  acc + excess x (map votes voteData) <= MAX_UINT256 ->
  giniRow x voteData acc = Ok (acc + excess x (map votes voteData)).
Proof.
  revert acc. induction voteData as [|d l IH]; intros acc H.
  - simpl. unfold excess. simpl. f_equal. lia.
  - simpl. unfold excess in *. simpl in *.
    pose proof (excess_nonneg x (map votes l)) as Hnn. unfold excess in Hnn.
    destruct (Z.ltb_spec (votes d) x).
    + rewrite sub_ok by lia. simpl. rewrite add_ok by lia. simpl.
      rewrite IH by lia. f_equal. lia.
    + simpl. rewrite IH by lia. f_equal. lia.
Qed.

Lemma giniRows_inv (rows voteData : list QuadraticVoteData) (acc r : Z) :
  giniRows rows voteData acc = Ok r ->
  r = acc + total (map (fun x => excess x (map votes voteData))
                       (map votes rows)).
Proof.
  revert acc. induction rows as [|d l IH]; intros acc H; simpl in *.
  - injection H as <-. lia.
  - apply bind_ok_inv in H. destruct H as (acc' & Hrow & Hrest).
    apply giniRow_inv in Hrow. apply IH in Hrest. lia.
Qed.

Lemma rows_nonneg (rows all : list Z) :
  0 <= total (map (fun x => excess x all) rows).
Proof.
  induction rows; simpl; [lia|]. pose proof (excess_nonneg a all). lia.
Qed.

Lemma giniRows_ok (rows voteData : list QuadraticVoteData) (acc : Z) :
  acc + total (map (fun x => excess x (map votes voteData)) (map votes rows))
  <= MAX_UINT256 ->
  giniRows rows voteData acc
  = Ok (acc + total (map (fun x => excess x (map votes voteData))
                         (map votes rows))).
Proof.
  revert acc. induction rows as [|d l IH]; intros acc H.
  - simpl. f_equal. lia.
  - simpl in *.
    pose proof (rows_nonneg (map votes l) (map votes voteData)).
    pose proof (excess_nonneg (votes d) (map votes voteData)).
    rewrite giniRow_ok by lia. simpl. rewrite IH by lia. f_equal. lia.
Qed.

(** Each entry exceeds the others by at most itself, times their number. *)
Lemma excess_bound (x : Z) (l : list Z) :
  0 <= x -> Forall (fun y => 0 <= y) l ->
  excess x l <= Z.of_nat (List.length l) * x.
Proof.
  intros Hx Hl. unfold excess. induction Hl as [|y l Hy _ IH].
  - simpl. lia.
  - simpl total. simpl List.length. lia.
Qed.

Lemma spread_rows_bound (rows all : list Z) :
  Forall (fun y => 0 <= y) rows -> Forall (fun y => 0 <= y) all ->
  total (map (fun x => excess x all) rows)
  <= Z.of_nat (List.length all) * total rows.
Proof.
  intros Hr Ha. induction Hr as [|x rows Hx _ IH]; simpl; [lia|].
  pose proof (excess_bound x all Hx Ha). lia.
Qed.

Lemma spread_bound (l : list Z) :
  Forall (fun y => 0 <= y) l ->
  0 <= spread l <= Z.of_nat (List.length l) * total l.
Proof.
  intros H. unfold spread. split; [apply rows_nonneg|].
  apply spread_rows_bound; assumption.
Qed.

(** No entry exceeds an equal one. *)
Lemma spread_constant (c : Z) (l : list Z) :
  Forall (fun y => y = c) l -> spread l = 0.
Proof.
  intros H. unfold spread.
  assert (He : forall x, x = c -> excess x l = 0).
  { intros x ->. unfold excess. induction H as [|y l -> _ IH]; simpl; lia. }
  assert (Hrows : forall rows, Forall (fun y => y = c) rows ->
                               total (map (fun x => excess x l) rows) = 0).
  { induction 1 as [|y rows Hy _ IH]; simpl; [reflexivity|].
    rewrite (He y Hy). lia. }
  apply Hrows. exact H.
Qed.

(** An entry of the list exceeds the others, itself left out. *)
Lemma excess_bound_member (x : Z) (l : list Z) :
  0 <= x -> Forall (fun y => 0 <= y) l -> In x l ->
  excess x l <= (Z.of_nat (List.length l) - 1) * x.
Proof.
  intros Hx Hl. induction Hl as [|y l Hy Hl IH]; intros Hin; [destruct Hin|].
  unfold excess in *. simpl total. simpl List.length.
  destruct Hin as [-> | Hin].
  - pose proof (excess_bound x l Hx Hl) as Hb. unfold excess in Hb. lia.
  - specialize (IH Hin). lia.
Qed.

Lemma spread_strict_bound (l : list Z) :
  Forall (fun y => 0 <= y) l ->
  spread l <= (Z.of_nat (List.length l) - 1) * total l.
Proof.
  intros Hl. unfold spread.
  assert (Hrows : forall rows,
             Forall (fun y => 0 <= y) rows -> (forall x, In x rows -> In x l) ->
             total (map (fun x => excess x l) rows)
             <= (Z.of_nat (List.length l) - 1) * total rows).
  { induction 1 as [|x rows Hx _ IH]; intros Hsub; simpl; [lia|].
    pose proof (excess_bound_member x l Hx Hl (Hsub x (or_introl eq_refl))).
    specialize (IH (fun z Hz => Hsub z (or_intror Hz))). lia. }
  apply Hrows; auto.
Qed.

Lemma gini_formula_range (n t s : Z) :
  1 < n -> 0 < t -> 0 <= s <= (n - 1) * t ->
  0 <= s * 100 / (n * t) < 100.
Proof.
  intros Hn Ht Hs. split.
  - apply Z.div_pos; nia.
  - apply Z.div_lt_upper_bound; nia.
Qed.

Lemma gini_returns (voteData : list QuadraticVoteData) :
  nonnegative voteData ->
  100 * Z.of_nat (List.length voteData) * total (map votes voteData)
  <= MAX_UINT256 ->
  exists g, calculateGiniCoefficient voteData = Ok g.
Proof.
  intros Hnn. set (vs := map votes voteData).
  set (n := Z.of_nat (List.length voteData)).
  pose proof (nonnegative_votes voteData Hnn) as Hvs. fold vs in Hvs.
  pose proof (total_nonneg vs Hvs) as Ht.
  pose proof (spread_bound vs Hvs) as [Hs0 _].
  pose proof (spread_strict_bound vs Hvs) as Hs1.
  replace (Z.of_nat (List.length vs)) with n in Hs1
    by (subst vs n; rewrite length_map; reflexivity).
  intros Hfit. unfold calculateGiniCoefficient. fold n.
  destruct (Z.leb_spec n 1) as [Hn|Hn]; simpl; [eauto|].
  rewrite sumVotes_ok by (try assumption; fold vs; nia). fold vs.
  rewrite Z.add_0_l. simpl.
  destruct (Z.eqb_spec (total vs) 0) as [Hz|Hz]; [eauto|].
  rewrite giniRows_ok by (fold vs; fold (spread vs); nia).
  fold vs. fold (spread vs). rewrite Z.add_0_l. simpl.
  rewrite mul_ok by nia. simpl. rewrite mul_ok by nia. simpl.
  rewrite div_ok by nia. eauto.
Qed.

(** X8. On unsigned vote counts, whenever calculateGiniCoefficient returns,
    its result is 0 for at most one voter or when no votes were cast, and
    otherwise the sum of all positive pairwise differences times 100 divided
    by (voters times total votes), rounded down; it lies between 0 and 99:
    the 100 that the documentation names for perfect inequality is never
    reached.  The call does return when 100 times voters times total votes
    fits in uint256. *)
Theorem gini_coefficient_range (voteData : list QuadraticVoteData) :
  nonnegative voteData ->
  let vs := map votes voteData in
  let n := Z.of_nat (List.length voteData) in
  (forall g,
      calculateGiniCoefficient voteData = Ok g ->
      0 <= g < 100
      /\ g = (if (n <=? 1) || (total vs =? 0) then 0
              else spread vs * 100 / (n * total vs)))
  /\ (100 * n * total vs <= MAX_UINT256 ->
      exists g, calculateGiniCoefficient voteData = Ok g).
Proof.
  intros Hnn vs n.
  pose proof (nonnegative_votes voteData Hnn) as Hvs. fold vs in Hvs.
  pose proof (total_nonneg vs Hvs) as Ht.
  pose proof (spread_bound vs Hvs) as [Hs0 _].
  pose proof (spread_strict_bound vs Hvs) as Hs1.
  replace (Z.of_nat (List.length vs)) with n in Hs1
    by (subst vs n; rewrite length_map; reflexivity).
  split.
  - intros g. unfold calculateGiniCoefficient. fold n.
    destruct (Z.leb_spec n 1) as [Hn|Hn]; simpl.
    { intros [= <-]. split; [lia | reflexivity]. }
    intros H. apply bind_ok_inv in H. destruct H as (t & Hsum & H).
    apply sumVotes_inv in Hsum. fold vs in Hsum. rewrite Z.add_0_l in Hsum.
    subst t. destruct (Z.eqb_spec (total vs) 0) as [Hz|Hz].
    { injection H as <-. split; [lia | reflexivity]. }
    apply bind_ok_inv in H. destruct H as (sp & Hrows & H).
    apply giniRows_inv in Hrows. fold vs in Hrows. fold (spread vs) in Hrows.
    rewrite Z.add_0_l in Hrows. subst sp. ok_steps. subst.
    unfold div in *.
    destruct (Z.eqb_spec (n * total vs) 0); [discriminate|].
    match goal with H : Ok _ = Ok _ |- _ => injection H as <- end.
    split; [|reflexivity]. apply gini_formula_range; lia.
  - intros Hfit. exact (gini_returns voteData Hnn Hfit).
Qed.

Lemma gini_coefficient_range_witness :
  let voteData := [ mkQuadraticVoteData 1 1 1%N;
                    mkQuadraticVoteData 3 9 2%N ] in
  exists g, calculateGiniCoefficient voteData = Ok g /\ 0 <= g < 100.
Proof.
  intros voteData.
  assert (Hnn : nonnegative voteData)
    by (repeat constructor; simpl; lia).
  destruct (gini_coefficient_range voteData Hnn) as [Hrange Hreturns].
  destruct Hreturns as [g Hg]; [vm_compute; discriminate|].
  exists g. split; [exact Hg | apply (Hrange g Hg)].
Defined.

(** X9. When all voters cast the same number of votes, and voters times
    total votes fits in uint256, calculateGiniCoefficient returns 0. *)
Theorem gini_zero_for_equal_votes (voteData : list QuadraticVoteData)
        (c : Z) :
  0 <= c ->
  Forall (fun d => votes d = c) voteData ->
  let n := Z.of_nat (List.length voteData) in
  n * (n * c) <= MAX_UINT256 ->
  calculateGiniCoefficient voteData = Ok 0.
Proof.
  intros Hc Hall n Hfit.
  assert (Hvs : Forall (fun y => y = c) (map votes voteData)).
  { clear Hfit. induction Hall; simpl; constructor; auto. }
  assert (Htotal : total (map votes voteData) = n * c).
  { subst n. clear Hfit Hvs. induction Hall as [|d l Hd _ IH]; [reflexivity|].
    simpl map. simpl total. simpl List.length. rewrite IH, Hd. lia. }
  set (vs := map votes voteData) in *.
  unfold calculateGiniCoefficient. fold n.
  destruct (Z.leb_spec n 1) as [Hn|Hn]; simpl; [reflexivity|].
  assert (Hsum : sumVotes voteData 0 = Ok (total vs)).
  { assert (Hgen : forall l acc,
               Forall (fun d => votes d = c) l ->
               acc + total (map votes l) <= MAX_UINT256 -> 0 <= acc ->
               sumVotes l acc = Ok (acc + total (map votes l))).
    { induction l as [|d l IH]; intros acc Hl Hb Hacc; simpl.
      - f_equal. lia.
      - inversion Hl as [|? ? Hd Hl']; subst. simpl in Hb.
        assert (0 <= total (map votes l)).
        { clear -Hl' Hc. induction Hl' as [|e l He _ IH]; simpl; lia. }
        rewrite add_ok by lia. simpl. rewrite IH by (auto; lia).
        f_equal. lia. }
    rewrite (Hgen voteData 0 Hall); fold vs; [f_equal; lia | nia | lia]. }
  rewrite Hsum. simpl.
  destruct (Z.eqb_spec (total vs) 0) as [Hz|Hz]; [reflexivity|].
  assert (Hrows : giniRows voteData voteData 0 = Ok 0).
  { rewrite giniRows_ok; fold vs; fold (spread vs);
      rewrite (spread_constant c vs Hvs); [reflexivity|].
    unfold MAX_UINT256. lia. }
  rewrite Hrows, bind_ret.
  rewrite (mul_ok 0 100), bind_ret by (unfold MAX_UINT256; lia).
  rewrite mul_ok, bind_ret by lia. rewrite div_ok by lia.
  reflexivity.
Qed.

Lemma gini_zero_for_equal_votes_witness :
  calculateGiniCoefficient [ mkQuadraticVoteData 4 16 1%N;
                             mkQuadraticVoteData 4 16 2%N;
                             mkQuadraticVoteData 4 16 3%N ] = Ok 0.
Proof.
  apply (gini_zero_for_equal_votes _ 4).
  - lia.
  - repeat constructor.
  - vm_compute. discriminate.
Defined.

(** *** The median *)

Lemma sorted_lookup_le (s : list Z) (i j : nat) (x y : Z) :
  StronglySorted Z.le s -> (i <= j)%nat ->
  s !! i = Some x -> s !! j = Some y -> x <= y.
Proof.
  intros Hs. revert i j. induction Hs as [|a l Hl IH Ha]; intros i j Hij Hi Hj.
  - discriminate Hi.
  - destruct i as [|i], j as [|j]; simpl in *; try lia.
    + injection Hi as <-. injection Hj as <-. lia.
    + injection Hi as <-. rewrite List.Forall_forall in Ha. apply Ha.
      apply list_elem_of_In. eapply list_elem_of_lookup_2. exact Hj.
    + apply (IH i j); [lia | assumption | assumption].
Qed.

Lemma countLe_app (m : Z) (l1 l2 : list Z) :
  countLe m (l1 ++ l2) = (countLe m l1 + countLe m l2)%nat.
Proof. unfold countLe. rewrite List.filter_app, length_app. reflexivity. Qed.

Lemma countGe_app (m : Z) (l1 l2 : list Z) :
  countGe m (l1 ++ l2) = (countGe m l1 + countGe m l2)%nat.
Proof. unfold countGe. rewrite List.filter_app, length_app. reflexivity. Qed.

Lemma countLe_all (m : Z) (l : list Z) :
  Forall (fun x => x <= m) l -> countLe m l = List.length l.
Proof.
  unfold countLe. induction 1 as [|x l Hx _ IH]; simpl; [reflexivity|].
  apply Z.leb_le in Hx. rewrite Hx. simpl. rewrite IH. reflexivity.
Qed.

Lemma countGe_all (m : Z) (l : list Z) :
  Forall (fun x => m <= x) l -> countGe m l = List.length l.
Proof.
  unfold countGe. induction 1 as [|x l Hx _ IH]; simpl; [reflexivity|].
  apply Z.leb_le in Hx. rewrite Hx. simpl. rewrite IH. reflexivity.
Qed.

Lemma countLe_perm (m : Z) (l l' : list Z) :
  Permutation l l' -> countLe m l = countLe m l'.
Proof.
  unfold countLe. induction 1; simpl;
    repeat match goal with
           | |- context [if ?c then _ else _] => destruct c
           end; simpl; congruence.
Qed.

Lemma countGe_perm (m : Z) (l l' : list Z) :
  Permutation l l' -> countGe m l = countGe m l'.
Proof.
  unfold countGe. induction 1; simpl;
    repeat match goal with
           | |- context [if ?c then _ else _] => destruct c
           end; simpl; congruence.
Qed.

(** In a sorted list, everything before index [k] is at most what lies at or
    after an index below [k], and everything from [k] on is at least what
    lies at or before [k]. *)
Lemma sorted_front (s : list Z) (k i : nat) (m x : Z) :
  StronglySorted Z.le s -> (k <= S i)%nat -> s !! i = Some x -> x <= m ->
  (k <= countLe m s)%nat.
Proof.
  intros Hs Hk Hi Hxm.
  assert (Hlen : (i < List.length s)%nat) by (eapply lookup_lt_Some; eauto).
  rewrite <- (take_drop (S i) s), countLe_app.
  rewrite countLe_all.
  - rewrite length_take_le by lia. lia.
  - apply Forall_lookup_2. intros j y Hj.
    apply lookup_take_Some in Hj. destruct Hj as [Hj Hlt].
    pose proof (sorted_lookup_le s j i y x Hs ltac:(lia) Hj Hi). lia.
Qed.

Lemma sorted_back (s : list Z) (i : nat) (m x : Z) :
  StronglySorted Z.le s -> s !! i = Some x -> m <= x ->
  (List.length s - i <= countGe m s)%nat.
Proof.
  intros Hs Hi Hmx.
  rewrite <- (take_drop i s) at 2. rewrite countGe_app.
  rewrite (countGe_all m (drop i s)).
  - rewrite length_drop. lia.
  - apply Forall_lookup_2. intros j y Hj. rewrite lookup_drop in Hj.
    pose proof (sorted_lookup_le s i (i + j) x y Hs ltac:(lia) Hi Hj). lia.
Qed.

(** The median of a sorted array: at least half of the entries are at most
    it, and at least half are at least it. *)
Lemma median_of_sorted (s : list Z) (B : Z) :
  s <> [] -> Sorted Z.le s ->
  Forall (fun x => 0 <= x <= B) s -> 2 * B <= MAX_UINT256 ->
  exists m,
    median s = Ok m
    /\ (List.length s <= 2 * countLe m s)%nat
    /\ (List.length s <= 2 * countGe m s)%nat.
Proof.
  intros Hne Hsorted Hrange HB.
  assert (Hs : StronglySorted Z.le s).
  { apply Sorted_StronglySorted; [|exact Hsorted]. intros a b c. apply Z.le_trans. }
  assert (Hn : (0 < List.length s)%nat) by (destruct s; [contradiction | simpl; lia]).
  unfold median. set (n := List.length s) in *.
  pose proof (Nat.div_mod_eq n 2) as Hdiv.
  pose proof (Nat.mod_upper_bound n 2 ltac:(lia)) as Hmod.
  destruct (Nat.eqb_spec (n mod 2) 0) as [Heven|Hodd].
  - assert (Hh : (1 <= n / 2)%nat) by lia.
    destruct (lookup_lt_is_Some_2 s (n / 2 - 1) ltac:(lia)) as [lo Hlo].
    destruct (lookup_lt_is_Some_2 s (n / 2) ltac:(lia)) as [hi Hhi].
    unfold at_index. rewrite Hlo, Hhi. simpl.
    pose proof (Forall_lookup_1 _ _ _ _ Hrange Hlo) as Hlo_range.
    pose proof (Forall_lookup_1 _ _ _ _ Hrange Hhi) as Hhi_range.
    simpl in Hlo_range, Hhi_range.
    simpl Nat.mul.
    pose proof (sorted_lookup_le s (n / 2 - 1) (n / 2) lo hi Hs ltac:(lia)
                                 Hlo Hhi) as Hle.
    rewrite add_ok by lia. simpl. rewrite div_ok by lia.
    exists ((lo + hi) / 2). split; [reflexivity|].
    assert (Hmid : lo <= (lo + hi) / 2 <= hi).
    { split; [apply Z.div_le_lower_bound | apply Z.div_le_upper_bound]; lia. }
    split.
    + pose proof (sorted_front s (n / 2) (n / 2 - 1) ((lo + hi) / 2) lo Hs
                               ltac:(lia) Hlo ltac:(lia)).
      lia.
    + pose proof (sorted_back s (n / 2) ((lo + hi) / 2) hi Hs Hhi ltac:(lia)).
      fold n in H. lia.
  - destruct (lookup_lt_is_Some_2 s (n / 2) ltac:(lia)) as [mid Hmid].
    unfold at_index. rewrite Hmid. exists mid. split; [reflexivity|]. split.
    + pose proof (sorted_front s (S (n / 2)) (n / 2) mid mid Hs
                               ltac:(lia) Hmid ltac:(lia)).
      lia.
    + pose proof (sorted_back s (n / 2) mid mid Hs Hmid ltac:(lia)).
      fold n in H. lia.
Qed.

Lemma sumTotals_ok (voteData : list QuadraticVoteData) (v c : Z) :
  nonnegative voteData ->
  v + total (map votes voteData) <= MAX_UINT256 ->
  c + total (map cost voteData) <= MAX_UINT256 ->
  sumTotals voteData v c
  = Ok (v + total (map votes voteData), c + total (map cost voteData)).
Proof.
  intros Hnn. revert v c.
  induction Hnn as [|d l [Hv Hc] Hl IH]; intros v c Hvs Hcs.
  - simpl. rewrite !Z.add_0_r. reflexivity.
  - simpl in *.
    assert (0 <= total (map votes l))
      by (apply total_nonneg, nonnegative_votes, Hl).
    assert (0 <= total (map cost l)).
    { apply total_nonneg. clear -Hl.
      induction Hl as [|e l [_ He] _ IH]; simpl; constructor; auto. }
    rewrite add_ok, bind_ret by lia. rewrite add_ok, bind_ret by lia.
    rewrite IH by lia. rewrite !Z.add_assoc. reflexivity.
Qed.

Lemma total_member_le (l : list Z) :
  Forall (fun x => 0 <= x) l -> Forall (fun x => 0 <= x <= total l) l.
Proof.
  induction 1 as [|x l Hx Hl IH]; simpl; constructor.
  - pose proof (total_nonneg l Hl). lia.
  - eapply Forall_impl; [exact IH|]. simpl. intros y Hy. lia.
Qed.

(** X10. For a non-empty array of unsigned vote data whose token costs sum
    within uint256 and for which 100 times voters times total votes fits in
    uint256, analyzeVoteDistribution returns: the total of the votes, the
    number of entries, the total of the costs, the rounded-down average, a
    median (at least half of the entries are at most it, and at least half
    are at least it), and the value of calculateGiniCoefficient. *)
Theorem analyzeVoteDistribution_spec (voteData : list QuadraticVoteData) :
  voteData <> [] ->
  nonnegative voteData ->
  let vs := map votes voteData in
  let n := Z.of_nat (List.length voteData) in
  100 * n * total vs <= MAX_UINT256 ->
  total (map cost voteData) <= MAX_UINT256 ->
  exists a,
    analyzeVoteDistribution voteData = Ok a
    /\ totalVotes a = total vs
    /\ totalVoters a = n
    /\ totalTokensSpent a = total (map cost voteData)
    /\ averageVotesPerVoter a = total vs / n
    /\ (List.length vs <= 2 * countLe (medianVotesPerVoter a) vs)%nat
    /\ (List.length vs <= 2 * countGe (medianVotesPerVoter a) vs)%nat
    /\ calculateGiniCoefficient voteData = Ok (giniCoefficient a).
Proof.
  intros Hne Hnn vs n Hfit Hcost.
  pose proof (nonnegative_votes voteData Hnn) as Hvs. fold vs in Hvs.
  pose proof (total_nonneg vs Hvs) as Ht.
  assert (Hn : 1 <= n).
  { subst n. destruct voteData; [contradiction | simpl List.length; lia]. }
  destruct (gini_returns voteData Hnn Hfit) as [g Hg].
  destruct (bubbleSort_ok vs) as (s & Hrun & Hsorted & Hperm).
  destruct (median_of_sorted s (total vs)) as (m & Hm & Hle & Hge).
  { intros ->. apply Permutation_nil in Hperm. subst vs.
    destruct voteData; [contradiction | discriminate]. }
  { exact Hsorted. }
  { rewrite List.Forall_forall. intros x Hx.
    pose proof (total_member_le vs Hvs) as Hall.
    rewrite List.Forall_forall in Hall. apply Hall.
    eapply Permutation_in; [exact Hperm | exact Hx]. }
  { nia. }
  exists (mkVoteAnalysis (total vs) n (total (map cost voteData))
                         (total vs / n) m g).
  split; [|simpl; repeat split; try assumption].
  - unfold analyzeVoteDistribution. fold n.
    destruct (Z.eqb_spec n 0) as [|_]; [lia|].
    rewrite sumTotals_ok, bind_ret by (try assumption; fold vs; nia).
    simpl fst. simpl snd. rewrite !Z.add_0_l. fold vs.
    destruct (Z.ltb_spec 0 n) as [_|]; [|lia].
    rewrite div_ok, bind_ret by lia.
    rewrite Hrun, bind_ret, Hm, bind_ret, Hg, bind_ret. reflexivity.
  - rewrite <- (countLe_perm m s vs Hperm).
    rewrite <- (Permutation_length Hperm). exact Hle.
  - rewrite <- (countGe_perm m s vs Hperm).
    rewrite <- (Permutation_length Hperm). exact Hge.
Qed.

Lemma analyzeVoteDistribution_spec_witness :
  let voteData := [ mkQuadraticVoteData 5 25 1%N;
                    mkQuadraticVoteData 1 1 2%N;
                    mkQuadraticVoteData 3 9 3%N;
                    mkQuadraticVoteData 2 4 4%N ] in
  exists a,
    analyzeVoteDistribution voteData = Ok a
    /\ totalVotes a = 11 /\ totalTokensSpent a = 39
    /\ averageVotesPerVoter a = 2.
Proof.
  intros voteData.
  destruct (analyzeVoteDistribution_spec voteData)
    as (a & Hrun & Hv & _ & Hc & Havg & _).
  - discriminate.
  - repeat constructor; simpl; lia.
  - vm_compute. discriminate.
  - vm_compute. discriminate.
  - exists a. split; [exact Hrun|]. split; [exact Hv|].
    split; [exact Hc | exact Havg].
Defined.

End VoteDistribution.

(** ** DAOGovernance: proposal ids and tallies along a trace *)

Section GovernanceInvariants.

Import DAOGovernance Invariants.

Ltac fn_cases :=
  unfold insert, fn_insert; destruct (decide _) as [<-|?].

Ltac step_cases st E :=
  destruct st as [?sender ?now c | ?token];
  [ destruct c; simpl; unfold commit;
    match goal with
    | |- context [match ?r with Ok _ => _ | Err _ => _ end] =>
        destruct r as [?s'|?e] eqn:E;
        [ autounfold with dao in E; ok_steps; subst; simpl | ]
    end
  | simpl ].

Lemma genesis_ordered (token : GovernanceToken.State)
      (self initialOwner : address) :
  ordered (genesis token self initialOwner).
Proof.
  split; [|split]; simpl; intros; try lia. reflexivity.
Qed.

Lemma step_ordered (s : State) (st : Step) :
  ordered s -> ordered (step s st).
Proof.
  intros (Hcount & Hid & Hempty).
  step_cases st E; try (split; [|split]; assumption);
    try match goal with
        | H : proposalExists _ _ = Ok _ |- _ => apply proposalExists_inv in H
        end;
    unfold ordered; simpl; (split; [lia | split]); intros i Hi.
  - (* propose *) fn_cases; [reflexivity|]. apply Hid. lia.
  - fn_cases; [lia|]. apply Hempty. lia.
  - (* vote *) fn_cases; [simpl; apply Hid; lia | apply Hid; lia].
  - fn_cases; [lia | apply Hempty; lia].
  - (* executeProposal *)
    fn_cases; [simpl; apply Hid; lia | apply Hid; lia].
  - fn_cases; [lia | apply Hempty; lia].
  - (* cancelProposal *)
    fn_cases; [simpl; apply Hid; lia | apply Hid; lia].
  - fn_cases; [lia | apply Hempty; lia].
Qed.

Lemma run_ordered (trace : list Step) (s : State) :
  ordered s -> ordered (run trace s).
Proof.
  revert s. induction trace as [|st trace IH]; intros s H; [exact H|].
  rewrite run_cons. apply IH, step_ordered, H.
Qed.

(** X11. In every state reached from deployment, a successful propose
    returns the next id in sequence and stores under it a proposal with the
    caller as proposer, voting from now + votingDelay for votingPeriod, no
    votes, no voters and both flags clear; no other proposal is touched and
    the caller's lastProposalTime becomes now. *)
Theorem propose_opens_clean_proposal
        (trace : list Step) (token : GovernanceToken.State)
        (self initialOwner sender : address) (now pid : Z)
        (title_ ipfsHash_ : string) (s1 : State) :
  let s := run trace (genesis token self initialOwner) in
  propose sender now title_ ipfsHash_ s = Ok (s1, pid) ->
  pid = proposalCount s + 1
  /\ proposalCount s1 = pid
  /\ proposals s1 pid
     = mkProposal pid sender title_ ipfsHash_
                  (now + votingDelay (votingConfig s))
                  (now + votingDelay (votingConfig s)
                   + votingPeriod (votingConfig s))
                  0 0 false false (fun _ => 0) (fun _ => false)
  /\ (forall i, i <> pid -> proposals s1 i = proposals s i)
  /\ lastProposalTime s1 sender = now.
Proof.
  intros s Hrun.
  destruct (run_ordered trace _ (genesis_ordered token self initialOwner))
    as (Hcount & _ & Hempty). fold s in Hcount, Hempty. clearbody s.
  unfold propose in Hrun. ok_steps. subst. simpl.
  split; [reflexivity|]. split; [reflexivity|]. split; [|split].
  - rewrite fn_lookup_insert.
    rewrite (Hempty (proposalCount s + 1)) by lia. reflexivity.
  - intros i Hi. apply fn_lookup_insert_ne. congruence.
  - apply fn_lookup_insert.
Qed.

Lemma propose_opens_clean_proposal_witness :
  exists s1,
    propose Scenario.alice Scenario.t0 "Fund Open Source Library" "QmTest"
            Scenario.s0 = Ok (s1, 1)
    /\ totalVotes (proposals s1 1) = 0
    /\ startTime (proposals s1 1) = Scenario.t0 + 1 * days.
Proof.
  eexists. split; [vm_compute; reflexivity|].
  match goal with
  | |- totalVotes (proposals ?s1 1) = _ /\ _ =>
      pose proof (propose_opens_clean_proposal
                    [] Scenario.token0 Scenario.gov Scenario.admin
                    Scenario.alice Scenario.t0 1
                    "Fund Open Source Library" "QmTest" s1
                    ltac:(vm_compute; reflexivity))
        as (_ & _ & Hp & _)
  end.
  rewrite Hp. split; reflexivity.
Defined.



(** *** The tallies of a proposal *)

Lemma genesis_counted (token : GovernanceToken.State)
      (self initialOwner : address) (pid : Z) :
  counted [] (proposals (genesis token self initialOwner) pid).
Proof.
  unfold counted. simpl. split; [constructor|].
  split; [intros a; split; [discriminate | contradiction]|].
  repeat split; auto; contradiction.
Qed.

Lemma counted_vote (voters : list address) (p : Proposal) (a : address)
      (n tv tn : Z) :
  counted voters p -> hasVoted p a = false -> 0 < n ->
  tv = totalVotes p + n -> tn = totalVoters p + 1 ->
  counted (a :: voters)
          (mkProposal (id p) (proposer p) (title p) (ipfsHash p)
                      (startTime p) (endTime p) tv tn (executed p)
                      (cancelled p) (<[a := n]> (votes p))
                      (<[a := true]> (hasVoted p))).
Proof.
  intros (Hnd & Hvoted & Hzero & Hpos & Hsum & Hlen) Ha Hn -> ->.
  assert (Hfresh : ~ In a voters).
  { intros Hin. apply Hvoted in Hin. congruence. }
  unfold counted. simpl. split; [constructor; assumption|].
  split; [|split; [|split; [|split]]].
  - intros b. unfold insert, fn_insert. destruct (decide (a = b)) as [->|Hab].
    + split; auto.
    + rewrite Hvoted. split; [auto | intros [?|?]; [contradiction | auto]].
  - intros b Hb. unfold insert, fn_insert.
    destruct (decide (a = b)) as [->|Hab]; [exfalso; apply Hb; auto|].
    apply Hzero. intros Hin. apply Hb. auto.
  - intros b Hb. unfold insert, fn_insert.
    destruct (decide (a = b)) as [->|Hab]; [exact Hn|].
    apply Hpos. destruct Hb as [?|?]; [contradiction | assumption].
  - rewrite fn_lookup_insert.
    rewrite (sumOver_ext voters (<[a := n]> (votes p)) (votes p)); [lia|].
    intros b Hb. apply fn_lookup_insert_ne. intros ->. contradiction.
  - rewrite Hlen. lia.
Qed.

Lemma step_counted (s : State) (st : Step) (pid : Z)
      (voters : list address) :
  counted voters (proposals s pid) ->
  exists voters', counted voters' (proposals (step s st) pid).
Proof.
  intros Hc.
  step_cases st E; try (exists voters; exact Hc).
  - (* propose *)
    fn_cases; exists voters; exact Hc.
  - (* vote *)
    fn_cases; [|exists voters; exact Hc].
    exists (sender :: voters).
    apply counted_vote; try assumption; try reflexivity.
    + apply negb_true_iff. assumption.
    + apply Z.ltb_lt. assumption.
  - fn_cases; exists voters; exact Hc.
  - fn_cases; exists voters; exact Hc.
Qed.

Lemma run_counted (trace : list Step) (s : State) (pid : Z)
      (voters : list address) :
  counted voters (proposals s pid) ->
  exists voters', counted voters' (proposals (run trace s) pid).
Proof.
  revert s voters. induction trace as [|st trace IH]; intros s voters H.
  - exists voters. exact H.
  - rewrite run_cons. destruct (step_counted s st pid voters H) as [v' H'].
    exact (IH _ v' H').
Qed.

(** X13. In every state reached from deployment, the tallies of every
    proposal are those of the recorded votes: there is a duplicate-free list
    of exactly the accounts marked as having voted, totalVotes is the sum of
    what is recorded for them, totalVoters is their number, each of them
    has a positive vote and everybody else none. *)
Theorem tallies_count_the_votes
        (trace : list Step) (token : GovernanceToken.State)
        (self initialOwner : address) (pid : Z) :
  exists voters,
    counted voters
            (proposals (run trace (genesis token self initialOwner)) pid).
Proof.
  exact (run_counted trace _ pid [] (genesis_counted token self initialOwner
                                                     pid)).
Qed.

(** *** The quorum of the constructor *)

Lemma step_capped (s : State) (st : Step) :
  changesConfig st = false ->
  votingConfig s = defaultConfig ->
  (forall pid,
      let p := proposals s pid in
      0 <= totalVoters p
      /\ totalVotes p <= 10000 * totalVoters p
      /\ (executed p = true -> 100000 * ether <= totalVotes p)) ->
  votingConfig (step s st) = defaultConfig
  /\ (forall pid,
         let p := proposals (step s st) pid in
         0 <= totalVoters p
         /\ totalVotes p <= 10000 * totalVoters p
         /\ (executed p = true -> 100000 * ether <= totalVotes p)).
Proof.
  intros Hst Hcfg Hinv.
  step_cases st E; try discriminate Hst; try (split; assumption);
    (split; [assumption|]); intros pid; specialize (Hinv pid);
    simpl in Hinv; fn_cases; simpl; try exact Hinv.
  - (* vote *)
    rewrite Hcfg in *. simpl in *.
    repeat match goal with
           | H : (_ <? _) = true |- _ => apply Z.ltb_lt in H
           | H : (_ <=? _) = true |- _ => apply Z.leb_le in H
           end.
    destruct Hinv as (Hnn & Hcap & Hex).
    split; [lia | split; [lia|]]. intros Hx. specialize (Hex Hx). lia.
  - (* executeProposal *)
    rewrite Hcfg in *. simpl in *.
    repeat match goal with
           | H : (_ <=? _) = true |- _ => apply Z.leb_le in H
           end.
    destruct Hinv as (Hnn & Hcap & Hex). split; [lia | split; [lia|]].
    intros _. assumption.
Qed.

Lemma run_capped (trace : list Step) (s : State) :
  keepsConfig trace = true ->
  votingConfig s = defaultConfig ->
  (forall pid,
      let p := proposals s pid in
      0 <= totalVoters p
      /\ totalVotes p <= 10000 * totalVoters p
      /\ (executed p = true -> 100000 * ether <= totalVotes p)) ->
  forall pid,
    let p := proposals (run trace s) pid in
    0 <= totalVoters p
    /\ totalVotes p <= 10000 * totalVoters p
    /\ (executed p = true -> 100000 * ether <= totalVotes p).
Proof.
  revert s. induction trace as [|st trace IH]; intros s Hk Hcfg Hinv.
  - exact Hinv.
  - simpl in Hk. apply andb_true_iff in Hk. destruct Hk as [Hst Hk].
    apply negb_true_iff in Hst.
    destruct (step_capped s st Hst Hcfg Hinv) as [Hcfg' Hinv'].
    rewrite run_cons. exact (IH _ Hk Hcfg' Hinv').
Qed.

(** X14. As long as nobody calls updateVotingConfig, a proposal on which
    fewer than 10^19 accounts have voted is not executed: every vote adds at
    most maxVotesPerWallet = 10000 to totalVotes, which executeProposal
    compares with the quorumThreshold of 100000 * 10^18 that the constructor
    sets. *)
Theorem default_quorum_needs_voters
        (trace : list Step) (token : GovernanceToken.State)
        (self initialOwner : address) (pid : Z) :
  let p := proposals (run trace (genesis token self initialOwner)) pid in
  keepsConfig trace = true ->
  totalVoters p < 10 ^ 19 ->
  executed p = false.
Proof.
  intros p Hk Hfew.
  destruct (run_capped trace (genesis token self initialOwner) Hk
                       eq_refl) with (pid := pid) as (H0 & Hcap & Hex).
  { intros i. simpl. split; [lia | split; [lia | discriminate]]. }
  fold p in H0, Hcap, Hex.
  destruct (executed p) eqn:Ep; [|reflexivity].
  specialize (Hex eq_refl). unfold ether in Hex. lia.
Qed.

Lemma default_quorum_needs_voters_witness :
  let trace := [ Tx Scenario.alice Scenario.t0
                    (Propose "Fund Open Source Library" "QmTest");
                 Tx Scenario.bob Scenario.t1 (Vote 1 4);
                 Tx Scenario.admin Scenario.t2 (ExecuteProposal 1) ] in
  let p := proposals (run trace Scenario.s0) 1 in
  totalVoters p = 1 /\ executed p = false.
Proof.
  intros trace p. split; [vm_compute; reflexivity|].
  apply (default_quorum_needs_voters trace Scenario.token0 Scenario.gov
                                     Scenario.admin 1).
  - reflexivity.
  - vm_compute. reflexivity.
Defined.

(** *** Pausing and ownership *)

(** X15. While the contract is paused no transaction creates a proposal,
    records a vote, burns tokens or moves a delegation: the proposal count,
    the token ledger, the delegation edges and tallies, the proposers'
    timestamps and the votes and tallies of every proposal stay as they
    are. *)
Theorem paused_contract_is_frozen (s : State) (sender : address) (now : Z)
        (c : Call) :
  paused s = true ->
  let s' := step s (Tx sender now c) in
  proposalCount s' = proposalCount s
  /\ governanceToken s' = governanceToken s
  /\ (forall a, delegatedTo s' a = delegatedTo s a
                /\ delegatedVotes s' a = delegatedVotes s a
                /\ lastProposalTime s' a = lastProposalTime s a)
  /\ (forall pid a,
         let p := proposals s pid in
         let p' := proposals s' pid in
         totalVotes p' = totalVotes p /\ totalVoters p' = totalVoters p
         /\ votes p' a = votes p a /\ hasVoted p' a = hasVoted p a).
Proof.
  intros Hp s'. subst s'.
  destruct c; simpl; unfold commit;
    match goal with
    | |- context [match ?r with Ok _ => _ | Err _ => _ end] =>
        destruct r as [s'|e] eqn:E; [|auto 10]
    end;
    autounfold with dao in E; unfold whenNotPaused in E;
    rewrite ?Hp in E; simpl in E; ok_steps; subst; simpl; try discriminate;
    try (repeat split; reflexivity);
    (split; [reflexivity|]); (split; [reflexivity|]);
    (split; [auto|]); intros pid a; fn_cases; simpl; auto.
Qed.

Lemma paused_contract_is_frozen_witness :
  let s := step Scenario.s1 (Tx Scenario.admin Scenario.t1 Pause) in
  let s' := step s (Tx Scenario.bob Scenario.t1 (Vote 1 4)) in
  paused s = true /\ totalVotes (proposals s' 1) = 0.
Proof.
  intros s s'. split; [reflexivity|].
  destruct (paused_contract_is_frozen s Scenario.bob Scenario.t1 (Vote 1 4)
                                      eq_refl) as (_ & _ & _ & Hprop).
  destruct (Hprop 1 Scenario.bob) as (Hv & _). fold s' in Hv.
  rewrite Hv. vm_compute. reflexivity.
Defined.

(** X16. An account that is not the owner cannot change the owner, the
    pause flag, the voting configuration or the treasury managers, cannot
    mark a proposal executed, and can cancel only proposals it proposed; if
    it is no treasury manager either, the treasury balance changes only
    through its deposits. *)
Theorem outsider_cannot_govern (s : State) (sender : address) (now : Z)
        (c : Call) :
  sender <> owner s ->
  let s' := step s (Tx sender now c) in
  owner s' = owner s
  /\ paused s' = paused s
  /\ votingConfig s' = votingConfig s
  /\ (forall a, treasuryManagers s' a = treasuryManagers s a)
  /\ (forall pid, executed (proposals s' pid) = executed (proposals s pid))
  /\ (forall pid, proposer (proposals s pid) <> sender ->
                  0 < pid <= proposalCount s ->
                  cancelled (proposals s' pid) = cancelled (proposals s pid))
  /\ (treasuryManagers s sender = false -> isDeposit c = false ->
      treasuryBalance s' = treasuryBalance s).
Proof.
  intros Hno s'. subst s'.
  assert (Hneq : N.eqb sender (owner s) = false) by (apply N.eqb_neq, Hno).
  destruct c; simpl; unfold commit;
    match goal with
    | |- context [match ?r with Ok _ => _ | Err _ => _ end] =>
        destruct r as [s'|e] eqn:E; [|auto 10]
    end;
    autounfold with dao in E;
    unfold onlyOwner, onlyTreasuryManager in E;
    rewrite ?Hneq in E; simpl in E; ok_steps; subst; simpl;
    try discriminate;
    repeat match goal with
           | |- _ /\ _ => split
           end;
    try reflexivity; try (intros; reflexivity); try discriminate.
  - (* propose *) intros pid. fn_cases; reflexivity.
  - intros pid Hp Hpid. fn_cases; [lia | reflexivity].
  - (* vote *) intros pid. fn_cases; reflexivity.
  - intros pid Hp Hpid. fn_cases; reflexivity.
  - (* cancelProposal *) intros pid. fn_cases; reflexivity.
  - intros pid Hp Hpid. fn_cases; [|reflexivity].
    match goal with
    | H : _ || false = true |- _ =>
        rewrite orb_false_r in H; apply N.eqb_eq in H
    end.
    congruence.
  - (* withdrawFromTreasury *)
    intros Hm _.
    match goal with
    | H : _ || false = true |- _ => rewrite Hm in H; discriminate H
    end.
Qed.

Lemma outsider_cannot_govern_witness :
  let s' := step Scenario.s3
                 (Tx Scenario.bob Scenario.t2
                     (UpdateVotingConfig Scenario.lowQuorum)) in
  votingConfig s' = defaultConfig.
Proof.
  intros s'.
  destruct (outsider_cannot_govern
              Scenario.s3 Scenario.bob Scenario.t2
              (UpdateVotingConfig Scenario.lowQuorum))
    as (_ & _ & Hcfg & _).
  - vm_compute. discriminate.
  - fold s' in Hcfg. rewrite Hcfg. reflexivity.
Defined.

(** *** Delegations that can no longer be moved *)

(** X17. When the ledger power of a delegator has grown above the tally of
    its delegatee, the delegation can be neither revoked nor moved: both
    revokeDelegation and delegateVotes subtract the delegator's current
    power from the tally and stop with the arithmetic panic. *)
Theorem delegation_stuck_when_power_grows (s : State) (a d : address) :
  paused s = false ->
  delegatedTo s a = d -> d <> zero_address ->
  delegatedVotes s d
  < GovernanceToken.getVotingPower (governanceToken s) a ->
  revokeDelegation a s = Err OVERFLOW
  /\ (forall d', d' <> zero_address -> d' <> a ->
                 delegateVotes a d' s = Err OVERFLOW).
Proof.
  intros Hp Hd Hnz Hlt.
  assert (Hz : is_zero d = false) by (apply N.eqb_neq, Hnz).
  assert (Hsub : sub (delegatedVotes s d)
                     (GovernanceToken.getVotingPower (governanceToken s) a)
                 = Err OVERFLOW).
  { unfold sub. destruct (Z.leb_spec
      (GovernanceToken.getVotingPower (governanceToken s) a)
      (delegatedVotes s d)); [lia | reflexivity]. }
  split.
  - unfold revokeDelegation, whenNotPaused. rewrite Hp, Hd, Hz. simpl.
    rewrite Hsub. reflexivity.
  - intros d' Hd' Hself.
    unfold delegateVotes, whenNotPaused. rewrite Hp, Hd, Hz. simpl.
    assert (is_zero d' = false) as -> by (apply N.eqb_neq, Hd').
    assert (N.eqb d' a = false) as -> by (apply N.eqb_neq, Hself).
    simpl. rewrite Hsub. reflexivity.
Qed.

Lemma delegation_stuck_when_power_grows_witness :
  let richer :=
    GovernanceToken.mkState
      Scenario.holdings (fun _ _ => 0) (fun a => a)
      (fun a => if N.eqb a Scenario.carol then 4000 * ether
                else Scenario.holdings a)
      false in
  let s := step Scenario.delegated (LedgerActivity richer) in
  delegatedTo s Scenario.carol = Scenario.bob
  /\ revokeDelegation Scenario.carol s = Err OVERFLOW.
Proof.
  intros richer s. split; [vm_compute; reflexivity|].
  refine (proj1 (delegation_stuck_when_power_grows
                   s Scenario.carol Scenario.bob _ _ _ _)).
  - vm_compute. reflexivity.
  - vm_compute. reflexivity.
  - discriminate.
  - vm_compute. reflexivity.
Defined.

(** *** Who pays for a vote *)

(** X18. Delegated power never pays for a vote: whenever vote goes through,
    its cost votes * votes * 10^18 is covered by the voter's own token
    balance and by the allowance the voter has given the governance
    contract; the allowance goes down by the cost, no other account's
    balance changes, and the delegation edges and tallies stay as they
    are. *)
Theorem delegated_power_never_pays (s s' : State) (sender : address)
        (now pid v : Z) :
  vote sender now pid v s = Ok s' ->
  let cost := v * v * 10 ^ 18 in
  let token := governanceToken s in
  let token' := governanceToken s' in
  10 ^ 18 <= cost
  /\ cost <= GovernanceToken.balanceOf token sender
  /\ cost <= GovernanceToken.allowance token sender (this s)
  /\ GovernanceToken.allowance token' sender (this s)
     = GovernanceToken.allowance token sender (this s) - cost
  /\ (forall a, a <> sender ->
                GovernanceToken.balanceOf token' a
                = GovernanceToken.balanceOf token a)
  /\ (forall a, delegatedTo s' a = delegatedTo s a
                /\ delegatedVotes s' a = delegatedVotes s a).
Proof.
  intros H cost token token'. subst cost token token'.
  unfold vote in H. ok_steps. subst. simpl.
  match goal with
  | H : GovernanceToken.burnFrom _ _ _ _ = Ok _ |- _ =>
      unfold GovernanceToken.burnFrom, GovernanceToken._approve,
        GovernanceToken._burn in H
  end.
  ok_steps; subst; simpl in *;
    repeat match goal with
           | H : (_ <? _) = true |- _ => apply Z.ltb_lt in H
           | H : (_ <=? _) = true |- _ => apply Z.leb_le in H
           end;
    rewrite ?fn_lookup_insert; simpl; rewrite ?fn_lookup_insert;
    (split; [nia|]); (split; [lia|]); (split; [lia|]);
    (split; [reflexivity|]);
    (split; [intros a Ha; apply fn_lookup_insert_ne; congruence | auto]).
Qed.

Lemma delegated_power_never_pays_witness :
  16 * 10 ^ 18
  <= GovernanceToken.allowance (governanceToken Scenario.s1) Scenario.bob
                               (this Scenario.s1)
  /\ GovernanceToken.balanceOf (governanceToken Scenario.s2) Scenario.alice
     = GovernanceToken.balanceOf (governanceToken Scenario.s1) Scenario.alice.
Proof.
  destruct (delegated_power_never_pays
              Scenario.s1 Scenario.s2 Scenario.bob Scenario.t1 1 4)
    as (_ & _ & Hallow & _ & Hothers & _).
  - vm_compute. reflexivity.
  - split; [exact Hallow|]. apply Hothers. discriminate.
Defined.

End GovernanceInvariants.

(** ** DAOTreasury: what is allocated, and to what *)

Section TreasuryBooks.

Import DAOTreasury Books Analytics.
Local Open Scope list_scope.

Lemma total_app (l1 l2 : list Z) : total (l1 ++ l2) = total l1 + total l2.
Proof. induction l1 as [|x l1 IH]; simpl; lia. Qed.

Lemma total_map_ext {K : Type} (l : list K) (f g : K -> Z) :
  (forall k, In k l -> f k = g k) -> total (map f l) = total (map g l).
Proof.
  induction l as [|x l IH]; intros H; simpl; [reflexivity|].
  rewrite (H x) by (left; reflexivity).
  rewrite IH; [reflexivity|]. intros k Hk. apply H. right. exact Hk.
Qed.

Lemma total_map_change {K : Type} (l : list K) (f g : K -> Z) (k : K) :
  List.NoDup l -> In k l -> (forall j, j <> k -> g j = f j) ->
  total (map g l) = total (map f l) - f k + g k.
Proof.
  intros Hnd Hin Hsame. induction Hnd as [|x l Hx Hnd IH]; [destruct Hin|].
  simpl. destruct Hin as [-> | Hin].
  - rewrite (total_map_ext l g f); [lia|].
    intros j Hj. apply Hsame. intros ->. contradiction.
  - rewrite (IH Hin). rewrite (Hsame x); [lia|].
    intros ->. contradiction.
Qed.

Lemma total_map_nonneg {K : Type} (l : list K) (f : K -> Z) :
  (forall k, 0 <= f k) -> 0 <= total (map f l).
Proof. intros H. induction l as [|x l IH]; simpl; [lia|]. specialize (H x). lia. Qed.

Lemma total_map_member {K : Type} (l : list K) (f : K -> Z) (k : K) :
  (forall j, 0 <= f j) -> In k l -> f k <= total (map f l).
Proof.
  intros H. induction l as [|x l IH]; intros Hin; [destruct Hin|].
  simpl. pose proof (total_map_nonneg l f H). pose proof (H x).
  destruct Hin as [-> | Hin]; [lia|]. specialize (IH Hin). lia.
Qed.

Lemma executionIds_In (s : State) (i : Z) :
  In i (executionIds s) <-> 0 < i <= totalProposalExecutions s.
Proof.
  unfold executionIds. rewrite in_map_iff. split.
  - intros (n & <- & Hn). apply in_seq in Hn. lia.
  - intros Hi. exists (Z.to_nat i). split; [lia|]. apply in_seq. lia.
Qed.

Lemma executionIds_NoDup (s : State) : List.NoDup (executionIds s).
Proof.
  unfold executionIds. apply Finite.Injective_map_NoDup.
  - intros a b. lia.
  - apply seq_NoDup.
Qed.

Lemma executionIds_next (s : State) (n : Z) :
  0 <= totalProposalExecutions s ->
  map Z.of_nat (seq 1 (Z.to_nat (totalProposalExecutions s + 1)))
  = executionIds s ++ [totalProposalExecutions s + 1].
Proof.
  intros H. unfold executionIds.
  replace (Z.to_nat (totalProposalExecutions s + 1))
    with (Z.to_nat (totalProposalExecutions s) + 1)%nat by lia.
  rewrite seq_app, map_app. simpl. f_equal. f_equal. lia.
Qed.

(** *** How the two sums move *)

Lemma pending_same (t : address) (s s' : State) :
  totalProposalExecutions s' = totalProposalExecutions s ->
  proposalExecutions s' = proposalExecutions s ->
  pending t s' = pending t s.
Proof.
  intros Ht Hx. unfold pending, executionIds, pendingAmount.
  rewrite Ht, Hx. reflexivity.
Qed.

Lemma budgeted_same (t : address) (s s' : State) :
  budgetCategories s' = budgetCategories s ->
  budgetAllocations s' = budgetAllocations s ->
  budgeted t s' = budgeted t s.
Proof.
  intros Hc Hb. unfold budgeted, budgetAmount. rewrite Hc, Hb. reflexivity.
Qed.

Lemma pending_scheduled (t : address) (s s' : State)
      (x : ProposalExecution) :
  0 <= totalProposalExecutions s ->
  totalProposalExecutions s' = totalProposalExecutions s + 1 ->
  proposalExecutions s'
  = <[totalProposalExecutions s + 1 := x]> (proposalExecutions s) ->
  executed x = false ->
  pending t s'
  = pending t s + (if N.eqb (execToken x) t then amount x else 0).
Proof.
  intros H0 Ht Hx Hfresh. unfold pending at 1. unfold executionIds.
  rewrite Ht, (executionIds_next s 0 H0), map_app, total_app.
  simpl. unfold pendingAmount at 2. rewrite Hx, fn_lookup_insert, Hfresh.
  simpl. rewrite Z.add_0_r. f_equal.
  apply total_map_ext. intros i Hi. apply executionIds_In in Hi.
  unfold pendingAmount. rewrite Hx, fn_lookup_insert_ne by lia. reflexivity.
Qed.

Lemma pending_changed (t : address) (s s' : State) (i : Z)
      (x : ProposalExecution) :
  0 < i <= totalProposalExecutions s ->
  totalProposalExecutions s' = totalProposalExecutions s ->
  proposalExecutions s' = <[i := x]> (proposalExecutions s) ->
  pending t s'
  = pending t s - pendingAmount t s i
    + (if negb (executed x) && N.eqb (execToken x) t then amount x else 0).
Proof.
  intros Hi Ht Hx. unfold pending. unfold executionIds at 1. rewrite Ht.
  fold (executionIds s).
  rewrite (total_map_change (executionIds s) (pendingAmount t s)
                            (pendingAmount t s') i).
  - f_equal. unfold pendingAmount. rewrite Hx, fn_lookup_insert. reflexivity.
  - apply executionIds_NoDup.
  - apply executionIds_In, Hi.
  - intros j Hj. unfold pendingAmount.
    rewrite Hx, fn_lookup_insert_ne by congruence. reflexivity.
Qed.

Lemma budgeted_created (t : address) (s s' : State) (c : string)
      (b : BudgetAllocation) :
  ~ In c (budgetCategories s) ->
  budgetCategories s' = budgetCategories s ++ [c] ->
  budgetAllocations s' = <[c := b]> (budgetAllocations s) ->
  budgeted t s'
  = budgeted t s + (if N.eqb (budgetToken b) t then remainingBudget b else 0).
Proof.
  intros Hnew Hc Hb. unfold budgeted at 1. rewrite Hc, map_app, total_app.
  simpl. unfold budgetAmount at 2. rewrite Hb, fn_lookup_insert.
  rewrite Z.add_0_r. f_equal.
  apply total_map_ext. intros k Hk. unfold budgetAmount.
  rewrite Hb, fn_lookup_insert_ne; [reflexivity|]. intros ->. contradiction.
Qed.

Lemma budgeted_changed (t : address) (s s' : State) (c : string)
      (b : BudgetAllocation) :
  List.NoDup (budgetCategories s) -> In c (budgetCategories s) ->
  budgetCategories s' = budgetCategories s ->
  budgetAllocations s' = <[c := b]> (budgetAllocations s) ->
  budgeted t s'
  = budgeted t s - budgetAmount t s c
    + (if N.eqb (budgetToken b) t then remainingBudget b else 0).
Proof.
  intros Hnd Hin Hc Hb. unfold budgeted. rewrite Hc.
  rewrite (total_map_change (budgetCategories s) (budgetAmount t s)
                            (budgetAmount t s') c Hnd Hin).
  - f_equal. unfold budgetAmount. rewrite Hb, fn_lookup_insert. reflexivity.
  - intros j Hj. unfold budgetAmount.
    rewrite Hb, fn_lookup_insert_ne by congruence. reflexivity.
Qed.


Lemma budgeted_nonneg (t : address) (s : State) :
  (forall c, budgetBalanced (budgetAllocations s c)) -> 0 <= budgeted t s.
Proof.
  intros H. apply total_map_nonneg. intros c. unfold budgetAmount.
  destruct (N.eqb _ _); [apply H | lia].
Qed.

(** *** The books stay sound *)

(** A call that writes neither executions nor budgets and leaves what is
    allocated alone. *)
Lemma sound_frame (s s' : State) :
  sound s ->
  totalProposalExecutions s' = totalProposalExecutions s ->
  proposalExecutions s' = proposalExecutions s ->
  budgetCategories s' = budgetCategories s ->
  budgetAllocations s' = budgetAllocations s ->
  (forall t, allocated (tokenBalances s' t) = allocated (tokenBalances s t)
             /\ inRange (tokenBalances s' t)
             /\ (supported t s' = false -> supported t s = false)) ->
  sound s'.
Proof.
  intros (Hb & Hun & Hn & Ham & Hcat & Hbud & Hrange) Ht Hx Hc Hbb Htb.
  unfold sound. rewrite Ht, Hx, Hbb.
  split; [|split; [|split; [|split; [|split; [|split]]]]];
    try assumption.
  - intros t. destruct (Htb t) as (-> & _).
    rewrite (pending_same t s s' Ht Hx), (budgeted_same t s s' Hc Hbb).
    apply Hb.
  - intros t Hs. destruct (Htb t) as (-> & _ & Hsup). apply Hun, Hsup, Hs.
  - unfold categoriesListed in *. rewrite Hc, Hbb. exact Hcat.
  - intros t. apply Htb.
Qed.

Lemma inRange_credit (tb : TokenBalance) (tk : address) (v : Z) :
  inRange tb -> 0 < v -> balance tb + v <= MAX_UINT256 ->
  inRange (mkTokenBalance tk (balance tb + v) (allocated tb)
                          (available tb + v)).
Proof. unfold inRange, consistent. simpl. lia. Qed.

Ltac bools :=
  repeat match goal with
         | H : _ && _ = true |- _ => apply andb_prop in H; destruct H
         | H : _ || _ = true |- _ => apply orb_prop in H
         | H : (_ <? _) = true |- _ => apply Z.ltb_lt in H
         | H : (_ <=? _) = true |- _ => apply Z.leb_le in H
         | H : negb _ = true |- _ => apply negb_true_iff in H
         end.

Lemma sound_executed (s : State) (i : Z) (x' : ProposalExecution)
      (tb' : TokenBalance) :
  sound s ->
  0 < i <= totalProposalExecutions s ->
  let x := proposalExecutions s i in
  let tb := tokenBalances s (execToken x) in
  executed x = false ->
  execToken x' = execToken x -> amount x' = amount x ->
  token tb' = token tb -> available tb' = available tb ->
  (executed x' = true /\ amount x <= allocated tb
   /\ balance tb' = balance tb - amount x
   /\ allocated tb' = allocated tb - amount x)
  \/ (executed x' = false /\ balance tb' = balance tb
      /\ allocated tb' = allocated tb) ->
  sound (set_tokenBalance (execToken x) tb' (set_execution i x' s)).
Proof.
  intros (Hb & Hun & Hn & Ham & (Hnd & Hcat) & Hbud & Hrange) Hi x tb
         Hfresh Htok Hamt Htk Hav Hcases.
  set (s1 := set_tokenBalance (execToken x) tb' (set_execution i x' s)).
  assert (Hp : forall t, pending t s1
                         = pending t s - pendingAmount t s i
                           + (if negb (executed x')
                                 && N.eqb (execToken x') t
                              then amount x' else 0))
    by (intros t; apply pending_changed; auto).
  assert (Hq : forall t, budgeted t s1 = budgeted t s)
    by (intros t; apply budgeted_same; reflexivity).
  assert (Hpa : forall t, pendingAmount t s i
                          = if N.eqb (execToken x) t then amount x else 0).
  { intros t. unfold pendingAmount. fold x. rewrite Hfresh. reflexivity. }
  pose proof (Ham i) as Hamount. fold x in Hamount.
  destruct (Hrange (execToken x)) as (Hc & Havail & Halloc & Hmax).
  fold tb in Hc, Havail, Halloc, Hmax. unfold consistent in Hc.
  unfold sound. split; [|split; [|split; [|split; [|split; [|split]]]]].
  - intros t. rewrite Hp, Hq, Hpa, Htok, Hamt. subst s1. simpl.
    unfold insert, fn_insert.
    destruct (decide (execToken x = t)) as [<-|Hne]; simpl.
    + rewrite N.eqb_refl, andb_true_r. fold tb.
      pose proof (Hb (execToken x)) as Hbt. fold tb in Hbt.
      destruct Hcases as [(-> & _ & _ & ->) | (-> & _ & ->)]; simpl; lia.
    + apply N.eqb_neq in Hne. rewrite Hne, andb_false_r.
      rewrite (Hb t). lia.
  - intros t. subst s1. unfold supported. simpl. unfold insert, fn_insert.
    destruct (decide (execToken x = t)) as [<-|Hne]; simpl; [|apply Hun].
    rewrite Htk. intros Hno.
    assert (Hz : allocated tb = 0) by (apply Hun; exact Hno).
    destruct Hcases as [(_ & ? & _ & ->) | (_ & _ & ->)]; lia.
  - exact Hn.
  - intros j. subst s1. simpl. unfold insert, fn_insert.
    destruct (decide _); [rewrite Hamt; exact Hamount | apply Ham].
  - exact (conj Hnd Hcat).
  - exact Hbud.
  - intros t. subst s1. simpl. unfold insert, fn_insert.
    destruct (decide (execToken x = t)) as [<-|Hne]; [|apply Hrange].
    unfold inRange, consistent. rewrite Hav.
    destruct Hcases as [(_ & ? & -> & ->) | (_ & -> & ->)]; lia.
Qed.

Lemma sound_budget_created (s : State) (c : string) (t : address)
      (value : Z) :
  sound s ->
  0 < value ->
  supported t s = true ->
  active (budgetAllocations s c) = false ->
  let tb := tokenBalances s t in
  value <= available tb ->
  sound (push_budgetCategory c
           (set_budget c (mkBudgetAllocation c t value 0 value true)
              (set_tokenBalance t
                 (mkTokenBalance (token tb) (balance tb)
                                 (allocated tb + value)
                                 (available tb - value)) s))).
Proof.
  intros (Hb & Hun & Hn & Ham & (Hnd & Hcat) & Hbud & Hrange) Hv Hsup Hact
         tb Havail. subst tb.
  assert (Hnew : ~ In c (budgetCategories s)).
  { intros Hin. apply Hcat in Hin. congruence. }
  match goal with
  | |- sound ?s1 =>
      assert (Hp : forall t', pending t' s1 = pending t' s)
        by (intros t'; apply pending_same; reflexivity);
      assert (Hq : forall t', budgeted t' s1
                              = budgeted t' s
                                + (if N.eqb t t' then value else 0))
        by (intros t';
            apply (budgeted_created
                     t' s s1 c (mkBudgetAllocation c t value 0 value true));
            auto)
  end.
  unfold sound. split; [|split; [|split; [|split; [|split; [|split]]]]].
  - intros t'. rewrite Hp, Hq. simpl. unfold insert, fn_insert.
    destruct (decide (t = t')) as [<-|Hne]; simpl.
    + rewrite N.eqb_refl, (Hb t). lia.
    + apply N.eqb_neq in Hne. rewrite Hne, (Hb t'). lia.
  - intros t'. unfold supported. simpl. unfold insert, fn_insert.
    destruct (decide (t = t')) as [<-|Hne]; simpl; [|apply Hun].
    intros Hno. unfold supported in Hsup. congruence.
  - exact Hn.
  - exact Ham.
  - split; simpl.
    + apply List.NoDup_app; [exact Hnd | |].
      * repeat constructor. intros [].
      * intros k Hk [<-|[]]. contradiction.
    + intros k. rewrite in_app_iff. unfold insert, fn_insert.
      destruct (decide (c = k)) as [<-|Hne]; simpl.
      * split; auto.
      * rewrite Hcat. split; [intros [?|[?|[]]]; [assumption | contradiction]
                             | auto].
  - intros k. simpl. unfold insert, fn_insert.
    destruct (decide (c = k)); [|apply Hbud].
    destruct (Hrange t) as (Hc & Hav & Hal & Hmax).
    unfold budgetBalanced, consistent in *. simpl. lia.
  - intros t'. simpl. unfold insert, fn_insert.
    destruct (decide (t = t')) as [<-|Hne]; [|apply Hrange].
    destruct (Hrange t) as (Hc & Hav & Hal & Hmax).
    unfold inRange, consistent in *. simpl. lia.
Qed.

Lemma sound_spent (s : State) (c : string) (value : Z) :
  sound s ->
  0 < value ->
  let b := budgetAllocations s c in
  let tb := tokenBalances s (budgetToken b) in
  active b = true ->
  value <= remainingBudget b ->
  value <= allocated tb ->
  sound (set_tokenBalance (budgetToken b)
           (mkTokenBalance (token tb) (balance tb - value)
                           (allocated tb - value) (available tb))
           (set_budget c
              (mkBudgetAllocation (category b) (budgetToken b)
                                  (totalBudget b) (spentAmount b + value)
                                  (remainingBudget b - value) (active b))
              s)).
Proof.
  intros (Hb & Hun & Hn & Ham & (Hnd & Hcat) & Hbud & Hrange) Hv b tb Hact
         Hrem Hall.
  assert (Hin : In c (budgetCategories s)) by (apply Hcat; exact Hact).
  match goal with
  | |- sound ?s1 =>
      assert (Hp : forall t', pending t' s1 = pending t' s)
        by (intros t'; apply pending_same; reflexivity);
      assert (Hq : forall t', budgeted t' s1
                              = budgeted t' s - budgetAmount t' s c
                                + (if N.eqb (budgetToken b) t'
                                   then remainingBudget b - value else 0))
        by (intros t';
            apply (budgeted_changed
                     t' s s1 c
                     (mkBudgetAllocation (category b) (budgetToken b)
                                         (totalBudget b)
                                         (spentAmount b + value)
                                         (remainingBudget b - value)
                                         (active b)));
            auto)
  end.
  unfold sound. split; [|split; [|split; [|split; [|split; [|split]]]]].
  - intros t'. rewrite Hp, Hq. unfold budgetAmount. fold b. simpl.
    unfold insert, fn_insert.
    destruct (decide (budgetToken b = t')) as [<-|Hne]; simpl.
    + rewrite N.eqb_refl. fold tb. pose proof (Hb (budgetToken b)) as Hbt.
      fold tb in Hbt. lia.
    + apply N.eqb_neq in Hne. rewrite Hne, (Hb t'). lia.
  - intros t'. unfold supported. simpl. unfold insert, fn_insert.
    destruct (decide (budgetToken b = t')) as [<-|Hne]; simpl; [|apply Hun].
    intros Hno. assert (Hz : allocated tb = 0) by (apply Hun; exact Hno).
    lia.
  - exact Hn.
  - exact Ham.
  - split; [exact Hnd|]. intros k. simpl. unfold insert, fn_insert.
    destruct (decide (c = k)) as [<-|Hne]; simpl; [|apply Hcat].
    fold b. rewrite Hact. split; auto.
  - intros k. simpl. unfold insert, fn_insert.
    destruct (decide (c = k)); [|apply Hbud].
    destruct (Hbud c) as (Ht & Hs0 & Hr0 & Hmx). fold b in Ht, Hs0, Hr0, Hmx.
    unfold budgetBalanced. simpl. lia.
  - intros t'. simpl. unfold insert, fn_insert.
    destruct (decide (budgetToken b = t')) as [<-|Hne]; [|apply Hrange].
    destruct (Hrange (budgetToken b)) as (Hc & Hav & Hal & Hmax).
    fold tb in Hc, Hav, Hal, Hmax.
    unfold inRange, consistent in *. simpl. lia.
Qed.

Lemma call_sound (e : Env) (c : Call) (s s' : State) :
  call e c s = Ok s' -> sound s -> sound s'.
Proof.
  intros E Hs.
  pose proof Hs as (Hb & Hun & Hn & Ham & (Hnd & Hcat) & Hbud & Hrange).
  destruct c; simpl in E; autounfold with treasury in E; ok_steps; subst.
  all: try solve
    [ apply (sound_frame s); try reflexivity; try assumption;
      intros t'; simpl; unfold supported; simpl; unfold insert, fn_insert;
      try destruct (decide _) as [<-|Hne]; simpl;
      (split; [reflexivity|]);
      (split; [first [ apply Hrange
                     | apply inRange_credit; [apply Hrange | bools; lia | lia]]
              | auto]) ].
  - (* addSupportedToken *)
    apply (sound_frame s); try reflexivity; try assumption.
    intros t'. simpl. unfold supported. simpl. unfold insert, fn_insert.
    destruct (decide (t = t')) as [<-|Hne]; simpl.
    + bools. split; [|split].
      * symmetry. apply Hun. unfold supported.
        match goal with H : is_zero (token _) = true |- _ => rewrite H end.
        match goal with H : is_zero t = false |- _ => rewrite H end.
        reflexivity.
      * unfold inRange, consistent. simpl. unfold MAX_UINT256. lia.
      * match goal with H : is_zero t = false |- _ => rewrite H end.
        discriminate.
    + split; [reflexivity | split; [apply Hrange | auto]].
  - (* scheduleProposalExecution *)
    bools.
    match goal with
    | |- sound ?s1 =>
        assert (Hp : forall t', pending t' s1
                                = pending t' s
                                  + (if N.eqb t t' then value else 0))
          by (intros t';
              apply (pending_scheduled
                       t' s s1
                       (mkProposalExecution pid to t value payload false 0));
              auto);
        assert (Hq : forall t', budgeted t' s1 = budgeted t' s)
          by (intros t'; apply budgeted_same; reflexivity)
    end.
    unfold sound. split; [|split; [|split; [|split; [|split; [|split]]]]].
    + intros t'. rewrite Hp, Hq. simpl. unfold insert, fn_insert.
      destruct (decide (t = t')) as [<-|Hne]; simpl.
      * rewrite N.eqb_refl, (Hb t). lia.
      * apply N.eqb_neq in Hne. rewrite Hne, (Hb t'). lia.
    + intros t'. unfold supported. simpl. unfold insert, fn_insert.
      destruct (decide (t = t')) as [<-|Hne]; simpl; [|apply Hun].
      intros Hno. unfold supported in *. congruence.
    + simpl. lia.
    + intros i. simpl. unfold insert, fn_insert.
      destruct (decide _); simpl; [lia | apply Ham].
    + exact (conj Hnd Hcat).
    + exact Hbud.
    + intros t'. simpl. unfold insert, fn_insert.
      destruct (decide (t = t')) as [<-|Hne]; [|apply Hrange].
      destruct (Hrange t) as (Hc & Hav & Hal & Hmax).
      unfold inRange, consistent in *. simpl. lia.
  - (* executeProposal, ether: the transfer went through or failed *)
    bools; simpl; apply sound_executed; auto;
      try solve [ left; repeat split; auto; lia
                | right; simpl; repeat split; lia ].
  - bools; simpl; apply sound_executed; auto;
      try solve [ left; repeat split; auto; lia
                | right; simpl; repeat split; lia ].
  - (* executeProposal, a token *)
    bools; simpl; apply sound_executed; auto;
      try solve [ left; repeat split; auto; lia
                | right; simpl; repeat split; lia ].
  - bools; simpl; apply sound_executed; auto;
      try solve [ left; repeat split; auto; lia
                | right; simpl; repeat split; lia ].
  - (* createBudgetAllocation *)
    bools. apply sound_budget_created; auto.
  - (* spendFromBudget *)
    bools. apply sound_spent; auto.
  - bools. apply sound_spent; auto.
  - (* emergencyWithdraw *) assumption.
  - assumption.
Qed.

Lemma run_sound (trace : list (Env * Call)) (s : State) :
  sound s -> sound (run trace s).
Proof.
  revert s. induction trace as [|tx trace IH]; intros s H; [exact H|].
  simpl. apply IH. unfold step, commit.
  destruct (call (fst tx) (snd tx) s) as [s'|err] eqn:E; [|exact H].
  eapply call_sound; eauto.
Qed.

Lemma genesis_sound (dao initialOwner : address) :
  sound (genesis dao initialOwner).
Proof.
  unfold sound. split; [|split; [|split; [|split; [|split; [|split]]]]].
  - intros t. unfold pending, budgeted. simpl. unfold insert, fn_insert.
    destruct (decide _); reflexivity.
  - intros t _. simpl. unfold insert, fn_insert.
    destruct (decide _); reflexivity.
  - simpl. lia.
  - intros i. simpl. lia.
  - split; simpl; [constructor|]. intros c. split; [intros [] | discriminate].
  - intros c. unfold budgetBalanced. simpl. unfold MAX_UINT256. lia.
  - intros t. simpl. unfold insert, fn_insert, inRange, consistent.
    destruct (decide _); simpl; unfold MAX_UINT256; lia.
Qed.

(** X19. After every sequence of treasury transactions from deployment on,
    what the records show as allocated of an asset is exactly what the
    scheduled executions not yet executed and the remaining budgets hold of
    it. *)
Theorem allocations_are_backed (dao initialOwner : address)
        (trace : list (Env * Call)) (t : address) :
  let s := run trace (genesis dao initialOwner) in
  allocated (tokenBalances s t) = pending t s + budgeted t s.
Proof.
  intros s.
  destruct (run_sound trace _ (genesis_sound dao initialOwner)) as (Hb & _).
  apply Hb.
Qed.

(** X20. After every sequence of treasury transactions from deployment on,
    every budget satisfies totalBudget = spentAmount + remainingBudget with
    neither part negative, and getBudgetCategories lists exactly the active
    categories, each once. *)
Theorem budget_books_balance (dao initialOwner : address)
        (trace : list (Env * Call)) (c : string) :
  let s := run trace (genesis dao initialOwner) in
  let b := budgetAllocations s c in
  totalBudget b = spentAmount b + remainingBudget b
  /\ 0 <= spentAmount b /\ 0 <= remainingBudget b
  /\ (In c (budgetCategories s) <-> active b = true)
  /\ List.NoDup (budgetCategories s).
Proof.
  intros s b.
  destruct (run_sound trace _ (genesis_sound dao initialOwner))
    as (_ & _ & _ & _ & (Hnd & Hcat) & Hbud & _).
  destruct (Hbud c) as (Ht & Hs0 & Hr0 & _).
  split; [exact Ht|]. split; [exact Hs0|]. split; [exact Hr0|].
  split; [apply Hcat | exact Hnd].
Qed.

Lemma sound_covers_execution (s : State) (i : Z) :
  sound s -> 0 < i <= totalProposalExecutions s ->
  let x := proposalExecutions s i in
  let tb := tokenBalances s (execToken x) in
  executed x = false ->
  0 <= amount x /\ amount x <= allocated tb /\ allocated tb <= balance tb
  /\ balance tb <= MAX_UINT256.
Proof.
  intros (Hb & _ & _ & Ham & _ & Hbud & Hrange) Hi x tb Hfresh.
  destruct (Hrange (execToken x)) as (Hc & Hav & Hal & Hmax).
  fold tb in Hc, Hav, Hal, Hmax. unfold consistent in Hc.
  pose proof (Hb (execToken x)) as Hbt. fold tb in Hbt.
  pose proof (budgeted_nonneg (execToken x) s Hbud) as Hq.
  assert (Hmem : pendingAmount (execToken x) s i <= pending (execToken x) s).
  { apply total_map_member.
    - intros j. unfold pendingAmount. destruct (_ && _); [apply Ham | lia].
    - apply executionIds_In, Hi. }
  unfold pendingAmount in Hmem. fold x in Hmem.
  rewrite Hfresh, N.eqb_refl in Hmem. simpl in Hmem.
  pose proof (Ham i) as Hnn. fold x in Hnn. lia.
Qed.

(** X21. A scheduled execution can always be paid out: in every state
    reached from deployment, executeProposal called by a treasury manager
    outside an emergency for a known, not yet executed execution whose
    proposal governance has executed does not revert (for a token, provided
    safeTransfer returns and the token reports no increased balance); the
    subtractions from balance and allocated never underflow. *)
Theorem scheduled_execution_can_be_paid
        (dao initialOwner : address) (trace : list (Env * Call))
        (e : Env) (id : Z) (x : Transfer) :
  let s := run trace (genesis dao initialOwner) in
  let ex := proposalExecutions s id in
  onlyTreasuryManager e s = Ok tt ->
  emergencyMode s = false ->
  0 < id <= totalProposalExecutions s ->
  executed ex = false ->
  Spec.approved e ex = true ->
  (is_zero (execToken ex) = false ->
   safeTransferOk x = true /\ balanceAfter x <= balanceBefore x) ->
  exists s' ok, executeProposal e id x s = Ok (s', ok).
Proof.
  intros s ex Hm Hem Hid Hfresh Happ Htoken.
  pose proof (run_sound trace _ (genesis_sound dao initialOwner)) as Hs.
  fold s in Hs.
  destruct (sound_covers_execution s id Hs Hid Hfresh)
    as (Hnn & Hal & Hbal & Hmax). fold ex in Hnn, Hal, Hbal, Hmax.
  clearbody s. unfold executeProposal. rewrite Hm, bind_ret.
  unfold notInEmergency. rewrite Hem. simpl negb. rewrite require_true, bind_ret
    by reflexivity.
  rewrite require_true, bind_ret
    by (apply andb_true_iff; split; [apply Z.ltb_lt | apply Z.leb_le]; lia).
  fold ex. rewrite Hfresh. simpl negb. rewrite require_true, bind_ret
    by reflexivity.
  unfold Spec.approved in Happ.
  destruct (DAOGovernance.getProposal (proposalId ex) (governance e))
    as [p|err]; [|discriminate Happ].
  rewrite bind_ret, Happ, require_true, bind_ret by reflexivity.
  rewrite sub_ok, bind_ret by lia. rewrite sub_ok, bind_ret by lia.
  destruct (is_zero (execToken ex)) eqn:Hz.
  - rewrite bind_ret. destruct (callSuccess x); [eauto|].
    rewrite add_ok, bind_ret by lia. rewrite add_ok, bind_ret by lia. eauto.
  - destruct (Htoken eq_refl) as (Hsafe & Hmoved). rewrite Hsafe.
    unfold ensure. rewrite bind_ret, sub_ok, bind_ret, bind_ret by lia.
    destruct (_ =? _); [eauto|].
    rewrite add_ok, bind_ret by lia. rewrite add_ok, bind_ret by lia. eauto.
Qed.

Lemma scheduled_execution_can_be_paid_witness :
  exists s' ok,
    executeProposal Scenario.asAdmin 1 Scenario.delivered Scenario.vault
    = Ok (s', ok).
Proof.
  refine (scheduled_execution_can_be_paid
            Scenario.gov Scenario.admin
            [ (Scenario.asAdmin, Receive (10 * DAOGovernance.ether));
              (Scenario.asGovernance,
               ScheduleProposalExecution 1 Scenario.alice zero_address
                                         (1 * DAOGovernance.ether) []);
              (Scenario.asGovernance,
               ScheduleProposalExecution 7 Scenario.alice zero_address
                                         (1 * DAOGovernance.ether) []) ]
            Scenario.asAdmin 1 Scenario.delivered _ _ _ _ _ _).
  - vm_compute. reflexivity.
  - vm_compute. reflexivity.
  - vm_compute. split; [reflexivity | discriminate].
  - vm_compute. reflexivity.
  - vm_compute. reflexivity.
  - vm_compute. discriminate.
Defined.



(** *** Budget categories stay *)

Lemma call_budget_kept (e : Env) (c0 : Call) (s s' : State) (c : string) :
  call e c0 s = Ok s' ->
  let b := budgetAllocations s c in
  let b' := budgetAllocations s' c in
  active b = true ->
  active b' = true /\ budgetToken b' = budgetToken b
  /\ totalBudget b' = totalBudget b /\ spentAmount b <= spentAmount b'.
Proof.
  intros E b b' Hact. subst b b'.
  destruct c0; simpl in E; autounfold with treasury in E; ok_steps; subst;
    simpl; try (repeat split; try assumption; lia).
  - (* createBudgetAllocation *)
    unfold insert, fn_insert. destruct (decide _) as [<-|Hne]; simpl.
    + bools. congruence.
    + repeat split; try assumption; lia.
  - (* spendFromBudget *)
    unfold insert, fn_insert. destruct (decide _) as [<-|Hne]; simpl;
      bools; repeat split; try assumption; lia.
  - unfold insert, fn_insert. destruct (decide _) as [<-|Hne]; simpl;
      bools; repeat split; try assumption; lia.
Qed.

(** X23. A budget category is permanent: once active it stays active over
    every sequence of transactions, its token and total budget never change,
    what was spent never decreases, and createBudgetAllocation for the same
    name reverts from then on; the contract has no way to close, replace or
    top up a budget. *)
Theorem budget_category_is_permanent
        (s : State) (trace : list (Env * Call)) (c : string) :
  let s' := run trace s in
  let b := budgetAllocations s c in
  let b' := budgetAllocations s' c in
  active b = true ->
  active b' = true
  /\ budgetToken b' = budgetToken b
  /\ totalBudget b' = totalBudget b
  /\ spentAmount b <= spentAmount b'
  /\ (forall e t value,
         exists err, createBudgetAllocation e c t value s' = Err err).
Proof.
  intros s' b b' Hact.
  assert (Hkept : active b' = true /\ budgetToken b' = budgetToken b
                  /\ totalBudget b' = totalBudget b
                  /\ spentAmount b <= spentAmount b').
  { subst s' b b'. revert s Hact.
    induction trace as [|tx trace IH]; intros s Hact.
    - simpl. repeat split; [assumption | lia].
    - change (run (tx :: trace) s) with (run trace (step s tx)).
      assert (Hstep : active (budgetAllocations (step s tx) c) = true
                      /\ budgetToken (budgetAllocations (step s tx) c)
                         = budgetToken (budgetAllocations s c)
                      /\ totalBudget (budgetAllocations (step s tx) c)
                         = totalBudget (budgetAllocations s c)
                      /\ spentAmount (budgetAllocations s c)
                         <= spentAmount (budgetAllocations (step s tx) c)).
      { unfold step, commit.
        destruct (call (fst tx) (snd tx) s) as [s1|err] eqn:E.
        - exact (call_budget_kept _ _ _ _ c E Hact).
        - repeat split; [assumption | lia]. }
      destruct Hstep as (Ha & Ht & Hb & Hs).
      destruct (IH _ Ha) as (Ha' & Ht' & Hb' & Hs').
      repeat split; [assumption | congruence | congruence | lia]. }
  destruct Hkept as (Ha & Ht & Hb & Hs).
  repeat split; try assumption.
  intros e t value.
  destruct (createBudgetAllocation e c t value s') as [s2|err] eqn:E;
    [|eauto].
  exfalso. unfold createBudgetAllocation in E. ok_steps. bools.
  subst b'. congruence.
Qed.

Lemma budget_category_is_permanent_witness :
  let e := Scenario.asAdmin in
  let s := run [ (e, Receive (10 * DAOGovernance.ether));
                 (e, CreateBudgetAllocation "development" zero_address
                                            (5 * DAOGovernance.ether)) ]
               (genesis Scenario.gov Scenario.admin) in
  let later := [ (e, SpendFromBudget "development" Scenario.alice
                                     (1 * DAOGovernance.ether)
                                     Scenario.delivered);
                 (e, ToggleEmergencyMode) ] in
  totalBudget (budgetAllocations (run later s) "development")
  = 5 * DAOGovernance.ether.
Proof.
  intros e s later.
  destruct (budget_category_is_permanent s later "development")
    as (_ & _ & Htotal & _).
  - vm_compute. reflexivity.
  - rewrite Htotal. vm_compute. reflexivity.
Defined.

(** *** Emergency mode and callers without a role *)

(** X24. In emergency mode the books are frozen: whatever transaction is
    sent, no execution is scheduled or executed, no budget is created or
    spent from, and the recorded balance, allocated and available amounts of
    every supported asset stay as they are; emergencyWithdraw moves funds
    without writing them off. *)
Theorem emergency_freezes_the_books (s : State) (e : Env) (c : Call) :
  emergencyMode s = true ->
  let s' := step s (e, c) in
  totalProposalExecutions s' = totalProposalExecutions s
  /\ (forall i, proposalExecutions s' i = proposalExecutions s i)
  /\ budgetCategories s' = budgetCategories s
  /\ (forall k, budgetAllocations s' k = budgetAllocations s k)
  /\ (forall t, supported t s = true ->
                tokenBalances s' t = tokenBalances s t).
Proof.
  intros Hem s'. subst s'. unfold step, commit. simpl.
  destruct (call e c s) as [s'|err] eqn:E; [|auto 10].
  destruct c; simpl in E; autounfold with treasury in E;
    unfold notInEmergency in E; rewrite ?Hem in E; simpl in E;
    ok_steps; subst; simpl; try (repeat split; reflexivity);
    try discriminate.
  (* addSupportedToken *)
  repeat split. intros t' Hsup. unfold insert, fn_insert.
  destruct (decide (t = t')) as [<-|Hne]; [|reflexivity].
  bools. unfold supported in Hsup.
  repeat match goal with
         | H : is_zero _ = _ |- _ => rewrite H in Hsup
         end.
  discriminate Hsup.
Qed.

Lemma emergency_freezes_the_books_witness :
  let s := step Scenario.vault (Scenario.asAdmin, ToggleEmergencyMode) in
  let s' := step s (Scenario.asAdmin, ExecuteProposal 1 Scenario.delivered) in
  emergencyMode s = true
  /\ executed (proposalExecutions s' 1) = false.
Proof.
  intros s s'. split; [vm_compute; reflexivity|].
  destruct (emergency_freezes_the_books
              s Scenario.asAdmin (ExecuteProposal 1 Scenario.delivered))
    as (_ & Hx & _).
  - vm_compute. reflexivity.
  - fold s' in Hx. rewrite (Hx 1). vm_compute. reflexivity.
Defined.

(** X25. A caller without a role (not the owner, not the governance
    contract, neither treasury nor emergency manager) can only deposit: its
    transactions leave the owner, the managers, the emergency flag, the
    supported tokens, the executions and the budgets alone, and of every
    asset they change nothing but balance and available, which grow by the
    same amount. *)
Theorem outsider_can_only_deposit (s : State) (e : Env) (c : Call) :
  outsider e s = true ->
  let s' := step s (e, c) in
  owner s' = owner s
  /\ emergencyMode s' = emergencyMode s
  /\ supportedTokens s' = supportedTokens s
  /\ totalProposalExecutions s' = totalProposalExecutions s
  /\ budgetCategories s' = budgetCategories s
  /\ (forall a, treasuryManagers s' a = treasuryManagers s a
                /\ emergencyManagers s' a = emergencyManagers s a)
  /\ (forall i, proposalExecutions s' i = proposalExecutions s i)
  /\ (forall k, budgetAllocations s' k = budgetAllocations s k)
  /\ (forall t,
         let tb := tokenBalances s t in
         let tb' := tokenBalances s' t in
         token tb' = token tb /\ allocated tb' = allocated tb
         /\ balance tb <= balance tb'
         /\ available tb' - available tb = balance tb' - balance tb).
Proof.
  intros Hout s'. subst s'. unfold outsider in Hout. bools.
  unfold step, commit. simpl.
  destruct (call e c s) as [s'|err] eqn:E;
    [|repeat split; auto; lia].
  destruct c; simpl in E; autounfold with treasury in E;
    unfold onlyOwner, onlyDAO, onlyTreasuryManager, onlyEmergencyManager
      in E;
    repeat match goal with
           | H : _ = false |- _ => rewrite H in E
           end;
    simpl in E; ok_steps; subst; simpl; try discriminate;
    repeat split; try reflexivity; try lia;
    unfold insert, fn_insert; destruct (decide _) as [<-|Hne]; simpl;
    bools; lia.
Qed.

Lemma outsider_can_only_deposit_witness :
  let e := DAOTreasury.mkEnv Scenario.dave Scenario.t2 Scenario.s5 0 in
  let s' := step Scenario.vault (e, ToggleEmergencyMode) in
  emergencyMode s' = false.
Proof.
  intros e s'.
  destruct (outsider_can_only_deposit Scenario.vault e ToggleEmergencyMode)
    as (_ & Hem & _).
  - vm_compute. reflexivity.
  - fold s' in Hem. rewrite Hem. vm_compute. reflexivity.
Defined.

(** *** The list of supported tokens *)

Lemma call_tokensListed (e : Env) (c : Call) (s s' : State) :
  call e c s = Ok s' -> tokensListed s -> tokensListed s'.
Proof.
  intros E (Hnd & Hlist).
  destruct c; simpl in E; autounfold with treasury in E; ok_steps; subst;
    try (split; assumption).
  1: { (* addSupportedToken *)
    bools. split; simpl.
    - apply List.NoDup_app; [exact Hnd | repeat constructor; intros [] |].
      intros k Hk [<-|[]]. apply Hlist in Hk. unfold supported in Hk.
      repeat match goal with
             | H : is_zero _ = _ |- _ => rewrite H in Hk
             end.
      discriminate Hk.
    - intros t'. rewrite in_app_iff. unfold supported. simpl.
      unfold insert, fn_insert.
      destruct (decide (t = t')) as [<-|Hne]; simpl.
      + match goal with H : is_zero t = false |- _ => rewrite H end.
        simpl. split; auto.
      + rewrite Hlist. unfold supported.
        split; [intros [?|[?|[]]]; [assumption | contradiction] | auto]. }
  (* the calls that write a balance keep its token field *)
  all: simpl; split; [exact Hnd|]; intros t'; rewrite Hlist;
    unfold supported; simpl; unfold insert, fn_insert;
    destruct (decide _) as [<-|Hne]; reflexivity.
Qed.

Lemma run_tokensListed (trace : list (Env * Call)) (s : State) :
  tokensListed s -> tokensListed (run trace s).
Proof.
  revert s. induction trace as [|tx trace IH]; intros s H; [exact H|].
  simpl. apply IH. unfold step, commit.
  destruct (call (fst tx) (snd tx) s) as [s1|err] eqn:E; [|exact H].
  eapply call_tokensListed; eauto.
Qed.

Lemma genesis_tokensListed (dao initialOwner : address) :
  tokensListed (genesis dao initialOwner).
Proof.
  split; simpl.
  - repeat constructor. intros [].
  - intros t. unfold supported. simpl. unfold insert, fn_insert.
    destruct (decide (zero_address = t)) as [<-|Hne]; simpl.
    + split; auto.
    + split; [intros [?|[]]; contradiction|].
      assert (is_zero t = false) as ->
          by (apply N.eqb_neq; congruence).
      discriminate.
Qed.

(** X26. After every sequence of treasury transactions from deployment on,
    getSupportedTokens lists exactly the assets the contract accepts (ether
    and the tokens added by the owner), each once. *)
Theorem supported_tokens_listed (dao initialOwner : address)
        (trace : list (Env * Call)) (t : address) :
  let s := run trace (genesis dao initialOwner) in
  (In t (supportedTokens s) <-> supported t s = true)
  /\ List.NoDup (supportedTokens s).
Proof.
  intros s.
  destruct (run_tokensListed trace _ (genesis_tokensListed dao initialOwner))
    as [Hnd Hlist].
  split; [apply Hlist | exact Hnd].
Qed.

End TreasuryBooks.

(** ** The frontend against the contract *)

Section FrontendStatus.

Import DAOGovernance.






End FrontendStatus.

(** ** ipfs/metadata.js: which attachments are accepted *)

Section Attachments.

Import Metadata.

Lemma includes_In (extensions : list string) (ext : string) :
  includes extensions ext = true <-> In ext extensions.
Proof.
  unfold includes. rewrite existsb_exists. split.
  - intros (x & Hx & Heq). apply String.eqb_eq in Heq. subst. exact Hx.
  - intros H. exists ext. split; [exact H | apply String.eqb_refl].
Qed.

Lemma includes_not_In (extensions : list string) (ext : string) :
  ~ In ext extensions -> includes extensions ext = false.
Proof.
  intros H. destruct (includes extensions ext) eqn:E; [|reflexivity].
  apply includes_In in E. contradiction.
Qed.

(** Every listed extension, one at a time. *)
Ltac each_extension H :=
  unfold extensionsOf in H; simpl in H;
  repeat (destruct H as [<-|H]; [split; vm_compute; reflexivity|]);
  destruct H.

Lemma image_extension (ext : string) :
  In ext (extensionsOf "images") ->
  getFileType ext = "image" /\ isFileTypeSupported ext = true.
Proof. intros H. each_extension H. Qed.

Lemma document_extension (ext : string) :
  In ext (extensionsOf "documents") ->
  getFileType ext = "document" /\ isFileTypeSupported ext = true.
Proof. intros H. each_extension H. Qed.

Lemma data_extension (ext : string) :
  In ext (extensionsOf "data") ->
  getFileType ext = "dat" /\ isFileTypeSupported ext = true.
Proof. intros H. each_extension H. Qed.

Lemma archive_extension (ext : string) :
  In ext (extensionsOf "archives") ->
  getFileType ext = "archive" /\ isFileTypeSupported ext = true.
Proof. intros H. each_extension H. Qed.

Lemma other_extension (ext : string) :
  ~ In ext (extensionsOf "images") ->
  ~ In ext (extensionsOf "documents") ->
  ~ In ext (extensionsOf "data") ->
  ~ In ext (extensionsOf "archives") ->
  getFileType ext = "unknown" /\ isFileTypeSupported ext = false.
Proof.
  intros Hi Hd Hj Ha.
  apply includes_not_In in Hi, Hd, Hj, Ha.
  unfold getFileType, isFileTypeSupported, SUPPORTED_FILE_TYPES,
    getFileTypeIn, existsb, snd.
  change (extensionsOf "images")
    with [".jpg"; ".jpeg"; ".png"; ".gif"; ".webp"; ".svg"] in Hi.
  change (extensionsOf "documents")
    with [".pdf"; ".doc"; ".docx"; ".txt"; ".md"; ".rtf"] in Hd.
  change (extensionsOf "data")
    with [".json"; ".csv"; ".xml"; ".yaml"; ".yml"] in Hj.
  change (extensionsOf "archives") with [".zip"; ".tar"; ".gz"; ".rar"] in Ha.
  rewrite Hi, Hd, Hj, Ha. split; reflexivity.
Qed.

Lemma size_limits :
  getMaxFileSize "image" = Some (5 * MB)
  /\ getMaxFileSize "document" = Some (10 * MB)
  /\ getMaxFileSize "dat" = Some (1 * MB)
  /\ getMaxFileSize "archive" = Some (20 * MB)
  /\ getMaxFileSize "unknown" = Some (1 * MB).
Proof. repeat split; vm_compute; reflexivity. Qed.

Lemma validateFile_of_type (size : Z) (ext fileType : string) (limit : Z) :
  getFileType ext = fileType ->
  getMaxFileSize fileType = Some limit ->
  validateFile true size ext
  = if limit <? size then Some (FileTooLarge fileType (Some limit))
    else if negb (isFileTypeSupported ext) then Some UnsupportedFileType
         else None.
Proof.
  intros Ht Hm. unfold validateFile. rewrite Ht, Hm. reflexivity.
Qed.

(** An extension is listed under one category only. *)
Ltac clash :=
  repeat match goal with
         | H : In _ (extensionsOf "images") |- _ =>
             apply image_extension in H; destruct H as [H _]
         | H : In _ (extensionsOf "documents") |- _ =>
             apply document_extension in H; destruct H as [H _]
         | H : In _ (extensionsOf "data") |- _ =>
             apply data_extension in H; destruct H as [H _]
         | H : In _ (extensionsOf "archives") |- _ =>
             apply archive_extension in H; destruct H as [H _]
         end;
  congruence.

(** X29. validateFile accepts a present file exactly when its extension is
    listed under a category and its size is within the limit of that
    category: 5 MB for images, 10 MB for documents, 1 MB for data files and
    20 MB for archives.  (For data files getFileType returns "dat", which
    is no key of MAX_FILE_SIZES; the limit is the fallback, which is that of
    data.) *)
Theorem validateFile_accepts (size : Z) (ext : string) :
  validateFile true size ext = None
  <-> (In ext (extensionsOf "images") /\ size <= 5 * MB)
      \/ (In ext (extensionsOf "documents") /\ size <= 10 * MB)
      \/ (In ext (extensionsOf "data") /\ size <= 1 * MB)
      \/ (In ext (extensionsOf "archives") /\ size <= 20 * MB).
Proof.
  destruct size_limits as (Li & Ld & Lj & La & Lu).
  destruct (in_dec string_dec ext (extensionsOf "images")) as [Hi|Hi];
    [|destruct (in_dec string_dec ext (extensionsOf "documents")) as [Hd|Hd];
      [|destruct (in_dec string_dec ext (extensionsOf "data")) as [Hj|Hj];
        [|destruct (in_dec string_dec ext (extensionsOf "archives"))
            as [Ha|Ha]]]].
  - destruct (image_extension ext Hi) as [Ht Hs].
    rewrite (validateFile_of_type size ext _ _ Ht Li), Hs. simpl negb.
    destruct (Z.ltb_spec (5 * MB) size); split;
      try discriminate; try reflexivity.
    + intros [[_ ?]|[[? _]|[[? _]|[? _]]]]; [lia | clash | clash | clash].
    + intros _. left. split; [exact Hi | lia].
  - destruct (document_extension ext Hd) as [Ht Hs].
    rewrite (validateFile_of_type size ext _ _ Ht Ld), Hs. simpl negb.
    destruct (Z.ltb_spec (10 * MB) size); split;
      try discriminate; try reflexivity.
    + intros [[? _]|[[_ ?]|[[? _]|[? _]]]]; [clash | lia | clash | clash].
    + intros _. right. left. split; [exact Hd | lia].
  - destruct (data_extension ext Hj) as [Ht Hs].
    rewrite (validateFile_of_type size ext _ _ Ht Lj), Hs. simpl negb.
    destruct (Z.ltb_spec (1 * MB) size); split;
      try discriminate; try reflexivity.
    + intros [[? _]|[[? _]|[[_ ?]|[? _]]]]; [clash | clash | lia | clash].
    + intros _. right. right. left. split; [exact Hj | lia].
  - destruct (archive_extension ext Ha) as [Ht Hs].
    rewrite (validateFile_of_type size ext _ _ Ht La), Hs. simpl negb.
    destruct (Z.ltb_spec (20 * MB) size); split;
      try discriminate; try reflexivity.
    + intros [[? _]|[[? _]|[[? _]|[_ ?]]]]; [clash | clash | clash | lia].
    + intros _. right. right. right. split; [exact Ha | lia].
  - destruct (other_extension ext Hi Hd Hj Ha) as [Ht Hs].
    rewrite (validateFile_of_type size ext _ _ Ht Lu), Hs. simpl negb.
    split.
    + destruct (_ <? _); discriminate.
    + intros [[? _]|[[? _]|[[? _]|[? _]]]]; contradiction.
Qed.

(** X30. A file whose extension is not listed is never accepted, and the
    order of the checks decides what it is told: over 1 MB, the fallback
    limit, it is refused as too large for the type "unknown", and only up
    to 1 MB as of an unsupported type. *)
Theorem unlisted_extension_is_refused (size : Z) (ext : string) :
  isFileTypeSupported ext = false ->
  validateFile true size ext
  = if 1 * MB <? size then Some (FileTooLarge "unknown" (Some (1 * MB)))
    else Some UnsupportedFileType.
Proof.
  intros Hno.
  assert (Ht : getFileType ext = "unknown").
  { destruct (in_dec string_dec ext (extensionsOf "images")) as [Hi|Hi];
      [apply image_extension in Hi; destruct Hi; congruence|].
    destruct (in_dec string_dec ext (extensionsOf "documents")) as [Hd|Hd];
      [apply document_extension in Hd; destruct Hd; congruence|].
    destruct (in_dec string_dec ext (extensionsOf "data")) as [Hj|Hj];
      [apply data_extension in Hj; destruct Hj; congruence|].
    destruct (in_dec string_dec ext (extensionsOf "archives")) as [Ha|Ha];
      [apply archive_extension in Ha; destruct Ha; congruence|].
    apply (other_extension ext Hi Hd Hj Ha). }
  destruct size_limits as (_ & _ & _ & _ & Lu).
  rewrite (validateFile_of_type size ext _ _ Ht Lu), Hno. reflexivity.
Qed.

Lemma unlisted_extension_is_refused_witness :
  validateFile true (2 * MB) ".exe"
  = Some (FileTooLarge "unknown" (Some (1 * MB))).
Proof.
  exact (unlisted_extension_is_refused (2 * MB) ".exe" eq_refl).
Defined.

End Attachments.
